(** * Polyglot Reader: the ebook catalog engine

    A shallow embedding of the aggregation, deduplication, enrichment and
    query code of the ebooks controller, and the properties of the
    specification checked against it.

    Conventions of the embedding.
    - A JavaScript string is a [string]; the embedding is exact on strings of
      ASCII code units.  On those, [String.prototype.normalize('NFKD')] is the
      identity and no code unit lies in the combining range U+0300..U+036F, so
      the two steps "normalize, strip combining marks" leave the string as it
      is; [toLowerCase] maps A..Z to a..z; the class [\s] is TAB, LF, VT, FF,
      CR and SPACE.
    - A JavaScript number that the code only compares, adds or floors is a [Z].
    - [x | null | undefined] is an [option]; a field that is absent and a field
      that is [null] are both [None].
    - Module-level mutable state ([Map]s, timers) is passed explicitly.
    - [Date.now()] and [Math.random()] are inputs of the functions that call
      them. *)

From Stdlib Require Import ZArith Lia Ascii String List Bool Permutation.
From stdpp Require Import base gmap strings list.
Import ListNotations.

Local Open Scope Z_scope.

(** ** JavaScript string primitives *)

Module JS.

Definition code (c : ascii) : Z := Z.of_N (N_of_ascii c).

(** The regular expression class [\s] (and the set that [trim] strips). *)
Definition isSpace (c : ascii) : bool :=
  let n := code c in ((9 <=? n) && (n <=? 13)) || (n =? 32).

Definition isUpper (c : ascii) : bool := let n := code c in (65 <=? n) && (n <=? 90).
Definition isLower (c : ascii) : bool := let n := code c in (97 <=? n) && (n <=? 122).
Definition isDigit (c : ascii) : bool := let n := code c in (48 <=? n) && (n <=? 57).
Definition isLetter (c : ascii) : bool := isUpper c || isLower c.

(** The class [\w]. *)
Definition isWord (c : ascii) : bool := isLetter c || isDigit c || (code c =? 95).

(** The characters that [.] does not match. *)
Definition isLineTerminator (c : ascii) : bool := let n := code c in (n =? 10) || (n =? 13).

Definition lowerChar (c : ascii) : ascii :=
  if isUpper c then ascii_of_N (Z.to_N (code c + 32)) else c.

Fixpoint toLowerCase (s : string) : string :=
  match s with
  | EmptyString => EmptyString
  | String c r => String (lowerChar c) (toLowerCase r)
  end.

(** [!s] for a string: the empty string is the only falsy one. *)
Definition isEmpty (s : string) : bool :=
  match s with EmptyString => true | _ => false end.

Fixpoint trimStart (s : string) : string :=
  match s with
  | EmptyString => EmptyString
  | String c r => if isSpace c then trimStart r else s
  end.

Fixpoint trimEnd (s : string) : string :=
  match s with
  | EmptyString => EmptyString
  | String c r =>
      let r' := trimEnd r in
      if isSpace c && isEmpty r' then EmptyString else String c r'
  end.

Definition trim (s : string) : string := trimEnd (trimStart s).

(** [s.replace(/\s+/g, ' ')]: [inRun] tells that the previous character
    belonged to the run of white space already replaced. *)
Fixpoint collapseFrom (inRun : bool) (s : string) : string :=
  match s with
  | EmptyString => EmptyString
  | String c r =>
      if isSpace c
      then (if inRun then collapseFrom true r else String " " (collapseFrom true r))
      else String c (collapseFrom false r)
  end.

Definition collapseSpaces (s : string) : string := collapseFrom false s.

Fixpoint startsWith (p s : string) : bool :=
  match p, s with
  | EmptyString, _ => true
  | String a p', String b s' => Ascii.eqb a b && startsWith p' s'
  | String _ _, EmptyString => false
  end.

(** [s.includes(p)]. *)
Fixpoint includes (s p : string) : bool :=
  startsWith p s ||
  match s with
  | EmptyString => false
  | String _ r => includes r p
  end.

(** [s.replace(/pat/g, rep)] for a literal pattern: [skip] counts the
    characters of a match that remain to be dropped. *)
Fixpoint replaceAllFrom (pat rep : string) (skip : nat) (s : string) : string :=
  match s with
  | EmptyString => EmptyString
  | String c r =>
      match skip with
      | S k => replaceAllFrom pat rep k r
      | O =>
          if negb (isEmpty pat) && startsWith pat s
          then rep ++ replaceAllFrom pat rep (String.length pat - 1) r
          else String c (replaceAllFrom pat rep 0 r)
      end
  end.

Definition replaceAll (pat rep s : string) : string := replaceAllFrom pat rep 0 s.

(** The part of [s] before the first occurrence of [d], the whole of [s]
    when there is none: [i = s.indexOf(d); i >= 0 ? s.slice(0, i) : s]. *)
Fixpoint beforeFirst (d : ascii) (s : string) : string :=
  match s with
  | EmptyString => EmptyString
  | String c r => if Ascii.eqb c d then EmptyString else String c (beforeFirst d r)
  end.

(** [s.split(' ').filter(Boolean)]: the non-empty fields between spaces. *)
Fixpoint tokensFrom (cur : string) (s : string) : list string :=
  match s with
  | EmptyString => if isEmpty cur then [] else [cur]
  | String c r =>
      if Ascii.eqb c " "
      then (if isEmpty cur then tokensFrom EmptyString r else cur :: tokensFrom EmptyString r)
      else tokensFrom (cur ++ String c EmptyString) r
  end.

Definition tokens (s : string) : list string := tokensFrom EmptyString s.

(** [x || d] for an optional string: [null], [undefined] and the empty
    string give [d]. *)
Definition orElse (x : option string) (d : string) : string :=
  match x with
  | Some s => if isEmpty s then d else s
  | None => d
  end.

(** [!!x] for an optional string. *)
Definition truthy (x : option string) : bool :=
  match x with
  | Some s => negb (isEmpty s)
  | None => false
  end.

End JS.

(** ** Title and key normalisation *)

Definition quoteChar : string := String (ascii_of_nat 34) EmptyString.

Definition decodeXmlEntities (value : string) : string :=
  JS.replaceAll "&#39;" "'"
    (JS.replaceAll "&quot;" quoteChar
       (JS.replaceAll "&gt;" ">"
          (JS.replaceAll "&lt;" "<"
             (JS.replaceAll "&amp;" "&" value)))).

Definition normalizeTitle (title : string) : string :=
  decodeXmlEntities (JS.trim title).

Definition normalizeAuthorName (name : string) : string :=
  let trimmed := JS.trim name in
  if JS.isEmpty trimmed then "Unknown" else trimmed.

(** Does [/\$[a-z]\b.*$/i] match at the head of [s]? *)
Definition marcHere (s : string) : bool :=
  match s with
  | String d (String l rest) =>
      Ascii.eqb d "$" && JS.isLetter l &&
      match rest with
      | EmptyString => true
      | String n _ => negb (JS.isWord n)
      end &&
      negb (existsb JS.isLineTerminator (list_ascii_of_string rest))
  | _ => false
  end.

(** [base.replace(/\s*\$[a-z]\b.*$/i, '')]: the match, when there is one,
    runs to the end of the string, so what remains is the text before the
    leftmost position at which the expression matches. *)
Fixpoint stripMarc (s : string) : string :=
  match s with
  | EmptyString => EmptyString
  | String c r => if marcHere (JS.trimStart s) then EmptyString else String c (stripMarc r)
  end.

Definition normalizeMainTitle (title : string) : string :=
  let base := normalizeTitle title in
  if JS.isEmpty base then EmptyString
  else
    let withoutMarc := stripMarc base in
    let beforeColon := JS.beforeFirst ":" withoutMarc in
    JS.trim (JS.collapseSpaces beforeColon).

(** [raw.normalize('NFKD')] followed by the removal of the combining marks
    U+0300..U+036F. *)
Definition stripMarks (raw : string) : string := raw.

Definition normalizeForCatalogNorm (value : string) : string :=
  let raw := JS.trim value in
  if JS.isEmpty raw then EmptyString
  else JS.toLowerCase (JS.trim (JS.collapseSpaces (stripMarks raw))).

Definition toCatalogId (lang title author : string) : string :=
  lang ++ "::" ++ normalizeForCatalogNorm title ++ "::" ++ normalizeForCatalogNorm author.

(** [s.replace(/[^a-z0-9]+/g, ' ')]. *)
Fixpoint keepAlnumFrom (inRun : bool) (s : string) : string :=
  match s with
  | EmptyString => EmptyString
  | String c r =>
      if JS.isLower c || JS.isDigit c
      then String c (keepAlnumFrom false r)
      else (if inRun then keepAlnumFrom true r else String " " (keepAlnumFrom true r))
  end.

Definition normalizeForLookup (value : string) : string :=
  let raw := JS.toLowerCase (JS.trim value) in
  if JS.isEmpty raw then EmptyString
  else JS.trim (JS.collapseSpaces (keepAlnumFrom false (stripMarks raw))).

(** ** Data model *)

Inductive EbookSource : Type :=
  | gutendex | standardebooks | wikisource | wolnelektury | manybooks.

Definition sourceName (s : EbookSource) : string :=
  match s with
  | gutendex => "gutendex"
  | standardebooks => "standardebooks"
  | wikisource => "wikisource"
  | wolnelektury => "wolnelektury"
  | manybooks => "manybooks"
  end.

Module ApiEbook.
Record t : Type := mk {
  id : string;
  title : string;
  author : string;
  language : string;
  category : string;
  coverUrl : option string;
  downloadUrl : option string;
  _source : option EbookSource;
  _popularity : option Z
}.
End ApiEbook.

Module Row.
(** [EbookCatalogItemRow]; [created_at] is never written by this code. *)
Record t : Type := mk {
  id : string;
  lang_code : string;
  title : string;
  author : string;
  category : string;
  cover_url : option string;
  download_url : string;
  source : string;
  source_id : option string;
  source_popularity : option Z;
  author_norm : string;
  title_norm : string;
  updated_at : string;
  last_seen_at : string
}.
End Row.

(** ** Deduplicator / merger *)

Definition sourceRank (s : EbookSource) : Z :=
  match s with
  | standardebooks => 0
  | wolnelektury => 1
  | gutendex => 2
  | wikisource => 3
  | manybooks => 4
  end.

Definition hasCover (b : ApiEbook.t) : bool := JS.truthy (ApiEbook.coverUrl b).

Definition popularityOf (b : ApiEbook.t) : Z :=
  match ApiEbook._popularity b with Some p => p | None => 0 end.

Definition rankOf (b : ApiEbook.t) : Z :=
  match ApiEbook._source b with Some s => sourceRank s | None => 999 end.

Definition pickBetterCandidate (a b : ApiEbook.t) : ApiEbook.t :=
  let aHasCover := hasCover a in
  let bHasCover := hasCover b in
  if negb (Bool.eqb aHasCover bHasCover) then (if bHasCover then b else a)
  else
    let ap := popularityOf a in
    let bp := popularityOf b in
    if negb (ap =? bp) then (if bp >? ap then b else a)
    else
      let ar := rankOf a in
      let br := rankOf b in
      if negb (ar =? br) then (if br <? ar then b else a)
      else a.

Definition hasResolvedAuthor (b : ApiEbook.t) : bool :=
  let a := JS.trim (ApiEbook.author b) in
  negb (JS.isEmpty a) && negb (String.eqb (JS.toLowerCase a) "unknown").

(** A JavaScript [Map] with string keys: insertion order is kept, and
    setting a key that is present replaces the value where it stands. *)
Section JsMap.
Context {V : Type}.

Fixpoint mapGet (k : string) (m : list (string * V)) : option V :=
  match m with
  | [] => None
  | (k', v) :: r => if String.eqb k k' then Some v else mapGet k r
  end.

Fixpoint mapSet (k : string) (v : V) (m : list (string * V)) : list (string * V) :=
  match m with
  | [] => [(k, v)]
  | (k', v') :: r => if String.eqb k k' then (k, v) :: r else (k', v') :: mapSet k v r
  end.

Definition mapKeys (m : list (string * V)) : list string := map fst m.
Definition mapValues (m : list (string * V)) : list V := map snd m.
End JsMap.

(** ** Sync orchestrator: merge and row construction
    ([syncEbookCatalogLanguage], from "Merge candidates into a single deduped
    set" to the call of [upsertCatalogItems]). *)

(** The guard shared by the two loops: non-empty trimmed title, author and
    download link, and a resolved author. *)
Definition syncKeeps (b : ApiEbook.t) : bool :=
  let title := JS.trim (ApiEbook.title b) in
  let author := JS.trim (ApiEbook.author b) in
  let downloadUrl := JS.trim (JS.orElse (ApiEbook.downloadUrl b) EmptyString) in
  negb (JS.isEmpty title || JS.isEmpty author || JS.isEmpty downloadUrl)
  && hasResolvedAuthor b.

Definition candidateId (lang : string) (b : ApiEbook.t) : string :=
  toCatalogId lang (JS.trim (ApiEbook.title b)) (JS.trim (ApiEbook.author b)).

(** One turn of [for (const b of all)]. *)
Definition dedupeStep (lang : string) (deduped : list (string * ApiEbook.t)) (b : ApiEbook.t)
  : list (string * ApiEbook.t) :=
  if negb (syncKeeps b) then deduped
  else
    let id := candidateId lang b in
    match mapGet id deduped with
    | None => mapSet id b deduped
    | Some prev => mapSet id (pickBetterCandidate prev b) deduped
    end.

Definition dedupeAll (lang : string) (all : list ApiEbook.t) : list (string * ApiEbook.t) :=
  fold_left (dedupeStep lang) all [].

Definition toRow (lang nowIso : string) (b : ApiEbook.t) : Row.t :=
  let title := JS.trim (ApiEbook.title b) in
  let author := JS.trim (ApiEbook.author b) in
  let downloadUrl := JS.trim (JS.orElse (ApiEbook.downloadUrl b) EmptyString) in
  {| Row.id := toCatalogId lang title author;
     Row.lang_code := lang;
     Row.title := title;
     Row.author := author;
     Row.category :=
       (let c := JS.trim (JS.orElse (Some (ApiEbook.category b)) "Fiction") in
        if JS.isEmpty c then "Fiction" else c);
     Row.cover_url := if hasCover b then ApiEbook.coverUrl b else None;
     Row.download_url := downloadUrl;
     Row.source :=
       match ApiEbook._source b with Some s => sourceName s | None => "gutendex" end;
     Row.source_id := Some (ApiEbook.id b);
     Row.source_popularity :=
       match ApiEbook._popularity b with Some p => Some (Z.max 0 p) | None => None end;
     Row.author_norm := normalizeForCatalogNorm author;
     Row.title_norm := normalizeForCatalogNorm title;
     Row.updated_at := nowIso;
     Row.last_seen_at := nowIso |}.

(** [for (const b of deduped.values())]: the rows handed to the upsert. *)
Fixpoint rowsOf (lang nowIso : string) (values : list ApiEbook.t) : list Row.t :=
  match values with
  | [] => []
  | b :: rest =>
      if negb (syncKeeps b) then rowsOf lang nowIso rest
      else toRow lang nowIso b :: rowsOf lang nowIso rest
  end.

Definition syncRows (lang nowIso : string) (all : list ApiEbook.t) : list Row.t :=
  rowsOf lang nowIso (mapValues (dedupeAll lang all)).

(** ** The persisted catalog, as the upsert sees it *)

(** [rows.slice(i, i + chunkSize)] for [i = 0, chunkSize, ...]; [fuel] bounds
    the number of chunks and [length rows] is enough. *)
Fixpoint chunksOf {A : Type} (fuel : nat) (chunkSize : nat) (rows : list A) : list (list A) :=
  match fuel with
  | O => []
  | S fuel' =>
      match rows with
      | [] => []
      | _ => firstn chunkSize rows :: chunksOf fuel' chunkSize (skipn chunkSize rows)
      end
  end.

Section Datastore.
(** What the datastore does with a row whose id is already stored: the
    stored row and the incoming row give the row that is kept. *)
Variable onConflict : Row.t -> Row.t -> Row.t.

Definition upsertRow (db : gmap string Row.t) (r : Row.t) : gmap string Row.t :=
  match db !! Row.id r with
  | None => <[Row.id r := r]> db
  | Some old => <[Row.id r := onConflict old r]> db
  end.

(** [upsertCatalogItems] when the datastore reports no error. *)
Definition upsertCatalogItems (db : gmap string Row.t) (rows : list Row.t) : gmap string Row.t :=
  fold_left (fun d chunk => fold_left upsertRow chunk d)
            (chunksOf (length rows) 400 rows) db.
End Datastore.

(** ** Numbers read from text *)

Definition digitValue (c : ascii) : Z := JS.code c - 48.

Fixpoint digitsValue (acc : Z) (s : string) : Z :=
  match s with
  | EmptyString => acc
  | String c r => if JS.isDigit c then digitsValue (10 * acc + digitValue c) r else acc
  end.

(** [parseInt(s, 10)]: leading white space, an optional sign, then the
    longest run of decimal digits; [None] stands for [NaN]. *)
Definition parseInt10 (s : string) : option Z :=
  let t := JS.trimStart s in
  let '(neg, body) :=
    match t with
    | String c r =>
        if Ascii.eqb c "-" then (true, r)
        else if Ascii.eqb c "+" then (false, r)
        else (false, t)
    | EmptyString => (false, t)
    end in
  match body with
  | String d _ =>
      if JS.isDigit d
      then Some (if neg then - digitsValue 0 body else digitsValue 0 body)
      else None
  | EmptyString => None
  end.

(** [clampInt] on a query-string parameter ([undefined] or a string). *)
Definition clampInt (raw : option string) (min max fallback : Z) : Z :=
  match raw with
  | None => fallback
  | Some s =>
      match parseInt10 s with
      | None => fallback
      | Some n => Z.max min (Z.min max n)
      end
  end.

(** ** Source fetcher: the per-page request loop of [fetchGutendex] *)

Module Gutendex.

Record Response : Type := mkResponse {
  status : Z;
  retryAfter : option string   (* [resp.headers.get('retry-after')] *)
}.

(** [resp.ok] *)
Definition ok (r : Response) : bool := (200 <=? status r) && (status r <=? 299).

Inductive Event : Type :=
  | Request                 (* one call of [fetchOnce] *)
  | Sleep (ms : Z).          (* one call of [sleepMs] *)

(** [sleepMs(ms)] waits [Math.max(0, ms)]. *)
Definition sleepMs (ms : Z) : Event := Sleep (Z.max 0 ms).

(** The wait before the next attempt, jitter excluded. *)
Definition backoffOf (resp : Response) (attempt : nat) : Z :=
  let retryAfterSeconds :=
    match retryAfter resp with
    | Some h => if JS.isEmpty h then None else parseInt10 h
    | None => None
    end in
  match retryAfterSeconds with
  | Some secs => Z.max 1 secs * 1000
  | None => Z.min 8000 (800 * 2 ^ Z.of_nat attempt)
  end.

(** State of the page loop when the [for] over attempts is left. *)
Record Attempted : Type := mkAttempted {
  trace : list Event;
  resp : option Response;
  stop : bool
}.

Section Loop.
(** The answer of the upstream to the [n]-th request for this page, and
    the value of [Math.floor(Math.random() * 200)] drawn at attempt [n]. *)
Variable upstream : nat -> Response.
Variable jitter : nat -> Z.
Variable maxRetries : nat.

(** [for (let attempt = 0; attempt <= maxRetries; attempt++)];
    [left] is the number of turns that remain, [last] the value of
    [resp] on entry. *)
Fixpoint attemptsFrom (left : nat) (attempt : nat) (last : option Response) : Attempted :=
  match left with
  | O => mkAttempted [] last false
  | S left' =>
      let r := upstream attempt in
      let cons e a := mkAttempted (e ++ trace a) (resp a) (stop a) in
      if status r =? 404 then mkAttempted [Request] (Some r) true
      else if status r =? 429 then
        if (maxRetries <=? attempt)%nat then mkAttempted [Request] (Some r) true
        else
          cons [Request; sleepMs (backoffOf r attempt + jitter attempt)]
               (attemptsFrom left' (S attempt) (Some r))
      else if negb (ok r) then mkAttempted [Request] (Some r) true
      else mkAttempted [Request] (Some r) false
  end.

Definition attempts : Attempted := attemptsFrom (S maxRetries) 0%nat None.

(** [if (stop || !resp || !resp.ok) break;]: does the page loop go on to
    read the body? *)
Definition pageUsable (a : Attempted) : bool :=
  negb (stop a) &&
  match resp a with Some r => ok r | None => false end.


End Loop.

(** [opts.maxRetries], when it is absent or not a finite number, is 3. *)
Definition maxRetriesOf (opt : option Z) : nat :=
  match opt with
  | Some n => Z.to_nat (Z.max 0 n)
  | None => 3%nat
  end.

End Gutendex.

(** ** Source fetcher: the ManyBooks circuit breaker *)

Module ManyBooks.

Record HttpResponse : Type := mkHttp {
  status : Z;
  contentType : option string;   (* [resp.headers.get('content-type')] *)
  body : string                   (* [await resp.text()] *)
}.

Definition ok (r : HttpResponse) : bool := (200 <=? status r) && (status r <=? 299).

(** What [withTimeout] gives: a response, or a rejection (network error or
    abort after [MANYBOOKS_TIMEOUT_MS]). *)
Inductive NetReply : Type :=
  | Replied (r : HttpResponse)
  | Rejected.

(** A thrown error; only its [status] property is modelled, [None] when the
    error carries none. *)
Record Error : Type := mkError { errStatus : option Z }.

(** Programs over the effects that the fetcher uses: the clock, the
    module-level timer [manyBooksBlockedUntil], and outbound requests. *)
Inductive Prog (A : Type) : Type :=
  | Ret (a : A)
  | Throw (e : Error)
  | DateNow (k : Z -> Prog A)
  | ReadBlockedUntil (k : Z -> Prog A)
  | WriteBlockedUntil (v : Z) (k : Prog A)
  | Fetch (url : string) (k : NetReply -> Prog A).

Arguments Ret {A} a.
Arguments Throw {A} e.
Arguments DateNow {A} k.
Arguments ReadBlockedUntil {A} k.
Arguments WriteBlockedUntil {A} v k.
Arguments Fetch {A} url k.


Definition MANYBOOKS_BLOCK_TTL_MS : Z := 60 * 60 * 1000.

(** [text.trimStart().slice(0, 240).toLowerCase()] *)
Definition headOf (text : string) : string :=
  JS.toLowerCase (String.substring 0 240 (JS.trimStart text)).

Definition looksHtml (r : HttpResponse) : bool :=
  let ct := JS.toLowerCase (JS.orElse (contentType r) EmptyString) in
  let head := headOf (body r) in
  JS.includes ct "text/html" ||
  JS.startsWith "<!doctype" head ||
  JS.startsWith "<html" head ||
  JS.includes head "cloudflare" ||
  JS.includes head "just a moment".

Definition fetchManyBooksXml (url : string) : Prog string :=
  DateNow (fun now =>
  ReadBlockedUntil (fun blockedUntil =>
  if now <? blockedUntil then Throw (mkError (Some 403))
  else
    Fetch url (fun reply =>
    match reply with
    | Rejected => Throw (mkError None)
    | Replied resp =>
        let html := looksHtml resp in
        if negb (ok resp) || html then
          let st := if html then 403 else status resp in
          if (st =? 403) || (st =? 429) then
            DateNow (fun now' =>
            WriteBlockedUntil (now' + MANYBOOKS_BLOCK_TTL_MS)
              (Throw (mkError (Some st))))
          else Throw (mkError (Some st))
        else Ret (body resp)
    end))).

Section Fetch.
(** What [fetchManyBooks] does with the genres feed once it has it: the
    parsing of the feed, the walk over genre and detail pages and the
    final filtering.  The breaker is indifferent to it. *)
Variable afterGenres : string -> Z -> string -> Prog (list ApiEbook.t).


End Fetch.

(** The process state that a program runs against. *)
Record World : Type := mkWorld {
  clock : Z;                     (* the value that [Date.now()] returns *)
  manyBooksBlockedUntil : Z;
  sent : list string             (* the outbound requests, oldest first *)
}.

Inductive Result (A : Type) : Type :=
  | Returned (a : A)
  | Thrown (e : Error).
Arguments Returned {A} a.
Arguments Thrown {A} e.

Section Run.
(** The network: for the requests sent so far, the time of the request and
    its URL, the reply and the time at which it arrives. *)
Variable net : list string -> Z -> string -> NetReply * Z.

Fixpoint run {A : Type} (p : Prog A) (w : World) : Result A * World :=
  match p with
  | Ret a => (Returned a, w)
  | Throw e => (Thrown e, w)
  | DateNow k => run (k (clock w)) w
  | ReadBlockedUntil k => run (k (manyBooksBlockedUntil w)) w
  | WriteBlockedUntil v k => run k (mkWorld (clock w) v (sent w))
  | Fetch url k =>
      let '(reply, arrival) := net (sent w) (clock w) url in
      run (k reply) (mkWorld arrival (manyBooksBlockedUntil w) (sent w ++ [url]))
  end.
End Run.

(** A block signal: HTTP 403 or 429, or a challenge page. *)
Definition isBlockSignal (r : HttpResponse) : bool :=
  looksHtml r || (status r =? 403) || (status r =? 429).

End ManyBooks.

(** ** Single-flight caches *)

Module OlCache.

(** The result of an Open Library lookup. *)
Record Match : Type := mkMatch {
  coverUrl : option string;
  author : option string;
  title : option string
}.

Record Entry : Type := mkEntry { expiresAt : Z; value : Match }.

(** [olCache] and [olInFlight]; of a pending promise only its key matters. *)
Record State : Type := mkState {
  olCache : gmap string Entry;
  olInFlight : gset string
}.

Definition COVER_CACHE_TTL_MS : Z := 30 * 24 * 60 * 60 * 1000.
Definition NEGATIVE_TTL_MS : Z := 6 * 60 * 60 * 1000.

Definition noMatch : Match := mkMatch None None None.

Definition keyOf (lang title : string) (author : option string) : string :=
  let t := normalizeMainTitle title in
  lang ++ "::" ++ normalizeForLookup t ++ "::" ++
  normalizeForLookup (JS.orElse author EmptyString).

(** How a call of [getBetterOlMatch] is answered before anything is awaited. *)
Inductive Answer : Type :=
  | Cached (m : Match)          (* served from [olCache] *)
  | Joined                      (* the promise already in flight is returned *)
  | Launched (now : Z).         (* [fetchOpenLibraryMatch] is invoked *)

(** [getBetterOlMatch], up to the return of the promise. *)
Definition getBetterOlMatch (lang title : string) (author : option string)
           (now : Z) (st : State) : Answer * State :=
  let key := keyOf lang title author in
  match olCache st !! key with
  | Some cached =>
      if now <? expiresAt cached then (Cached (value cached), st)
      else if bool_decide (key ∈ olInFlight st) then (Joined, st)
      else (Launched now, mkState (olCache st) ({[key]} ∪ olInFlight st))
  | None =>
      if bool_decide (key ∈ olInFlight st) then (Joined, st)
      else (Launched now, mkState (olCache st) ({[key]} ∪ olInFlight st))
  end.

(** The outcome of [await fetchOpenLibraryMatch(t, author)]. *)
Inductive Outcome : Type :=
  | Fulfilled (m : Match)
  | Failed.

Definition orNull (x : option string) : option string :=
  if JS.truthy x then x else None.

(** The body of the promise once the lookup has settled ([try], [catch],
    [finally]); [now] is the time read when the call was launched.  The
    promise is fulfilled with the first component in both cases. *)
Definition settle (key : string) (now : Z) (o : Outcome) (st : State) : Match * State :=
  match o with
  | Fulfilled m =>
      (m, mkState (<[key := mkEntry (now + COVER_CACHE_TTL_MS)
                              (mkMatch (orNull (coverUrl m)) (orNull (author m)) (orNull (title m)))]>
                     (olCache st))
                  (olInFlight st ∖ {[key]}))
  | Failed =>
      (noMatch, mkState (<[key := mkEntry (now + NEGATIVE_TTL_MS) noMatch]> (olCache st))
                        (olInFlight st ∖ {[key]}))
  end.

End OlCache.

Module PoolCache.

Record AggregatedPool : Type := mkPool {
  generatedAt : string;
  merged : list ApiEbook.t
}.

Record Entry : Type := mkEntry { expiresAt : Z; data : AggregatedPool }.

(** [poolCache] and [poolInFlight]. *)
Record State : Type := mkState {
  poolCache : gmap string Entry;
  poolInFlight : gset string
}.

Definition CACHE_TTL_MS : Z := 10 * 60 * 1000.

Inductive Answer : Type :=
  | Cached (d : AggregatedPool)
  | Joined
  | Launched.

(** [getAggregatedPool], up to the first [await]; [key] is
    [`${lang}:${opts.pool}`]. *)
Definition getAggregatedPool (key : string) (now : Z) (st : State) : Answer * State :=
  match poolCache st !! key with
  | Some cached =>
      if now <? expiresAt cached then (Cached (data cached), st)
      else if bool_decide (key ∈ poolInFlight st) then (Joined, st)
      else (Launched, mkState (poolCache st) ({[key]} ∪ poolInFlight st))
  | None =>
      if bool_decide (key ∈ poolInFlight st) then (Joined, st)
      else (Launched, mkState (poolCache st) ({[key]} ∪ poolInFlight st))
  end.

(** The outcome of [await fetchAggregatedPool(lang, opts)]. *)
Inductive Outcome : Type :=
  | Fulfilled (d : AggregatedPool)
  | Failed.

(** What the launching call does once the fetch has settled at time [now]:
    [None] when the error is rethrown to the caller. *)
Definition settle (key : string) (now : Z) (o : Outcome) (st : State)
  : option AggregatedPool * State :=
  match o with
  | Fulfilled d =>
      (Some d, mkState (<[key := mkEntry (now + CACHE_TTL_MS) d]> (poolCache st))
                       (poolInFlight st ∖ {[key]}))
  | Failed =>
      (None, mkState (poolCache st) (poolInFlight st ∖ {[key]}))
  end.

End PoolCache.

(** ** Enrichment resolver: choice among Open Library search results *)

Module OpenLibrary.

(** [OpenLibrarySearchDoc]; a field of another JSON type than the one
    declared counts as absent. *)
Record Doc : Type := mkDoc {
  title : option string;
  author_name : option (list string);
  cover_i : option Z
}.

(** [new Set(list)], in insertion order. *)
Fixpoint uniqStrings (seen : list string) (l : list string) : list string :=
  match l with
  | [] => []
  | x :: r =>
      if existsb (String.eqb x) seen then uniqStrings seen r
      else x :: uniqStrings (x :: seen) r
  end.

(** The number of distinct tokens of [want] that are tokens of [have]. *)
Definition overlap (want have : string) : Z :=
  let wantTokens := uniqStrings [] (JS.tokens want) in
  let haveTokens := uniqStrings [] (JS.tokens have) in
  Z.of_nat (length (List.filter (fun t => existsb (String.eqb t) haveTokens) wantTokens)).

Definition titleScore (haveTitle wantTitle : string) : Z :=
  if String.eqb haveTitle wantTitle then 10
  else if JS.includes haveTitle wantTitle || JS.includes wantTitle haveTitle then 6
  else Z.min 4 (overlap wantTitle haveTitle).

Definition authorScore (haveAuthor wantAuthor : string) : Z :=
  if JS.includes haveAuthor wantAuthor || JS.includes wantAuthor haveAuthor then 5
  else Z.min 3 (overlap wantAuthor haveAuthor).

(** [!!coverId]: a number other than 0. *)
Definition hasCoverId (d : Doc) : bool :=
  match cover_i d with Some n => negb (n =? 0) | None => false end.

Definition hasAuthor (d : Doc) : bool :=
  match author_name d with Some (_ :: _) => true | _ => false end.

Definition docTitle (d : Doc) : string := JS.orElse (title d) EmptyString.

Definition docAuthors (d : Doc) : string :=
  match author_name d with Some l => String.concat " " l | None => EmptyString end.

Record Opts : Type := mkOpts { requireCover : bool; requireAuthor : bool }.

Record Best : Type := mkBest { doc : Doc; score : Z; bonus : Z }.

Section Pick.
Variable wantTitle wantAuthor : string.
Variable authorKnown : bool.
Variable opts : Opts.

(** Is the document looked at all? *)
Definition eligible (d : Doc) : bool :=
  negb (JS.isEmpty (docTitle d) || (negb (hasCoverId d) && negb (hasAuthor d)))
  && negb (requireCover opts && negb (hasCoverId d))
  && negb (requireAuthor opts && negb (hasAuthor d)).

Definition scoreOf (d : Doc) : Z :=
  let haveTitle := normalizeForLookup (docTitle d) in
  let haveAuthor := normalizeForLookup (docAuthors d) in
  titleScore haveTitle wantTitle +
  (if authorKnown then authorScore haveAuthor wantAuthor else 0).

Definition bonusOf (d : Doc) : Z :=
  (if hasCoverId d then 1 else 0) + (if hasAuthor d then 1 else 0).

(** One turn of [for (const d of docs)]. *)
Definition consider (best : option Best) (d : Doc) : option Best :=
  if negb (eligible d) then best
  else
    let s := scoreOf d in
    let b := bonusOf d in
    match best with
    | None => Some (mkBest d s b)
    | Some cur =>
        if (s >? score cur) || ((s =? score cur) && (b >? bonus cur))
        then Some (mkBest d s b)
        else best
    end.
End Pick.

(** [authorKnown ? 8 : titleTokens.length <= 3 ? 10 : 8] *)
Definition threshold (authorKnown : bool) (titleTokens : nat) : Z :=
  if authorKnown then 8 else if (titleTokens <=? 3)%nat then 10 else 8.

Definition wantAuthorOf (author : option string) : string :=
  normalizeForLookup (JS.orElse author EmptyString).

Definition authorKnownOf (author : option string) : bool :=
  let wantAuthor := wantAuthorOf author in
  negb (JS.isEmpty wantAuthor) && negb (String.eqb wantAuthor "unknown").

(** The value of [best] when the loop over [docs] ends. *)
Definition bestOf (docs : list Doc) (title : string) (author : option string)
           (opts : Opts) : option Best :=
  fold_left (consider (normalizeForLookup title) (wantAuthorOf author) (authorKnownOf author) opts)
            docs None.

Definition pickBestOlDoc (docs : list Doc) (title : string) (author : option string)
           (opts : Opts) : option Doc :=
  let wantTitle := normalizeForLookup title in
  let authorKnown := authorKnownOf author in
  let titleTokens := JS.tokens wantTitle in
  match bestOf docs title author opts with
  | None => None
  | Some b => if score b <? threshold authorKnown (length titleTokens) then None else Some (doc b)
  end.

End OpenLibrary.

(** ** Partial ingest: merge of imported rows against persisted rows
    ([postEbookCatalogImport], from "Only upsert" to the call of
    [upsertCatalogItems]). *)

Module CatalogImport.

(** A persisted row as the import reads it back: every column but the key
    may be [null]. *)
Record Existing : Type := mkExisting {
  id : string;
  lang_code : option string;
  title : option string;
  author : option string;
  category : option string;
  cover_url : option string;
  download_url : option string;
  source : option string;
  source_id : option string;
  source_popularity : option Z;
  author_norm : option string;
  title_norm : option string
}.

Definition isProbablyGenericGutenbergCover (url : option string) : bool :=
  let u := JS.toLowerCase (JS.orElse url EmptyString) in
  if JS.isEmpty u then false
  else JS.includes u "gutenberg.org" && JS.includes u "/cache/epub/" && JS.includes u "cover".

Definition existingCoverOf (e : Existing) : string :=
  JS.trim (JS.orElse (cover_url e) EmptyString).

Definition incomingCoverOf (row : Row.t) : string :=
  JS.trim (JS.orElse (Row.cover_url row) EmptyString).

Definition existingDlOf (e : Existing) : string :=
  JS.trim (JS.orElse (download_url e) EmptyString).

Definition canUpgradeCover (e : Existing) (row : Row.t) : bool :=
  negb (JS.isEmpty (incomingCoverOf row)) &&
  (JS.isEmpty (existingCoverOf e) || isProbablyGenericGutenbergCover (Some (existingCoverOf e))).

Definition canBackfillDownloadUrl (e : Existing) (row : Row.t) : bool :=
  JS.isEmpty (existingDlOf e) && negb (JS.isEmpty (Row.download_url row)).

(** The row written for an incoming row whose id is already stored, [None]
    when the loop [continue]s without writing. *)
Definition mergeExisting (lang nowIso importSource : string) (e : Existing) (row : Row.t)
  : option Row.t :=
  let existingCover := existingCoverOf e in
  let incomingCover := incomingCoverOf row in
  let upgrade := canUpgradeCover e row in
  let existingDl := existingDlOf e in
  let backfill := canBackfillDownloadUrl e row in
  if negb upgrade && negb backfill then None
  else
    let mergedTitle := JS.orElse (title e) (Row.title row) in
    let mergedAuthor := JS.orElse (author e) (Row.author row) in
    Some
      {| Row.id := id e;
         Row.lang_code := JS.orElse (lang_code e) lang;
         Row.title := mergedTitle;
         Row.author := mergedAuthor;
         Row.category :=
           JS.orElse (category e) (JS.orElse (Some (Row.category row)) "Fiction");
         Row.cover_url :=
           if upgrade then Some incomingCover
           else if JS.isEmpty existingCover then None else Some existingCover;
         Row.download_url :=
           if JS.isEmpty existingDl then Row.download_url row else existingDl;
         Row.source := if backfill then importSource else JS.orElse (source e) importSource;
         Row.source_id :=
           if backfill
           then (if JS.truthy (Row.source_id row) then Row.source_id row else None)
           else source_id e;
         Row.source_popularity :=
           match source_popularity e with
           | Some p => Some p
           | None => Row.source_popularity row
           end;
         Row.author_norm := JS.orElse (author_norm e) (normalizeForCatalogNorm mergedAuthor);
         Row.title_norm := JS.orElse (title_norm e) (normalizeForCatalogNorm mergedTitle);
         Row.updated_at := nowIso;
         Row.last_seen_at := nowIso |}.

(** [toUpsert], [inserted] and [updated]. *)
Record Plan : Type := mkPlan {
  toUpsert : list Row.t;
  inserted : nat;
  updated : nat
}.

Section Loop.
Variable lang nowIso importSource : string.
(** The persisted table, by id. *)
Variable db : gmap string Existing.

(** [fetchExistingByIds]: the stored rows whose id is among [ids]. *)
Definition fetchExistingByIds (ids : list string) : gmap string Existing :=
  filter (fun kv => kv.1 ∈ ids) db.

(** One turn of [for (const row of batch)]. *)
Definition importStep (existingById : gmap string Existing) (plan : Plan) (row : Row.t) : Plan :=
  match existingById !! Row.id row with
  | None => mkPlan (toUpsert plan ++ [row]) (S (inserted plan)) (updated plan)
  | Some e =>
      match mergeExisting lang nowIso importSource e row with
      | None => plan
      | Some merged => mkPlan (toUpsert plan ++ [merged]) (inserted plan) (S (updated plan))
      end
  end.

Definition importBatch (plan : Plan) (batch : list Row.t) : Plan :=
  let ids := map Row.id batch in
  let existingById := fetchExistingByIds ids in
  fold_left (importStep existingById) batch plan.

Definition importPlan (incoming : list Row.t) : Plan :=
  fold_left importBatch (chunksOf (length incoming) 200 incoming) (mkPlan [] 0 0).
End Loop.

End CatalogImport.

(** ** Query service *)

Module Query.

(** [s.split(/[-_]/)[0]] *)
Fixpoint primaryTag (s : string) : string :=
  match s with
  | EmptyString => EmptyString
  | String c r =>
      if Ascii.eqb c "-" || Ascii.eqb c "_" then EmptyString else String c (primaryTag r)
  end.

Definition normalizeLang (input : option string) : option string :=
  match input with
  | None => None
  | Some s =>
      let trimmed := JS.toLowerCase (JS.trim s) in
      if JS.isEmpty trimmed then None
      else
        let primary := primaryTag trimmed in
        if JS.isEmpty primary then None else Some primary
  end.

(** [a ?? b] *)
Definition nullish {A : Type} (a b : option A) : option A :=
  match a with Some _ => a | None => b end.

(** The parts of the request that the handlers read: the user's
    [translationLanguage] setting and the query-string parameters (a
    parameter that is not a single string counts as absent). *)
Record Request : Type := mkRequest {
  userLanguage : option string;
  q_lang : option string;
  q_category : option string;
  q_author : option string;
  q_q : option string;
  q_query : option string;
  q_cursor : option string;
  q_offset : option string;
  q_pageSize : option string;
  q_limit : option string;
  q_allowEmpty : option string
}.

Definition langOf (req : Request) : string :=
  match nullish (normalizeLang (q_lang req)) (normalizeLang (userLanguage req)) with
  | Some l => l
  | None => "en"
  end.

Definition cursorOf (req : Request) : Z :=
  clampInt (nullish (q_cursor req) (q_offset req)) 0 9999999 0.

Definition limitOf (req : Request) (min max fallback : Z) : Z :=
  clampInt (nullish (q_pageSize req) (q_limit req)) min max fallback.

(** [categoryRaw], [authorRaw] and [qRaw] *)
Definition categoryOf (req : Request) : string :=
  JS.trim (JS.orElse (q_category req) EmptyString).

Definition authorOf (req : Request) : string :=
  JS.trim (JS.orElse (q_author req) EmptyString).

Definition queryOf (req : Request) : string :=
  match q_q req with
  | Some s => JS.trim s
  | None => match q_query req with Some s => JS.trim s | None => EmptyString end
  end.

Definition allowEmptyOf (req : Request) : bool :=
  let v := JS.toLowerCase (JS.orElse (q_allowEmpty req) EmptyString) in
  String.eqb v "1" || String.eqb v "true".

(** *** The datastore, at its interface *)

Inductive DbResult (A : Type) : Type :=
  | DbOk (data : A)
  | DbError (message : string).
Arguments DbOk {A} data.
Arguments DbError {A} message.

(** A row of a counts table: the name column (category or author) and the
    count, each [None] when it does not have the expected JSON type. *)
Record CountRow : Type := mkCountRow {
  name : option string;
  count : option Z
}.

(** Each query gives the rows that match, in the order asked for;
    [.range(from, to)] then selects a window of them. *)
Record Datastore : Type := mkDatastore {
  categoryCounts : string -> DbResult (list CountRow);
  categoryCount : string -> string -> DbResult (option CountRow);
  categoryItems : string -> string -> DbResult (list Row.t);
  authorCount : string -> string -> DbResult (option CountRow);
  authorItems : string -> string -> DbResult (list Row.t);
  searchItems : string -> string -> DbResult (list Row.t)
}.

(** [.range(from, to)]: the rows at positions [from] to [to], both included. *)
Definition range {A : Type} (from to : Z) (rows : list A) : list A :=
  firstn (Z.to_nat (to - from + 1)) (skipn (Z.to_nat from) rows).

Definition ranged {A : Type} (from to : Z) (r : DbResult (list A)) : DbResult (list A) :=
  match r with
  | DbOk rows => DbOk (range from to rows)
  | DbError m => DbError m
  end.

(** *** Responses *)

Record Page (Item : Type) : Type := mkPage {
  lang : string;
  label : string;               (* [category], [author] or [query] *)
  generatedAt : string;
  total : option Z;             (* the category listing reports none *)
  cursor : Z;
  limit : Z;
  nextCursor : option Z;
  items : list Item
}.
Arguments mkPage {Item}.
Arguments lang {Item}.
Arguments label {Item}.
Arguments generatedAt {Item}.
Arguments total {Item}.
Arguments cursor {Item}.
Arguments limit {Item}.
Arguments nextCursor {Item}.
Arguments items {Item}.

Inductive HttpResult (Item : Type) : Type :=
  | Json (page : Page Item)
  | Status (code : Z) (message : string).
Arguments Json {Item} page.
Arguments Status {Item} code message.

Definition serverError {Item : Type} : HttpResult Item := Status 500 "Server error".

(** *** Rows to API items *)

Definition isGutenbergRow (r : Row.t) : bool :=
  String.eqb (Row.source r) "gutendex" ||
  JS.startsWith "gutenberg:" (JS.orElse (Row.source_id r) EmptyString).

Definition toApiFromRow (lang fallbackCategory : string) (r : Row.t) : ApiEbook.t :=
  {| ApiEbook.id := Row.id r;
     ApiEbook.title := normalizeMainTitle (Row.title r);
     ApiEbook.author := Row.author r;
     ApiEbook.language := JS.orElse (Some (Row.lang_code r)) lang;
     ApiEbook.category := JS.orElse (Some (Row.category r)) fallbackCategory;
     ApiEbook.coverUrl := Row.cover_url r;
     ApiEbook.downloadUrl := Some (Row.download_url r);
     ApiEbook._source := None;
     ApiEbook._popularity := None |}.

Section Handlers.
Variable ds : Datastore.
(** The [title] of [getBetterOlMatch(lang, b.title, b.author)], as the
    enrichment cache or Open Library gives it. *)
Variable olTitle : string -> string -> string -> option string.
(** [new Date().toISOString()] *)
Variable nowIso : string.

(** [enrichGutenbergTitlesWithOpenLibrary] as seen on the page: of the
    rows that come from Gutenberg, the first [budget] get the canonical
    title when there is one (row ids, a primary key, are distinct). *)
Fixpoint enrichTitles (lang fallbackCategory : string) (budget : nat) (rows : list Row.t)
  : list ApiEbook.t :=
  match rows with
  | [] => []
  | r :: rest =>
      let b := toApiFromRow lang fallbackCategory r in
      if isGutenbergRow r then
        match budget with
        | O => b :: enrichTitles lang fallbackCategory O rest
        | S budget' =>
            let b' :=
              match olTitle lang (ApiEbook.title b) (ApiEbook.author b) with
              | Some t =>
                  if JS.isEmpty t then b
                  else ApiEbook.mk (ApiEbook.id b) t (ApiEbook.author b) (ApiEbook.language b)
                         (ApiEbook.category b) (ApiEbook.coverUrl b) (ApiEbook.downloadUrl b)
                         (ApiEbook._source b) (ApiEbook._popularity b)
              | None => b
              end in
            b' :: enrichTitles lang fallbackCategory budget' rest
        end
      else b :: enrichTitles lang fallbackCategory budget rest
  end.

Definition MAX_ENRICH : nat := 80.

Definition totalOf (c : option CountRow) : Z :=
  match c with
  | Some row => match count row with Some n => Z.max 0 n | None => 0 end
  | None => 0
  end.

Definition nameOf (c : option CountRow) (fallback : string) : string :=
  match c with
  | Some row => match name row with Some s => JS.trim s | None => fallback end
  | None => fallback
  end.

(** An item of the category listing. *)
Record CategoryItem : Type := mkCategoryItem { ci_category : string; ci_count : Z }.

Definition categoryItemOf (r : CountRow) : list CategoryItem :=
  match name r, count r with
  | Some c, Some n =>
      if JS.isEmpty (JS.trim c) then [] else [mkCategoryItem (JS.trim c) (Z.max 0 n)]
  | _, _ => []
  end.

Definition getEbooksCategories (req : Request) : HttpResult CategoryItem :=
  let lang := langOf req in
  let cursor := cursorOf req in
  let limit := limitOf req 10 200 60 in
  match ranged cursor (cursor + limit - 1) (categoryCounts ds lang) with
  | DbError _ => serverError
  | DbOk rows =>
      let items := flat_map categoryItemOf rows in
      let n := Z.of_nat (length rows) in
      let nextCursor := if n >=? limit then Some (cursor + n) else None in
      Json (mkPage lang EmptyString nowIso None cursor limit nextCursor items)
  end.

Definition getEbooksCategory (req : Request) : HttpResult ApiEbook.t :=
  let lang := langOf req in
  let categoryRaw := categoryOf req in
  if JS.isEmpty categoryRaw then Status 400 "Missing category"
  else
    let cursor := cursorOf req in
    let limit := limitOf req 10 100 40 in
    let allowEmpty := allowEmptyOf req in
    match categoryCount ds lang categoryRaw with
    | DbError _ => serverError
    | DbOk countRow =>
        let total := totalOf countRow in
        let category := nameOf countRow categoryRaw in
        match ranged cursor (cursor + limit - 1) (categoryItems ds lang category) with
        | DbError _ => serverError
        | DbOk rows =>
            match rows with
            | [] =>
                if allowEmpty
                then Json (mkPage lang category nowIso (Some 0) cursor limit None [])
                else Status 404 "Category not found"
            | _ =>
                let slice := enrichTitles lang categoryRaw MAX_ENRICH rows in
                let n := Z.of_nat (length slice) in
                let nextCursor :=
                  if (total >? 0) && (cursor + n <? total) then Some (cursor + n) else None in
                Json (mkPage lang category nowIso
                        (Some (if total >? 0 then total else cursor + n))
                        cursor limit nextCursor slice)
            end
        end
    end.

(** [normalizeSearchKey]: [\p{L}] and [\p{N}] are the letters and digits. *)
Fixpoint keepSearchFrom (inRun : bool) (s : string) : string :=
  match s with
  | EmptyString => EmptyString
  | String c r =>
      if JS.isLetter c || JS.isDigit c || Ascii.eqb c " "
      then String c (keepSearchFrom false r)
      else (if inRun then keepSearchFrom true r else String " " (keepSearchFrom true r))
  end.

Definition normalizeSearchKey (value : string) : string :=
  JS.trim (JS.collapseSpaces (keepSearchFrom false (normalizeForCatalogNorm value))).

(** The [ilike] pattern of the search. *)
Definition patternOf (want : string) : string := "%" ++ want ++ "%".

Definition getEbooksSearch (req : Request) : HttpResult ApiEbook.t :=
  let lang := langOf req in
  let qRaw := queryOf req in
  if JS.isEmpty qRaw || (String.length qRaw <? 2)%nat then Status 400 "Missing query"
  else
    let cursor := cursorOf req in
    let limit := limitOf req 10 100 40 in
    let want := normalizeSearchKey qRaw in
    if JS.isEmpty want
    then Json (mkPage lang qRaw nowIso (Some 0) cursor limit None [])
    else
      let pattern := patternOf want in
      match searchItems ds lang pattern with
      | DbError m =>
          if JS.includes m "ebook_catalog_" || JS.includes m "relation" || JS.includes m "does not exist"
          then Status 500 "Ebook catalog is not initialized. Run sql/ebooks_catalog.sql in Supabase first."
          else serverError
      | DbOk matching =>
          (* [count: 'exact'] reports the number of matching rows *)
          let total := Z.max 0 (Z.of_nat (length matching)) in
          let slice := enrichTitles lang "Fiction" MAX_ENRICH (range cursor (cursor + limit - 1) matching) in
          let n := Z.of_nat (length slice) in
          let nextCursor :=
            if (total >? 0) && (cursor + n <? total) then Some (cursor + n)
            else if n >=? limit then Some (cursor + n)
            else None in
          Json (mkPage lang qRaw nowIso
                  (Some (if total >? 0 then total else cursor + n))
                  cursor limit nextCursor slice)
      end.

(** [normalizeAuthorKey]; the replacement of U+2019 by an apostrophe
    leaves an ASCII string as it is. *)
Definition normalizeAuthorKey (value : string) : string :=
  JS.toLowerCase (JS.trim (JS.collapseSpaces value)).

Definition getEbooksAuthor (req : Request) : HttpResult ApiEbook.t :=
  let lang := langOf req in
  let authorRaw := authorOf req in
  if JS.isEmpty authorRaw then Status 400 "Missing author"
  else
    let cursor := cursorOf req in
    let limit := limitOf req 10 100 40 in
    let want := normalizeAuthorKey authorRaw in
    let wantNorm := normalizeForCatalogNorm want in
    match authorCount ds lang wantNorm with
    | DbError _ => serverError
    | DbOk countRow =>
        let total := totalOf countRow in
        let resolvedName := nameOf countRow authorRaw in
        match ranged cursor (cursor + limit - 1) (authorItems ds lang wantNorm) with
        | DbError _ => serverError
        | DbOk rows =>
            match rows with
            | [] => Status 404 "Author not found"
            | _ =>
                let slice := enrichTitles lang "Fiction" MAX_ENRICH rows in
                let n := Z.of_nat (length slice) in
                let nextCursor :=
                  if (total >? 0) && (cursor + n <? total) then Some (cursor + n) else None in
                Json (mkPage lang resolvedName nowIso
                        (Some (if total >? 0 then total else cursor + n))
                        cursor limit nextCursor slice)
            end
        end
    end.
End Handlers.

End Query.

(** ** Notions used to state the properties *)

(** What the loop over [all] maintains: no key twice, and every record of the
    map passes the guard and sits under its own catalog id. *)
Definition dedupedOk (lang : string) (m : list (string * ApiEbook.t)) : Prop :=
  NoDup (mapKeys m) /\
  forall k b, In (k, b) m -> syncKeeps b = true /\ candidateId lang b = k.

(** The normalization key of a row. *)
Definition rowKey (r : Row.t) : string * string * string :=
  (Row.lang_code r, Row.title_norm r, Row.author_norm r).

(** What the merge rule looks at: presence of a cover, popularity, rank of
    the source. *)
Definition quality (b : ApiEbook.t) : bool * Z * Z :=
  (hasCover b, popularityOf b, rankOf b).

(** The cover test as a number. *)
Definition coverZ (b : ApiEbook.t) : Z := if hasCover b then 1 else 0.

(** [b], met after [a], takes the place of [a]. *)
Definition beats (b a : ApiEbook.t) : bool :=
  if negb (Bool.eqb (hasCover a) (hasCover b)) then hasCover b
  else if negb (popularityOf a =? popularityOf b) then popularityOf b >? popularityOf a
  else if negb (rankOf a =? rankOf b) then rankOf b <? rankOf a
  else false.

(** The record left by folding [l] into [x] with the merge rule. *)
Definition winner (l : list ApiEbook.t) (x : ApiEbook.t) : ApiEbook.t :=
  fold_left pickBetterCandidate l x.

(** The candidates of [all] that the sync loop files under the id [k]. *)
Definition group (lang k : string) (all : list ApiEbook.t) : list ApiEbook.t :=
  List.filter (fun b => syncKeeps b && String.eqb (candidateId lang b) k) all.


(** ** Sample data *)

(** Sample candidates: two editions reported by one source with the same
    download count and no cover, under titles that differ in spacing only. *)
Definition editionA : ApiEbook.t :=
  ApiEbook.mk "gutenberg:11" "Alice in Wonderland" "Lewis Carroll" "en" "Fiction"
              None (Some "https://example.org/11.epub") (Some gutendex) (Some 7).
Definition editionB : ApiEbook.t :=
  ApiEbook.mk "gutenberg:12" "Alice in  Wonderland" "Lewis Carroll" "en" "Fiction"
              None (Some "https://example.org/12.epub") (Some gutendex) (Some 7).







(** What the loop of [pickBestOlDoc] maintains over the documents [seen]:
    [best] is an eligible document of [seen], recorded with its own score and
    bonus, and no eligible document of [seen] scores higher. *)
Definition bestInv (wantTitle wantAuthor : string) (authorKnown : bool) (opts : OpenLibrary.Opts)
           (seen : list OpenLibrary.Doc) (best : option OpenLibrary.Best) : Prop :=
  match best with
  | None => forall d, In d seen -> OpenLibrary.eligible opts d = false
  | Some b =>
      In (OpenLibrary.doc b) seen
      /\ OpenLibrary.eligible opts (OpenLibrary.doc b) = true
      /\ OpenLibrary.score b
         = OpenLibrary.scoreOf wantTitle wantAuthor authorKnown (OpenLibrary.doc b)
      /\ forall d, In d seen -> OpenLibrary.eligible opts d = true ->
                   OpenLibrary.scoreOf wantTitle wantAuthor authorKnown d <= OpenLibrary.score b
  end.

(** Search results for a four-word title: one with the very title, one with
    a longer title that contains it. *)
Definition docExact : OpenLibrary.Doc :=
  OpenLibrary.mkDoc (Some "A Tale of Two Cities") (Some ["Charles Dickens"]) (Some 42).
Definition docLonger : OpenLibrary.Doc :=
  OpenLibrary.mkDoc (Some "A Tale of Two Cities and Other Stories") (Some ["Charles Dickens"]) (Some 43).

(** A catalog of ten rows, a datastore that answers every item query with
    them (and knows the count 10), and a search request for pages of ten. *)
Definition sampleRow (n : string) : Row.t :=
  Row.mk ("en::book " ++ n ++ "::some author") "en" ("Book " ++ n) "Some Author" "Fiction"
         None ("https://example.org/" ++ n ++ ".epub") "standardebooks" None None
         "some author" ("book " ++ n) "2024-01-01T00:00:00.000Z" "2024-01-01T00:00:00.000Z".

Definition tenRows : list Row.t :=
  map sampleRow ["0"; "1"; "2"; "3"; "4"; "5"; "6"; "7"; "8"; "9"].

Definition tenRowStore : Query.Datastore :=
  Query.mkDatastore
    (fun _ => Query.DbOk [Query.mkCountRow (Some "Fiction") (Some 10)])
    (fun _ _ => Query.DbOk (Some (Query.mkCountRow (Some "Fiction") (Some 10))))
    (fun _ _ => Query.DbOk tenRows)
    (fun _ _ => Query.DbOk (Some (Query.mkCountRow (Some "Some Author") (Some 10))))
    (fun _ _ => Query.DbOk tenRows)
    (fun _ _ => Query.DbOk tenRows).

Definition noCanonicalTitle : string -> string -> string -> option string :=
  fun _ _ _ => None.

(** [?lang=en&category=Fiction&author=Some Author&q=book&cursor=<c>&limit=10] *)
Definition sampleRequest (c : string) : Query.Request :=
  Query.mkRequest None (Some "en") (Some "Fiction") (Some "Some Author") (Some "book") None
                  (Some c) None None (Some "10") None.

(** The single-flight caches of a fresh process. *)
Definition freshOl : OlCache.State := OlCache.mkState ∅ ∅.
Definition freshPool : PoolCache.State := PoolCache.mkState ∅ ∅.





(** * Further parts of the controller *)

(** ** Strings over an alphabet *)

(** Every character of [s] satisfies [p]. *)
Fixpoint allChars (p : ascii -> bool) (s : string) : bool :=
  match s with
  | EmptyString => true
  | String c r => p c && allChars p r
  end.

(** The characters that [normalizeForLookup] lets through. *)
Definition lookupChar (c : ascii) : bool := JS.isLower c || JS.isDigit c || Ascii.eqb c " ".

(** The characters that [normalizeSearchKey] lets through. *)
Definition searchChar (c : ascii) : bool := JS.isLetter c || JS.isDigit c || Ascii.eqb c " ".

Definition notColon (c : ascii) : bool := negb (Ascii.eqb c ":").

Definition notTagSeparator (c : ascii) : bool := negb (Ascii.eqb c "-" || Ascii.eqb c "_").


(** ** Sample cache contents *)

Definition samplePool : PoolCache.AggregatedPool :=
  PoolCache.mkPool "2024-05-01T10:00:00.000Z" [].

Definition sampleMatch : OlCache.Match :=
  OlCache.mkMatch (Some "https://covers.openlibrary.org/b/id/42-L.jpg") (Some "Frank Herbert")
                  (Some EmptyString).

(** ** Rows fit for the catalog *)

(** What every row of the catalog is expected to satisfy: trimmed, non-empty
    title and author, an author that is not the placeholder, a download
    link, a category, no empty cover link and no negative popularity. *)
Definition rowWellFormed (r : Row.t) : Prop :=
  Row.title r <> EmptyString /\ JS.trim (Row.title r) = Row.title r
  /\ Row.author r <> EmptyString /\ JS.trim (Row.author r) = Row.author r
  /\ JS.toLowerCase (Row.author r) <> "unknown"
  /\ Row.download_url r <> EmptyString
  /\ Row.category r <> EmptyString
  /\ Row.cover_url r <> Some EmptyString
  /\ (forall p, Row.source_popularity r = Some p -> 0 <= p).

(** ** Interleaving the sources *)

(** [dedupeKey] *)
Definition dedupeKey (b : ApiEbook.t) : string :=
  (ApiEbook.language b ++ "::" ++ JS.toLowerCase (ApiEbook.title b) ++ "::"
   ++ JS.toLowerCase (ApiEbook.author b))%string.

Module Interleave.

(** [seen.has(key)], [seen] being a [Set] kept in insertion order. *)
Definition has (seen : list string) (key : string) : bool := existsb (String.eqb key) seen.

(** The inner [while (idx[i] < list.length)]: [items] is the part of
    [lists[i]] from [idx[i]] on; the book that is pushed, if any, and the
    part of the list that is left. *)
Fixpoint takeNext (lang : string) (seen : list string) (items : list ApiEbook.t)
  : option ApiEbook.t * list ApiEbook.t :=
  match items with
  | [] => (None, [])
  | b :: rest =>
      if negb (String.eqb (ApiEbook.language b) lang) then takeNext lang seen rest
      else if has seen (dedupeKey b) then takeNext lang seen rest
      else (Some b, rest)
  end.

Record State : Type := mkState {
  out : list ApiEbook.t;
  seen : list string;
  progressed : bool
}.

(** [for (let i = 0; i < lists.length && out.length < pool; i++)], over the
    lists from [i] on; the lists come back without the books consumed. *)
Fixpoint pass (lang : string) (pool : Z) (lists : list (list ApiEbook.t)) (st : State)
  : list (list ApiEbook.t) * State :=
  match lists with
  | [] => ([], st)
  | items :: others =>
      if Z.of_nat (length (out st)) <? pool then
        match takeNext lang (seen st) items with
        | (Some b, rest) =>
            let '(others', st') :=
              pass lang pool others (mkState (out st ++ [b]) (seen st ++ [dedupeKey b]) true) in
            (rest :: others', st')
        | (None, rest) =>
            let '(others', st') := pass lang pool others st in
            (rest :: others', st')
        end
      else (lists, st)
  end.

(** [while (out.length < pool)]; [fuel] bounds the number of rounds. *)
Fixpoint rounds (fuel : nat) (lang : string) (pool : Z) (lists : list (list ApiEbook.t))
         (out0 : list ApiEbook.t) (seen0 : list string) : list ApiEbook.t :=
  match fuel with
  | O => out0
  | S fuel' =>
      if Z.of_nat (length out0) <? pool then
        let '(lists', st) := pass lang pool lists (mkState out0 seen0 false) in
        if negb (progressed st) then out st
        else rounds fuel' lang pool lists' (out st) (seen st)
      else out0
  end.

(** [mergeInterleaved]: a round that goes on pushes a book, so [pool] rounds
    are enough. *)
Definition mergeInterleaved (lang : string) (lists : list (list ApiEbook.t)) (pool : Z)
  : list ApiEbook.t :=
  rounds (Z.to_nat pool) lang pool lists [] [].

End Interleave.

(** What the loops of [mergeInterleaved] keep true: [orig] are the lists
    given, [rest] what is left of them, [out] and [seen] the books pushed
    and their keys. *)
Definition interleaved (lang : string) (pool : Z) (orig rest : list (list ApiEbook.t))
           (out : list ApiEbook.t) (seen : list string) : Prop :=
  seen = map dedupeKey out
  /\ NoDup seen
  /\ Forall (fun b => ApiEbook.language b = lang) out
  /\ (forall b, In b out -> In b (concat orig))
  /\ (forall b, In b (concat rest) -> In b (concat orig))
  /\ (forall b, In b (concat orig) -> ApiEbook.language b = lang ->
                In (dedupeKey b) seen \/ In b (concat rest))
  /\ Z.of_nat (length out) <= Z.max 0 pool.

(** ** The response of the aggregated endpoint *)

Module Response.

(** [(b.category || 'Fiction').trim() || 'Fiction'] *)
Definition categoryOfBook (b : ApiEbook.t) : string :=
  let c := JS.trim (JS.orElse (Some (ApiEbook.category b)) "Fiction") in
  if JS.isEmpty c then "Fiction" else c.

(** The names that every object inherits from [Object.prototype]: for such a
    name [by[cat]] is truthy on the empty object [{}] although the object has
    no property of that name. *)
Definition objectPrototypeKeys : list string :=
  [ "constructor"; "hasOwnProperty"; "isPrototypeOf"; "propertyIsEnumerable";
    "toLocaleString"; "toString"; "valueOf"; "__proto__";
    "__defineGetter__"; "__defineSetter__"; "__lookupGetter__"; "__lookupSetter__" ].

Definition inherited (key : string) : bool := existsb (String.eqb key) objectPrototypeKeys.

(** One turn of the loop of [groupByCategory]; [None] when [push] is called
    on an inherited member, which raises a [TypeError]. *)
Definition groupStep (by_ : option (list (string * list ApiEbook.t))) (b : ApiEbook.t)
  : option (list (string * list ApiEbook.t)) :=
  match by_ with
  | None => None
  | Some m =>
      let cat := categoryOfBook b in
      match mapGet cat m with
      | Some l => Some (mapSet cat (l ++ [b]) m)
      | None => if inherited cat then None else Some (mapSet cat [b] m)
      end
  end.

(** [groupByCategory]: the own properties of [by], looked up by name. *)
Definition groupByCategory (books : list ApiEbook.t) : option (list (string * list ApiEbook.t)) :=
  fold_left groupStep books (Some []).

(** [stripInternalFields] *)
Definition stripInternalFields (b : ApiEbook.t) : ApiEbook.t :=
  let author := JS.trim (ApiEbook.author b) in
  let rawTitle := JS.trim (ApiEbook.title b) in
  let title := normalizeMainTitle rawTitle in
  ApiEbook.mk (ApiEbook.id b) title
    (if negb (JS.isEmpty author) && negb (String.eqb (JS.toLowerCase author) "unknown")
     then ApiEbook.author b else EmptyString)
    (ApiEbook.language b) (ApiEbook.category b) (ApiEbook.coverUrl b) (ApiEbook.downloadUrl b)
    None None.

(** [list.slice(0, n)] for an integer [n]: a negative [n] counts from the
    end. *)
Definition sliceTo {A : Type} (n : Z) (l : list A) : list A :=
  if 0 <=? n then firstn (Z.to_nat n) l
  else firstn (length l - Z.to_nat (- n)) l.

(** [const filtered = merged.filter(hasResolvedAuthor)] *)
Definition filtered (merged : list ApiEbook.t) : list ApiEbook.t :=
  List.filter hasResolvedAuthor merged.

(** The field [trending] of [buildResponse]. *)
Definition trending (merged : list ApiEbook.t) (trendingLimit : Z) : list ApiEbook.t :=
  map stripInternalFields (sliceTo trendingLimit (filtered merged)).

(** The entry of the field [byCategory] of [buildResponse] for a category
    [c] of [categories]; [None] when [groupByCategory] has thrown. *)
Definition shelf (merged : list ApiEbook.t) (perCategory : Z) (c : string)
  : option (list ApiEbook.t) :=
  match groupByCategory (filtered merged) with
  | None => None
  | Some by_ =>
      let items := match mapGet c by_ with Some l => l | None => [] end in
      Some (map stripInternalFields (sliceTo perCategory items))
  end.

End Response.

(** The books of one category, in the order of the list. *)
Definition booksOfCategory (cat : string) (books : list ApiEbook.t) : list ApiEbook.t :=
  List.filter (fun b => String.eqb (Response.categoryOfBook b) cat) books.

(** What [by] holds once the books [seen] have been filed. *)
Definition grouped (seen : list ApiEbook.t) (m : list (string * list ApiEbook.t)) : Prop :=
  NoDup (mapKeys m)
  /\ forall cat, mapGet cat m = match booksOfCategory cat seen with
                                | [] => None
                                | l => Some l
                                end.

(** What the client may see of a book: no internal field, a resolved author
    and a main title. *)
Definition presentable (b : ApiEbook.t) : Prop :=
  ApiEbook._source b = None /\ ApiEbook._popularity b = None
  /\ hasResolvedAuthor b = true
  /\ JS.includes (ApiEbook.title b) ":" = false.

(** ** The Gutendex source *)

From Stdlib Require DecimalString DecimalPos.

(** [CATEGORY_ORDER] *)
Definition CATEGORY_ORDER : list string :=
  [ "Travel"; "Adventure"; "Mystery"; "Horror"; "Fantasy"; "Science Fiction"; "Mythic";
    "Children's"; "Romance"; "Short Stories"; "Drama"; "Comedy"; "Biography"; "History";
    "Western"; "Poetry"; "Fiction"; "Nonfiction" ].

(** [keywords.some((k) => hay.includes(k))] *)
Definition hasAny (hay : string) (keywords : list string) : bool :=
  existsb (fun k => JS.includes hay k) keywords.

(** [items.join(sep)] *)
Fixpoint join (sep : string) (items : list string) : string :=
  match items with
  | [] => EmptyString
  | [x] => x
  | x :: rest => (x ++ sep ++ join sep rest)%string
  end.

Definition academicTitleWords : list string :=
  [ "thesis"; "dissertation"; "proceedings"; "transactions"; "journal"; "conference";
    "research"; "report"; "technical"; "laboratory"; "laboratories"; "handbook"; "manual";
    "treatise"; "monograph"; "lectures on"; "notes on"; "introduction to"; "textbook";
    "course"; "syllabus" ].

(** [titleLooksAcademic] *)
Definition titleLooksAcademic (title : string) : bool :=
  hasAny (JS.toLowerCase title) academicTitleWords.

Definition academicSubjectWords : list string :=
  [ "theses"; "dissertations"; "periodicals"; "journals"; "proceedings"; "transactions";
    "conference"; "research"; "statistics"; "mathematics"; "physics"; "chemistry";
    "engineering"; "medicine"; "surgery"; "anatomy"; "pathology"; "botany"; "zoology";
    "geology"; "astronomy"; "laboratory"; "textbooks" ].

(** The separator of [subjects.join]: a space, the bullet U+2022 (here the
    three bytes of its UTF-8 form; no keyword holds any of them) and a
    space. *)
Definition bulletSeparator : string :=
  String " " (String (ascii_of_nat 226) (String (ascii_of_nat 128)
    (String (ascii_of_nat 162) (String " " EmptyString)))).

(** [subjectsLookAcademic]; [normalizeApostrophes] leaves ASCII text as it
    is. *)
Definition subjectsLookAcademic (subjects : list string) : bool :=
  hasAny (JS.toLowerCase (join bulletSeparator subjects)) academicSubjectWords.

(** [guessCategory] *)
Definition guessCategory (title : string) (subjects : list string) : string :=
  let t := JS.toLowerCase title in
  let s := map JS.toLowerCase subjects in
  let hay := (t ++ " " ++ join " " s)%string in
  if hasAny hay ["children's"; "childrens"; "juvenile"; "juvenile fiction"] then "Children's"
  else if hasAny hay ["romance"; "love story"; "love stories"; "courtship"; "marriage"]
  then "Romance"
  else if hasAny hay ["mystery"; "detective"; "crime"; "whodunit"] then "Mystery"
  else if hasAny hay ["science fiction"; "sci-fi"; "space travel"; "spaceflight"]
  then "Science Fiction"
  else if hasAny hay ["fantasy"; "magic"; "wizard"; "dragons"] then "Fantasy"
  else if hasAny hay ["horror"; "ghost story"; "ghost stories"; "gothic"; "supernatural"]
  then "Horror"
  else if hasAny hay ["comedy"; "humor"; "humour"; "satire"] then "Comedy"
  else if hasAny hay ["drama"; "plays"; "tragedy"] then "Drama"
  else if hasAny hay ["western story"; "western stories"; "frontier"; "cowboy"] then "Western"
  else if hasAny hay ["short story"; "short stories"; "tales"; "stories"] then "Short Stories"
  else if hasAny hay ["myth"; "mythology"; "legend"; "legends"; "folklore"; "fairy tale";
                      "fairy tales"]
  then "Mythic"
  else if hasAny hay ["adventure"; "treasure"; "sea story"; "sea stories"; "pirate";
                      "exploration"]
  then "Adventure"
  else if hasAny hay ["travel"; "voyage"; "voyages"; "journey"; "journeys"; "tour"; "travels"]
  then "Travel"
  else if hasAny hay ["poetry"; "poems"] then "Poetry"
  else if hasAny hay ["biography"; "autobiography"; "memoir"; "memoirs"] then "Biography"
  else if hasAny hay ["history"; "historical"] then "History"
  else if hasAny hay ["nonfiction"; "essays"] then "Nonfiction"
  else "Fiction".

Module GutendexFetch.

(** [GutendexBook], as far as [fetchGutendex] reads it. *)
Record Book : Type := mkBook {
  id : Z;
  title : option string;          (* [None]: [typeof r.title !== 'string'] *)
  authors : list string;          (* the [name] of each author *)
  subjects : list string;
  bookshelves : list string;
  epub : option string;           (* [r.formats?.['application/epub+zip']] *)
  jpeg : option string;           (* [r.formats?.['image/jpeg']] *)
  download_count : option Z;      (* [None]: not a number *)
  media_type : option string
}.

(** [x || null] *)
Definition orNull (x : option string) : option string :=
  if JS.truthy x then x else None.

(** [`gutenberg:${r.id}`] *)
Definition idOf (r : Book) : string :=
  ("gutenberg:" ++ DecimalString.NilZero.string_of_int (Z.to_int (id r)))%string.

(** The body of [for (const r of results)] from the test of the title to
    the construction of [b]; [None] when the loop goes on to the next
    result. *)
Definition bookOf (lang : string) (r : Book) : option ApiEbook.t :=
  match title r with
  | None => None
  | Some rawTitle =>
      if JS.truthy (media_type r)
         && negb (String.eqb (JS.toLowerCase (JS.orElse (media_type r) EmptyString)) "text")
      then None
      else
        let title := normalizeTitle rawTitle in
        let author := normalizeAuthorName (JS.orElse (hd_error (authors r)) "Unknown") in
        let subjects :=
          OpenLibrary.uniqStrings []
            (List.filter (fun x => negb (JS.isEmpty x)) (subjects r ++ bookshelves r)) in
        if titleLooksAcademic title || subjectsLookAcademic subjects then None
        else
          let downloadUrl := orNull (epub r) in
          if negb (JS.truthy downloadUrl) then None
          else
            Some (ApiEbook.mk (idOf r) title author lang (guessCategory title subjects)
                              (orNull (jpeg r)) downloadUrl (Some gutendex) (download_count r))
  end.

(** [for (const r of results)] *)
Fixpoint takeResults (lang : string) (limit : Z) (results : list Book)
         (out : list ApiEbook.t) (seen : list string) : list ApiEbook.t * list string :=
  match results with
  | [] => (out, seen)
  | r :: rest =>
      if limit <=? Z.of_nat (length out) then (out, seen)
      else
        match bookOf lang r with
        | None => takeResults lang limit rest out seen
        | Some b =>
            if Interleave.has seen (dedupeKey b) then takeResults lang limit rest out seen
            else takeResults lang limit rest (out ++ [b]) (seen ++ [dedupeKey b])
        end
  end.

(** [Math.ceil(limit / 18)] *)
Definition ceilDiv18 (limit : Z) : Z := - ((- limit) / 18).

(** [maxPages]; [opt] is [opts.maxPages] when it is a finite number. *)
Definition maxPagesOf (opt : option Z) (limit : Z) : Z :=
  let maxPagesCap := match opt with Some n => Z.max 1 n | None => 40 end in
  Z.min maxPagesCap (Z.max 6 (ceilDiv18 limit + 2)).

(** [pageDelayMs] *)
Definition pageDelayOf (opt : option Z) : Z :=
  match opt with Some n => Z.max 0 n | None => 0 end.

(** The state of the page loop, and how it was left: [broke] after a
    [break], [page] the page that would come next. *)
Record Run : Type := mkRun {
  out : list ApiEbook.t;
  seen : list string;
  page : Z;
  trace : list Gutendex.Event;
  fetched : list Z;                (* the pages requested *)
  broke : bool
}.

Section Pages.
(** The answer of the upstream to the [n]-th request for a page, the jitter
    drawn at that attempt, and the [results] array of the body of a page
    answered with success (empty when [json.results] is no array; the body is
    taken to be JSON, [resp.json()] does not throw). *)
Variable upstream : Z -> nat -> Gutendex.Response.
Variable jitter : Z -> nat -> Z.
Variable results : Z -> list Book.
Variable lang : string.
Variable limit maxPages pageDelayMs : Z.
Variable maxRetries : nat.

(** [while (out.length < limit && page <= maxPages)]; [left] bounds the
    number of turns. *)
Fixpoint pagesFrom (left : nat) (st : Run) : Run :=
  match left with
  | O => st
  | S left' =>
      if (Z.of_nat (length (out st)) <? limit) && (page st <=? maxPages) then
        let a := Gutendex.attempts (upstream (page st)) (jitter (page st)) maxRetries in
        if negb (Gutendex.pageUsable a) then
          mkRun (out st) (seen st) (page st) (trace st ++ Gutendex.trace a)
                (fetched st ++ [page st]) true
        else
          let '(out', seen') := takeResults lang limit (results (page st)) (out st) (seen st) in
          pagesFrom left'
            (mkRun out' seen' (page st + 1)
                   (trace st ++ Gutendex.trace a
                    ++ (if 0 <? pageDelayMs then [Gutendex.sleepMs pageDelayMs] else []))
                   (fetched st ++ [page st]) false)
      else st
  end.

(** [fetchGutendex]: the pages run from 1 to [maxPages], so [maxPages]
    turns are enough. *)
Definition fetchGutendex : Run :=
  pagesFrom (Z.to_nat maxPages) (mkRun [] [] 1 [] [] false).
End Pages.

End GutendexFetch.

(** The number of requests in a trace. *)
Definition requestsIn (events : list Gutendex.Event) : nat :=
  length (List.filter (fun e => match e with Gutendex.Request => true | _ => false end) events).

(** What [fetchGutendex] keeps true of [out] and [seen]: [lang], [limit],
    [maxPages] and [results] are those of the run. *)
Definition gathered (lang : string) (limit maxPages : Z) (results : Z -> list GutendexFetch.Book)
           (out : list ApiEbook.t) (seen : list string) : Prop :=
  seen = map dedupeKey out
  /\ NoDup seen
  /\ Z.of_nat (length out) <= Z.max 0 limit
  /\ forall b, In b out ->
       exists p r, 1 <= p <= maxPages /\ In r (results p) /\ GutendexFetch.bookOf lang r = Some b.

(** ** Choice among equally scored search results *)

(** What the loop of [pickBestOlDoc] maintains besides: [best] is recorded
    with its own bonus, and an eligible document seen so far either scores
    lower or scores the same with no higher bonus. *)
Definition tieInv (wantTitle wantAuthor : string) (authorKnown : bool) (opts : OpenLibrary.Opts)
           (seen : list OpenLibrary.Doc) (best : option OpenLibrary.Best) : Prop :=
  match best with
  | None => True
  | Some b =>
      OpenLibrary.score b
      = OpenLibrary.scoreOf wantTitle wantAuthor authorKnown (OpenLibrary.doc b)
      /\ OpenLibrary.bonus b = OpenLibrary.bonusOf (OpenLibrary.doc b)
      /\ forall d, In d seen -> OpenLibrary.eligible opts d = true ->
                   OpenLibrary.scoreOf wantTitle wantAuthor authorKnown d < OpenLibrary.score b
                   \/ (OpenLibrary.scoreOf wantTitle wantAuthor authorKnown d = OpenLibrary.score b
                       /\ OpenLibrary.bonusOf d <= OpenLibrary.bonus b)
  end.

(** A search result with the wanted title and a cover, but no author. *)
Definition docBare : OpenLibrary.Doc :=
  OpenLibrary.mkDoc (Some "A Tale of Two Cities") None (Some 7).

(** ** Rows as the query service shows them *)

(** The item [b] shows the row [r]: every field is that of the row, the
    internal fields are absent, and the title is the main title of the row
    or, for a row from Gutenberg, the canonical title that the enrichment
    gives for it. *)
Definition shows (olTitle : string -> string -> string -> option string) (lang : string)
           (r : Row.t) (b : ApiEbook.t) : Prop :=
  ApiEbook.id b = Row.id r
  /\ ApiEbook.author b = Row.author r
  /\ ApiEbook.coverUrl b = Row.cover_url r
  /\ ApiEbook.downloadUrl b = Some (Row.download_url r)
  /\ ApiEbook._source b = None
  /\ ApiEbook._popularity b = None
  /\ (ApiEbook.title b = normalizeMainTitle (Row.title r)
      \/ (Query.isGutenbergRow r = true
          /\ olTitle lang (normalizeMainTitle (Row.title r)) (Row.author r)
             = Some (ApiEbook.title b)
          /\ ApiEbook.title b <> EmptyString)).

(** What every page of items tells about the request and about itself. *)
Definition pageSound (nowIso : string) (req : Query.Request) (p : Query.Page ApiEbook.t) : Prop :=
  Query.lang p = Query.langOf req
  /\ Query.cursor p = Query.cursorOf req
  /\ Query.generatedAt p = nowIso
  /\ forall c, Query.nextCursor p = Some c ->
               Query.items p <> [] /\ c = Query.cursor p + Z.of_nat (length (Query.items p)).

(** ** Partial ingest: validation of the items received
    ([postEbookCatalogImport], the loop over [slice]) *)

Module ImportValidation.

(** An item of the request body; a field that is not a string (not a number,
    for [sourcePopularity]) is [None]. *)
Record RawItem : Type := mkRaw {
  title : option string;
  author : option string;
  downloadUrl : option string;
  coverUrl : option string;
  sourceId : option string;
  category : option string;
  sourcePopularity : option Z
}.

(** What the code reads of a parsed [URL]. *)
Record Url : Type := mkUrl { protocol : string; hostname : string }.

(** [s.endsWith(suffix)] *)
Definition endsWith (s suffix : string) : bool :=
  (String.length suffix <=? String.length s)%nat
  && String.eqb (String.substring (String.length s - String.length suffix)
                                  (String.length suffix) s) suffix.

(** [isAllowedManyBooksHost] *)
Definition isAllowedManyBooksHost (hostname : string) : bool :=
  let host := JS.toLowerCase hostname in
  String.eqb host "manybooks.net" || endsWith host ".manybooks.net".

(** [normalizeCatalogCategory] *)
Definition normalizeCatalogCategory (raw : option string) : string :=
  let s := match raw with Some x => JS.trim x | None => EmptyString end in
  let cleaned := JS.trim (String.substring 0 40 (JS.collapseSpaces s)) in
  if JS.isEmpty cleaned then "Fiction" else cleaned.

(** [typeof x === 'string' ? x.trim() : ''] *)
Definition textOf (x : option string) : string :=
  match x with Some s => JS.trim s | None => EmptyString end.

Definition isHttp (u : Url) : bool :=
  String.eqb (protocol u) "http:" || String.eqb (protocol u) "https:".

(** [!!n] for a number or [null] *)
Definition truthyNumber (n : option Z) : bool :=
  match n with Some v => negb (v =? 0) | None => false end.

Inductive Verdict : Type :=
  | Rejected (reason : string)
  | Accepted (row : Row.t).

Section Validate.
(** [new URL(s)]: [None] when the constructor throws. *)
Variable parseUrl : string -> option Url.
Variable lang nowIso importSource : string.

(** The body of the loop up to the construction of [row]. *)
Definition validate (raw : RawItem) : Verdict :=
  let title := textOf (title raw) in
  let author := textOf (author raw) in
  let downloadUrl := textOf (downloadUrl raw) in
  let coverUrl := textOf (coverUrl raw) in
  let sourceId := textOf (sourceId raw) in
  let category := normalizeCatalogCategory (category raw) in
  if JS.isEmpty title || (String.length title <? 2)%nat then Rejected "missing_title"
  else if JS.isEmpty author || String.eqb (JS.toLowerCase author) "unknown"
  then Rejected "missing_author"
  else if JS.isEmpty downloadUrl then Rejected "missing_download_url"
  else
    match parseUrl downloadUrl with
    | None => Rejected "invalid_download_url"
    | Some dlParsed =>
        if negb (isHttp dlParsed) then Rejected "invalid_download_url_protocol"
        else if negb (isAllowedManyBooksHost (hostname dlParsed))
        then Rejected "download_host_not_allowed"
        else
          let coverOk :=
            if JS.isEmpty coverUrl then None
            else match parseUrl coverUrl with
                 | Some cu => if isHttp cu then Some coverUrl else None
                 | None => None
                 end in
          Accepted
            {| Row.id := toCatalogId lang title author;
               Row.lang_code := lang;
               Row.title := title;
               Row.author := author;
               Row.category := category;
               Row.cover_url := coverOk;
               Row.download_url := downloadUrl;
               Row.source := importSource;
               Row.source_id := if JS.isEmpty sourceId then None else Some sourceId;
               Row.source_popularity :=
                 match sourcePopularity raw with
                 | Some p => Some (Z.max 0 p)
                 | None => None
                 end;
               Row.author_norm := normalizeForCatalogNorm author;
               Row.title_norm := normalizeForCatalogNorm title;
               Row.updated_at := nowIso;
               Row.last_seen_at := nowIso |}
    end.

(** What the three assignments to [prev] leave of it. *)
Definition fill (prev row : Row.t) : Row.t :=
  Row.mk (Row.id prev) (Row.lang_code prev) (Row.title prev) (Row.author prev)
         (Row.category prev)
         (if negb (JS.truthy (Row.cover_url prev)) && JS.truthy (Row.cover_url row)
          then Row.cover_url row else Row.cover_url prev)
         (Row.download_url prev) (Row.source prev)
         (if negb (JS.truthy (Row.source_id prev)) && JS.truthy (Row.source_id row)
          then Row.source_id row else Row.source_id prev)
         (if negb (truthyNumber (Row.source_popularity prev))
             && truthyNumber (Row.source_popularity row)
          then Row.source_popularity row else Row.source_popularity prev)
         (Row.author_norm prev) (Row.title_norm prev) (Row.updated_at prev)
         (Row.last_seen_at prev).

(** [deduped] and [rejected] *)
Record State : Type := mkState {
  deduped : list (string * Row.t);
  rejected : list string
}.

(** One turn of [for (const raw of slice)]. *)
Definition step (st : State) (raw : RawItem) : State :=
  match validate raw with
  | Rejected reason => mkState (deduped st) (rejected st ++ [reason])
  | Accepted row =>
      match mapGet (Row.id row) (deduped st) with
      | None => mkState (mapSet (Row.id row) row (deduped st)) (rejected st)
      | Some prev => mkState (mapSet (Row.id row) (fill prev row) (deduped st)) (rejected st)
      end
  end.

Definition validateAll (slice : list RawItem) : State :=
  fold_left step slice (mkState [] []).

(** [const incoming = Array.from(deduped.values())] *)
Definition incoming (slice : list RawItem) : list Row.t :=
  mapValues (deduped (validateAll slice)).
End Validate.

End ImportValidation.

(** A row that the import may write: what the validation has checked. *)
Definition importable (parseUrl : string -> option ImportValidation.Url)
           (lang importSource : string) (r : Row.t) : Prop :=
  Row.id r = toCatalogId lang (Row.title r) (Row.author r)
  /\ Row.lang_code r = lang
  /\ Row.source r = importSource
  /\ (2 <= String.length (Row.title r))%nat
  /\ JS.trim (Row.title r) = Row.title r
  /\ Row.author r <> EmptyString
  /\ JS.toLowerCase (Row.author r) <> "unknown"
  /\ (exists u, parseUrl (Row.download_url r) = Some u
                /\ ImportValidation.isHttp u = true
                /\ ImportValidation.isAllowedManyBooksHost (ImportValidation.hostname u) = true)
  /\ (forall c, Row.cover_url r = Some c ->
                c <> EmptyString
                /\ exists u, parseUrl c = Some u /\ ImportValidation.isHttp u = true)
  /\ Row.category r <> EmptyString
  /\ (String.length (Row.category r) <= 40)%nat
  /\ Row.source_id r <> Some EmptyString
  /\ (forall p, Row.source_popularity r = Some p -> 0 <= p)
  /\ Row.title_norm r = normalizeForCatalogNorm (Row.title r)
  /\ Row.author_norm r = normalizeForCatalogNorm (Row.author r).

(** Is the item accepted by the validation? *)
Definition accepted (parseUrl : string -> option ImportValidation.Url)
           (lang nowIso importSource : string) (raw : ImportValidation.RawItem) : bool :=
  match ImportValidation.validate parseUrl lang nowIso importSource raw with
  | ImportValidation.Accepted _ => true
  | ImportValidation.Rejected _ => false
  end.

(** What the validation loop keeps true once the items [seen] have been
    looked at. *)
Definition validated (parseUrl : string -> option ImportValidation.Url)
           (lang nowIso importSource : string) (seen : list ImportValidation.RawItem)
           (st : ImportValidation.State) : Prop :=
  NoDup (mapKeys (ImportValidation.deduped st))
  /\ (forall k r, In (k, r) (ImportValidation.deduped st) ->
                  Row.id r = k /\ importable parseUrl lang importSource r)
  /\ (forall raw row, In raw seen ->
                      ImportValidation.validate parseUrl lang nowIso importSource raw
                      = ImportValidation.Accepted row ->
                      In (Row.id row) (mapKeys (ImportValidation.deduped st)))
  /\ (length (ImportValidation.deduped st)
      <= length (List.filter (accepted parseUrl lang nowIso importSource) seen))%nat
  /\ length (ImportValidation.rejected st)
     = length (List.filter (fun x => negb (accepted parseUrl lang nowIso importSource x)) seen).

(** ** The import, row by row *)

(** What the import writes for one incoming row, given the stored table:
    the row itself when its id is new, the merged row when the stored row
    can be improved, nothing otherwise. *)
Definition writeOf (lang nowIso importSource : string) (db : gmap string CatalogImport.Existing)
           (row : Row.t) : list Row.t :=
  match db !! Row.id row with
  | None => [row]
  | Some e =>
      match CatalogImport.mergeExisting lang nowIso importSource e row with
      | Some merged => [merged]
      | None => []
      end
  end.

Definition isNew (db : gmap string CatalogImport.Existing) (row : Row.t) : bool :=
  match db !! Row.id row with None => true | Some _ => false end.

Definition isImproved (lang nowIso importSource : string) (db : gmap string CatalogImport.Existing)
           (row : Row.t) : bool :=
  match db !! Row.id row with
  | None => false
  | Some e =>
      match CatalogImport.mergeExisting lang nowIso importSource e row with
      | Some _ => true
      | None => false
      end
  end.

(** The plan after the rows [seen]. *)
Definition planned (lang nowIso importSource : string) (db : gmap string CatalogImport.Existing)
           (seen : list Row.t) (plan : CatalogImport.Plan) : Prop :=
  CatalogImport.toUpsert plan = flat_map (writeOf lang nowIso importSource db) seen
  /\ CatalogImport.inserted plan = length (List.filter (isNew db) seen)
  /\ CatalogImport.updated plan
     = length (List.filter (isImproved lang nowIso importSource db) seen).

(** ** The throttle of the full rebuild of the counts *)

Module CountsRebuild.

Definition COUNTS_REBUILD_THROTTLE_MS : Z := 60 * 1000.

(** [countsRebuildLastAt.get(lang) || 0] *)
Definition lastOf (countsRebuildLastAt : list (string * Z)) (lang : string) : Z :=
  match mapGet lang countsRebuildLastAt with
  | Some t => t
  | None => 0
  end.

(** The throttled block of one import for [lang] at time [now]: is the
    rebuild called, and the map afterwards. *)
Definition rebuildStep (countsRebuildLastAt : list (string * Z)) (lang : string) (now : Z)
  : bool * list (string * Z) :=
  if now - lastOf countsRebuildLastAt lang >=? COUNTS_REBUILD_THROTTLE_MS
  then (true, mapSet lang now countsRebuildLastAt)
  else (false, countsRebuildLastAt).

(** A series of imports that wrote rows, each with its language and the
    time read by [Date.now()]: the map at the end and the rebuilds called,
    oldest first. *)
Fixpoint run (imports : list (string * Z)) (countsRebuildLastAt : list (string * Z))
         (rebuilds : list (string * Z)) : list (string * Z) * list (string * Z) :=
  match imports with
  | [] => (countsRebuildLastAt, rebuilds)
  | (lang, now) :: rest =>
      let '(called, m) := rebuildStep countsRebuildLastAt lang now in
      run rest m (if called then rebuilds ++ [(lang, now)] else rebuilds)
  end.

End CountsRebuild.

(** The rebuilds logged are at least a minute apart for each language, and
    none is later than the time kept for its language. *)
Definition throttled (m rebuilds : list (string * Z)) : Prop :=
  (forall l t, In (l, t) rebuilds -> exists t', mapGet l m = Some t' /\ t <= t')
  /\ forall (i j : nat) l t1 t2, (i < j)%nat ->
       rebuilds !! i = Some (l, t1) -> rebuilds !! j = Some (l, t2) -> 60 * 1000 <= t2 - t1.

(** ** The Open Library lookup *)

Module OpenLibraryMatch.

(** [normalizeOlAuthor] *)
Definition normalizeOlAuthor (value : option string) : option string :=
  match value with
  | None => None
  | Some s =>
      let t := JS.trim s in
      if JS.isEmpty t then None
      else if String.eqb (JS.toLowerCase t) "unknown" then None
      else Some t
  end.

(** [buildOpenLibraryCoverUrl] *)
Definition buildOpenLibraryCoverUrl (coverId : Z) : string :=
  ("https://covers.openlibrary.org/b/id/"
   ++ DecimalString.NilZero.string_of_int (Z.to_int coverId) ++ "-L.jpg")%string.

(** [fetchOpenLibraryMatch] from the reply on: [None] stands for a reply
    that is not [ok], [Some docs] for the array [json.docs] (empty when
    there is none). *)
Definition fetchOpenLibraryMatch (reply : option (list OpenLibrary.Doc))
           (title : string) (author : option string) : OlCache.Match :=
  match reply with
  | None => OlCache.noMatch
  | Some docs =>
      let bestCover := OpenLibrary.pickBestOlDoc docs title author (OpenLibrary.mkOpts true false) in
      let bestAuthorDoc :=
        OpenLibrary.pickBestOlDoc docs title author (OpenLibrary.mkOpts false true) in
      let bestTitleDoc :=
        OpenLibrary.pickBestOlDoc docs title author (OpenLibrary.mkOpts false true) in
      let coverId :=
        match bestCover with Some d => OpenLibrary.cover_i d | None => None end in
      let coverUrl :=
        match coverId with
        | Some n => if n =? 0 then None else Some (buildOpenLibraryCoverUrl n)
        | None => None
        end in
      let bestAuthor :=
        match bestAuthorDoc with
        | Some d =>
            match OpenLibrary.author_name d with
            | Some names => normalizeOlAuthor (hd_error names)
            | None => None
            end
        | None => None
        end in
      let bestTitleRaw :=
        match bestTitleDoc with Some d => OpenLibrary.title d | None => None end in
      let bestTitle :=
        match bestTitleRaw with
        | Some t => if JS.isEmpty t then None else Some (normalizeMainTitle t)
        | None => None
        end in
      OlCache.mkMatch coverUrl bestAuthor bestTitle
  end.

End OpenLibraryMatch.

(** ** Following a cursor *)



(** A result of Gutendex. *)
Definition sampleGutendexBook : GutendexFetch.Book :=
  GutendexFetch.mkBook 84 (Some "Frankenstein") ["Shelley, Mary Wollstonecraft"]
    ["Gothic fiction"; "Horror tales"] ["Gothic Fiction"]
    (Some "https://www.gutenberg.org/ebooks/84.epub.images") None (Some 90000) (Some "Text").

(** * Properties *)

(** ** Characters and strings *)

Lemma isEmpty_true (s : string) : JS.isEmpty s = true -> s = EmptyString.
Proof. destruct s; simpl; congruence. Qed.

Lemma isEmpty_false (s : string) : JS.isEmpty s = false -> s <> EmptyString.
Proof. destruct s; simpl; congruence. Qed.

Lemma isSpace_lowerChar (c : ascii) : JS.isSpace (JS.lowerChar c) = JS.isSpace c.
Proof. destruct c as [[] [] [] [] [] [] [] []]; reflexivity. Qed.

Lemma lowerChar_idem (c : ascii) : JS.lowerChar (JS.lowerChar c) = JS.lowerChar c.
Proof. destruct c as [[] [] [] [] [] [] [] []]; reflexivity. Qed.

Lemma toLowerCase_idem (s : string) : JS.toLowerCase (JS.toLowerCase s) = JS.toLowerCase s.
Proof. induction s as [|c r IH]; simpl; [reflexivity|]. now rewrite lowerChar_idem, IH. Qed.

Lemma isEmpty_toLowerCase (s : string) : JS.isEmpty (JS.toLowerCase s) = JS.isEmpty s.
Proof. destruct s; reflexivity. Qed.

Lemma trimStart_toLowerCase (s : string) :
  JS.trimStart (JS.toLowerCase s) = JS.toLowerCase (JS.trimStart s).
Proof.
  induction s as [|c r IH]; simpl; [reflexivity|].
  rewrite isSpace_lowerChar. destruct (JS.isSpace c); [exact IH | reflexivity].
Qed.

Lemma trimEnd_toLowerCase (s : string) :
  JS.trimEnd (JS.toLowerCase s) = JS.toLowerCase (JS.trimEnd s).
Proof.
  induction s as [|c r IH]; simpl; [reflexivity|].
  rewrite isSpace_lowerChar, IH, isEmpty_toLowerCase.
  destruct (JS.isSpace c && JS.isEmpty (JS.trimEnd r)); reflexivity.
Qed.

Lemma trim_toLowerCase (s : string) : JS.trim (JS.toLowerCase s) = JS.toLowerCase (JS.trim s).
Proof. unfold JS.trim. now rewrite trimStart_toLowerCase, trimEnd_toLowerCase. Qed.



Lemma trimStart_head (s : string) :
  match JS.trimStart s with
  | EmptyString => True
  | String c _ => JS.isSpace c = false
  end.
Proof.
  induction s as [|c r IH]; simpl; [exact I|].
  destruct (JS.isSpace c) eqn:E; [exact IH | exact E].
Qed.

Lemma trimStart_idem (s : string) : JS.trimStart (JS.trimStart s) = JS.trimStart s.
Proof.
  pose proof (trimStart_head s) as H. destruct (JS.trimStart s) as [|c r]; [reflexivity|].
  simpl. now rewrite H.
Qed.





Lemma trimEnd_idem (s : string) : JS.trimEnd (JS.trimEnd s) = JS.trimEnd s.
Proof.
  induction s as [|c r IH]; simpl; [reflexivity|].
  destruct (JS.isSpace c) eqn:E; simpl.
  - destruct (JS.isEmpty (JS.trimEnd r)) eqn:Er; simpl; [reflexivity|].
    rewrite E, IH, Er. reflexivity.
  - rewrite E, IH. reflexivity.
Qed.



Lemma trimStart_trimEnd (s : string) :
  JS.trimStart (JS.trimEnd s) = JS.trimEnd (JS.trimStart s).
Proof.
  induction s as [|c r IH]; simpl; [reflexivity|].
  destruct (JS.isSpace c) eqn:E; simpl.
  - destruct (JS.isEmpty (JS.trimEnd r)) eqn:Er; simpl.
    + rewrite <- IH. apply isEmpty_true in Er. now rewrite Er.
    + now rewrite E.
  - now rewrite E.
Qed.

Lemma trim_idem (s : string) : JS.trim (JS.trim s) = JS.trim s.
Proof.
  unfold JS.trim. rewrite trimStart_trimEnd, trimStart_idem, trimEnd_idem. reflexivity.
Qed.






(** ** C3: stability of the deduplication key *)



(** ** The insertion-ordered map *)

Section JsMapFacts.
Context {V : Type}.
Implicit Types (m : list (string * V)) (k : string) (v : V).

Lemma mapGet_None k m : mapGet k m = None <-> ~ In k (mapKeys m).
Proof.
  induction m as [|[k' v'] r IH]; simpl; [tauto|].
  destruct (String.eqb_spec k k') as [->|Hne].
  - split; [discriminate | intros H; exfalso; apply H; now left].
  - rewrite IH. split; [intros H [E|E]; [congruence|tauto] | tauto].
Qed.

Lemma mapGet_Some_In k v m : mapGet k m = Some v -> In (k, v) m.
Proof.
  induction m as [|[k' v'] r IH]; simpl; [discriminate|].
  destruct (String.eqb_spec k k') as [->|Hne].
  - intros [= ->]. now left.
  - intros H. right. now apply IH.
Qed.

Lemma mapKeys_mapSet_new k v m :
  mapGet k m = None -> mapKeys (mapSet k v m) = mapKeys m ++ [k].
Proof.
  induction m as [|[k' v'] r IH]; simpl; [reflexivity|].
  destruct (String.eqb_spec k k') as [->|Hne]; [discriminate|].
  intros H. simpl. f_equal. now apply IH.
Qed.

Lemma mapKeys_mapSet_old k v v0 m :
  mapGet k m = Some v0 -> mapKeys (mapSet k v m) = mapKeys m.
Proof.
  induction m as [|[k' v'] r IH]; simpl; [discriminate|].
  destruct (String.eqb_spec k k') as [->|Hne]; [reflexivity|].
  intros H. simpl. f_equal. now apply IH.
Qed.

Lemma In_mapSet k v m k' v' :
  In (k', v') (mapSet k v m) -> (k' = k /\ v' = v) \/ In (k', v') m.
Proof.
  induction m as [|[k0 v0] r IH]; simpl.
  - intros [[= <- <-]|[]]. now left.
  - destruct (String.eqb_spec k k0) as [->|Hne]; simpl.
    + intros [[= <- <-]|H]; [now left | right; now right].
    + intros [E|H]; [right; now left|].
      destruct (IH H) as [?|?]; [now left | right; now right].
Qed.

Lemma mapGet_mapSet_same k v m : mapGet k (mapSet k v m) = Some v.
Proof.
  induction m as [|[k0 v0] r IH]; simpl.
  - now rewrite String.eqb_refl.
  - destruct (String.eqb_spec k k0) as [->|Hne]; simpl.
    + now rewrite String.eqb_refl.
    + destruct (String.eqb_spec k k0); [contradiction | exact IH].
Qed.

Lemma mapGet_mapSet_other k k' v m : k' <> k -> mapGet k' (mapSet k v m) = mapGet k' m.
Proof.
  intros Hne. induction m as [|[k0 v0] r IH]; simpl.
  - destruct (String.eqb_spec k' k); [contradiction | reflexivity].
  - destruct (String.eqb_spec k k0) as [->|Hne0]; simpl.
    + destruct (String.eqb_spec k' k0); [contradiction | reflexivity].
    + now rewrite IH.
Qed.
End JsMapFacts.

(** ** The merge rule *)

Lemma pickBetterCandidate_cases (a b : ApiEbook.t) :
  pickBetterCandidate a b = a \/ pickBetterCandidate a b = b.
Proof.
  unfold pickBetterCandidate.
  destruct (negb (Bool.eqb (hasCover a) (hasCover b))); [destruct (hasCover b); auto|].
  destruct (negb (popularityOf a =? popularityOf b)); [destruct (popularityOf b >? popularityOf a); auto|].
  destruct (negb (rankOf a =? rankOf b)); [destruct (rankOf b <? rankOf a); auto|].
  now left.
Qed.

(** ** The merged set of one synchronization *)

Lemma dedupeStep_ok (lang : string) (m : list (string * ApiEbook.t)) (b : ApiEbook.t) :
  dedupedOk lang m -> dedupedOk lang (dedupeStep lang m b).
Proof.
  intros [Hnd Hall]. unfold dedupeStep.
  destruct (syncKeeps b) eqn:Hk; simpl; [|now split].
  destruct (mapGet (candidateId lang b) m) as [prev|] eqn:Hg.
  - split.
    + now rewrite (mapKeys_mapSet_old _ _ _ _ Hg).
    + intros k x Hin. apply In_mapSet in Hin as [[-> ->]|Hin]; [|now apply Hall].
      destruct (Hall _ _ (mapGet_Some_In _ _ _ Hg)) as [Hkp Hidp].
      destruct (pickBetterCandidate_cases prev b) as [->| ->]; auto.
  - split.
    + rewrite (mapKeys_mapSet_new _ _ _ Hg).
      apply NoDup_app. split; [exact Hnd|]. split.
      * intros x Hx Hx'. apply list_elem_of_singleton in Hx' as ->.
        apply list_elem_of_In in Hx. now apply mapGet_None in Hg.
      * apply NoDup_singleton.
    + intros k x Hin. apply In_mapSet in Hin as [[-> ->]|Hin]; [auto | now apply Hall].
Qed.

Lemma fold_dedupeStep_ok (lang : string) (all : list ApiEbook.t) (m : list (string * ApiEbook.t)) :
  dedupedOk lang m -> dedupedOk lang (fold_left (dedupeStep lang) all m).
Proof.
  revert m. induction all as [|b rest IH]; intros m Hm; simpl; [exact Hm|].
  apply IH. now apply dedupeStep_ok.
Qed.

Lemma dedupeAll_ok (lang : string) (all : list ApiEbook.t) : dedupedOk lang (dedupeAll lang all).
Proof.
  apply fold_dedupeStep_ok. split; [constructor | intros k b []].
Qed.

Lemma dedupeStep_keys (lang : string) (m : list (string * ApiEbook.t)) (b : ApiEbook.t) (k : string) :
  In k (mapKeys (dedupeStep lang m b)) <->
  In k (mapKeys m) \/ (syncKeeps b = true /\ candidateId lang b = k).
Proof.
  unfold dedupeStep. destruct (syncKeeps b) eqn:Hk; simpl.
  - destruct (mapGet (candidateId lang b) m) as [prev|] eqn:Hg.
    + rewrite (mapKeys_mapSet_old _ _ _ _ Hg). split; [tauto|].
      intros [H|[_ <-]]; [exact H|].
      apply mapGet_Some_In in Hg. unfold mapKeys.
      change (candidateId lang b) with (fst (candidateId lang b, prev)). now apply in_map.
    + rewrite (mapKeys_mapSet_new _ _ _ Hg), in_app_iff. simpl. intuition congruence.
  - intuition congruence.
Qed.

Lemma fold_dedupeStep_keys (lang : string) (all : list ApiEbook.t)
      (m : list (string * ApiEbook.t)) (k : string) :
  In k (mapKeys (fold_left (dedupeStep lang) all m)) <->
  In k (mapKeys m) \/ exists b, In b all /\ syncKeeps b = true /\ candidateId lang b = k.
Proof.
  revert m. induction all as [|b rest IH]; intros m; simpl.
  - split; [tauto | intros [H|[b [[] _]]]; exact H].
  - rewrite IH, dedupeStep_keys. split.
    + intros [[H|[Hk Hid]]|[x [Hin Hx]]]; eauto 6.
    + intros [H|[x [[<-|Hin] Hx]]]; eauto 6.
Qed.

(** The keys of the merged set are the catalog ids of the candidates that
    pass the guard. *)
Lemma dedupeAll_keys (lang : string) (all : list ApiEbook.t) (k : string) :
  In k (mapKeys (dedupeAll lang all)) <->
  exists b, In b all /\ syncKeeps b = true /\ candidateId lang b = k.
Proof.
  unfold dedupeAll. rewrite fold_dedupeStep_keys. simpl. tauto.
Qed.

Lemma rowsOf_kept (lang nowIso : string) (values : list ApiEbook.t) :
  (forall b, In b values -> syncKeeps b = true) ->
  rowsOf lang nowIso values = map (toRow lang nowIso) values.
Proof.
  induction values as [|b rest IH]; intros H; simpl; [reflexivity|].
  rewrite (H b (or_introl eq_refl)). simpl. f_equal. apply IH. intros x Hx. apply H. now right.
Qed.

Lemma syncRows_eq (lang nowIso : string) (all : list ApiEbook.t) :
  syncRows lang nowIso all = map (toRow lang nowIso) (mapValues (dedupeAll lang all)).
Proof.
  unfold syncRows. apply rowsOf_kept. intros b Hb.
  unfold mapValues in Hb. apply in_map_iff in Hb as [[k x] [<- Hin]].
  now apply (proj2 (dedupeAll_ok lang all) k x).
Qed.

(** The ids of the rows are the keys of the merged set, in the same order. *)
Lemma syncRows_ids (lang nowIso : string) (all : list ApiEbook.t) :
  map Row.id (syncRows lang nowIso all) = mapKeys (dedupeAll lang all).
Proof.
  rewrite syncRows_eq. destruct (dedupeAll_ok lang all) as [_ Hall].
  unfold mapValues, mapKeys. rewrite map_map.
  induction (dedupeAll lang all) as [|[k b] r IH]; simpl; [reflexivity|]. f_equal.
  - apply (Hall k b). now left.
  - apply IH. intros k' b' H. apply Hall. now right.
Qed.

(** ** The upsert *)

Section DatastoreFacts.
Variable onConflict : Row.t -> Row.t -> Row.t.

Lemma chunksOf_concat {A : Type} (n fuel : nat) (l : list A) :
  (0 < n)%nat -> (length l <= fuel)%nat -> concat (chunksOf fuel n l) = l.
Proof.
  intros Hn. revert l. induction fuel as [|fuel IH]; intros l Hl; simpl.
  - destruct l; [reflexivity | simpl in Hl; lia].
  - destruct l as [|x r]; [reflexivity|].
    cbn [concat]. rewrite IH; [apply firstn_skipn|].
    rewrite length_skipn. simpl in *. lia.
Qed.

Lemma fold_chunks {S A : Type} (f : S -> A -> S) (chunks : list (list A)) (s : S) :
  fold_left (fun d chunk => fold_left f chunk d) chunks s = fold_left f (concat chunks) s.
Proof.
  revert s. induction chunks as [|c r IH]; intros s; simpl; [reflexivity|].
  now rewrite IH, fold_left_app.
Qed.

Lemma upsertCatalogItems_fold (db : gmap string Row.t) (rows : list Row.t) :
  upsertCatalogItems onConflict db rows = fold_left (upsertRow onConflict) rows db.
Proof.
  unfold upsertCatalogItems. rewrite fold_chunks, chunksOf_concat; [reflexivity | lia | lia].
Qed.

Lemma dom_upsertRow (db : gmap string Row.t) (r : Row.t) :
  dom (upsertRow onConflict db r) = ({[Row.id r]} ∪ dom db : gset string).
Proof.
  unfold upsertRow. destruct (db !! Row.id r); apply dom_insert_L.
Qed.

Lemma dom_upsertCatalogItems (db : gmap string Row.t) (rows : list Row.t) :
  dom (upsertCatalogItems onConflict db rows)
  = (list_to_set (map Row.id rows) ∪ dom db : gset string).
Proof.
  rewrite upsertCatalogItems_fold. revert db.
  induction rows as [|r rest IH]; intros db; cbn [map fold_left].
  - now rewrite list_to_set_nil, (left_id_L ∅ (∪)).
  - rewrite IH, dom_upsertRow, list_to_set_cons.
    rewrite (assoc_L (∪)), (comm_L (∪) (list_to_set _) {[_]}). reflexivity.
Qed.
End DatastoreFacts.

(** C1: in every synchronization run the rows handed to the upsert carry
    pairwise different normalization keys (language, normalized title,
    normalized author) and pairwise different ids, the id of a row being
    [toCatalogId] of its language, title and author, and the ids being those
    of the candidates that pass the guard of the loop; a second run for the same
    language over the same candidates hands over the same ids, in the same
    number, every one of them already stored, so that the stored id set and
    its size are those left by the first run. *)
Theorem C1_sync_rows_unique_and_idempotent
  (onConflict : Row.t -> Row.t -> Row.t) (lang now1 now2 : string)
  (all : list ApiEbook.t) (db : gmap string Row.t) :
  let rows1 := syncRows lang now1 all in
  let rows2 := syncRows lang now2 all in
  let db1 := upsertCatalogItems onConflict db rows1 in
  let db2 := upsertCatalogItems onConflict db1 rows2 in
  Forall (fun r => Row.id r = toCatalogId lang (Row.title r) (Row.author r)
                   /\ Row.lang_code r = lang
                   /\ Row.title_norm r = normalizeForCatalogNorm (Row.title r)
                   /\ Row.author_norm r = normalizeForCatalogNorm (Row.author r)) rows1
  /\ NoDup (map rowKey rows1)
  /\ NoDup (map Row.id rows1)
  /\ (forall k, In k (map Row.id rows1) <->
                exists b, In b all /\ syncKeeps b = true /\ candidateId lang b = k)
  /\ map Row.id rows2 = map Row.id rows1
  /\ length rows2 = length rows1
  /\ Forall (fun r => is_Some (db1 !! Row.id r)) rows2
  /\ dom db2 = (dom db1 : gset string)
  /\ size db2 = size db1.
Proof.
  intros rows1 rows2 db1 db2.
  assert (Hids : map Row.id rows2 = map Row.id rows1).
  { unfold rows1, rows2. now rewrite !syncRows_ids. }
  assert (Hnd : NoDup (map Row.id rows1)).
  { unfold rows1. rewrite syncRows_ids. apply (dedupeAll_ok lang all). }
  assert (Hform : Forall (fun r => exists b, r = toRow lang now1 b) rows1).
  { unfold rows1. rewrite syncRows_eq. apply Forall_forall. intros r Hr.
    apply list_elem_of_In, in_map_iff in Hr as [b [<- _]]. now exists b. }
  assert (Hdom : dom db2 = (dom db1 : gset string)).
  { unfold db2. rewrite dom_upsertCatalogItems, Hids.
    unfold db1. rewrite dom_upsertCatalogItems.
    rewrite (assoc_L (∪)), (idemp_L (∪)). reflexivity. }
  repeat split.
  - eapply Forall_impl; [exact Hform|]. intros r [b ->]. repeat split.
  - apply (NoDup_fmap_1 (fun k : string * string * string =>
             (k.1.1 ++ "::" ++ k.1.2 ++ "::" ++ k.2)%string)).
    replace (_ <$> map rowKey rows1) with (map Row.id rows1); [exact Hnd|].
    clear -Hform. induction Hform as [|r l [b ->] _ IH]; [reflexivity|].
    cbn [map fmap list_fmap]. f_equal. exact IH.
  - exact Hnd.
  - unfold rows1. rewrite syncRows_ids. apply dedupeAll_keys.
  - unfold rows1. rewrite syncRows_ids. apply dedupeAll_keys.
  - exact Hids.
  - rewrite <- (length_map Row.id rows2), Hids. apply length_map.
  - apply Forall_forall. intros r Hr. apply elem_of_dom.
    unfold db1. rewrite dom_upsertCatalogItems, <- Hids.
    apply elem_of_union_l, elem_of_list_to_set, list_elem_of_In, in_map.
    now apply list_elem_of_In.
  - exact Hdom.
  - rewrite <- !(size_dom (D := gset string)), Hdom. reflexivity.
Qed.

(** ** C2: determinism of the merge *)

Ltac zcases :=
  repeat match goal with
         | |- context [Z.gtb ?a ?b] => rewrite (Z.gtb_ltb a b)
         | H : context [Z.gtb ?a ?b] |- _ => rewrite (Z.gtb_ltb a b) in H
         | |- context [Z.eqb ?a ?b] => destruct (Z.eqb_spec a b)
         | H : context [Z.eqb ?a ?b] |- _ => destruct (Z.eqb_spec a b)
         | |- context [Z.ltb ?a ?b] => destruct (Z.ltb_spec a b)
         | H : context [Z.ltb ?a ?b] |- _ => destruct (Z.ltb_spec a b)
         end.

Lemma pick_beats (a b : ApiEbook.t) :
  pickBetterCandidate a b = if beats b a then b else a.
Proof.
  unfold pickBetterCandidate, beats.
  destruct (hasCover a), (hasCover b); simpl; try reflexivity; zcases; reflexivity.
Qed.

(** Not being beaten, as an order on (cover, popularity, rank). *)
Lemma beats_false_iff (b a : ApiEbook.t) :
  beats b a = false <->
  coverZ b < coverZ a
  \/ (coverZ b = coverZ a
      /\ (popularityOf b < popularityOf a
          \/ (popularityOf b = popularityOf a /\ rankOf a <= rankOf b))).
Proof.
  unfold beats, coverZ.
  destruct (hasCover a), (hasCover b); simpl; zcases; simpl;
    split; intros; try discriminate; try reflexivity; lia.
Qed.

Lemma coverZ_inj (a b : ApiEbook.t) : coverZ a = coverZ b -> hasCover a = hasCover b.
Proof. unfold coverZ. destruct (hasCover a), (hasCover b); intros; try reflexivity; lia. Qed.

Lemma beats_irrefl (a : ApiEbook.t) : beats a a = false.
Proof. apply beats_false_iff. lia. Qed.

(** Two records of which neither beats the other have the same quality. *)
Lemma beats_tie (a b : ApiEbook.t) :
  beats a b = false -> beats b a = false -> quality a = quality b.
Proof.
  rewrite !beats_false_iff. intros H1 H2. unfold quality.
  assert (Hc : coverZ a = coverZ b) by lia.
  rewrite (coverZ_inj _ _ Hc). f_equal; [f_equal|]; lia.
Qed.

(** Not being beaten is transitive. *)
Lemma beats_negtrans (a b c : ApiEbook.t) :
  beats a b = false -> beats b c = false -> beats a c = false.
Proof. rewrite !beats_false_iff. lia. Qed.

(** Of two records at most one beats the other. *)
Lemma beats_asym (a b : ApiEbook.t) : beats a b = true -> beats b a = false.
Proof.
  intros H. apply beats_false_iff.
  destruct (beats_false_iff a b) as [_ Hf].
  destruct (Z.lt_trichotomy (coverZ a) (coverZ b)) as [L|[E|G]];
    [rewrite Hf in H by lia; discriminate | | lia].
  destruct (Z.lt_trichotomy (popularityOf a) (popularityOf b)) as [L'|[E'|G']];
    [rewrite Hf in H by lia; discriminate | | lia].
  destruct (Z.le_gt_cases (rankOf b) (rankOf a)) as [L''|G''];
    [rewrite Hf in H by lia; discriminate | lia].
Qed.

Lemma pick_not_beaten (a b : ApiEbook.t) :
  beats a (pickBetterCandidate a b) = false /\ beats b (pickBetterCandidate a b) = false.
Proof.
  rewrite pick_beats. destruct (beats b a) eqn:E.
  - split; [now apply beats_asym | apply beats_irrefl].
  - split; [apply beats_irrefl | exact E].
Qed.

Lemma winner_in (l : list ApiEbook.t) (x : ApiEbook.t) : In (winner l x) (x :: l).
Proof.
  unfold winner. revert x. induction l as [|a l IH]; intros x; simpl; [now left|].
  destruct (IH (pickBetterCandidate x a)) as [H|H]; [|right; now right].
  rewrite <- H. destruct (pickBetterCandidate_cases x a) as [-> | ->]; [now left | right; now left].
Qed.

(** The winner of a fold is beaten by no member of the group. *)
Lemma winner_max (l : list ApiEbook.t) (x y : ApiEbook.t) :
  In y (x :: l) -> beats y (winner l x) = false.
Proof.
  unfold winner. revert x y. induction l as [|a l IH]; intros x y; simpl.
  - intros [<-|[]]. apply beats_irrefl.
  - destruct (pick_not_beaten x a) as [Hx Ha].
    pose proof (IH (pickBetterCandidate x a) (pickBetterCandidate x a) (or_introl eq_refl)) as Hp.
    intros [<-|[<-|Hin]].
    + exact (beats_negtrans _ _ _ Hx Hp).
    + exact (beats_negtrans _ _ _ Ha Hp).
    + apply IH. now right.
Qed.

Lemma winner_perm (l l' : list ApiEbook.t) (x y : ApiEbook.t) :
  Permutation (x :: l) (y :: l') ->
  quality (winner l x) = quality (winner l' y)
  /\ ((forall u v, In u (x :: l) -> In v (x :: l) -> quality u = quality v -> u = v) ->
      winner l x = winner l' y).
Proof.
  intros HP.
  assert (Hq : quality (winner l x) = quality (winner l' y)).
  { apply beats_tie.
    - apply winner_max. apply (Permutation_in _ HP). apply winner_in.
    - apply winner_max. apply (Permutation_in _ (Permutation_sym HP)). apply winner_in. }
  split; [exact Hq|]. intros Hinj. apply Hinj; [apply winner_in | | exact Hq].
  apply (Permutation_in _ (Permutation_sym HP)). apply winner_in.
Qed.

Lemma fold_some_winner (l : list ApiEbook.t) (x : ApiEbook.t) :
  fold_left (fun o b => Some (match o with None => b | Some p => pickBetterCandidate p b end))
            l (Some x)
  = Some (winner l x).
Proof.
  unfold winner. revert x. induction l as [|a l IH]; intros x; simpl; [reflexivity | apply IH].
Qed.

Lemma mapGet_fold_dedupeStep (lang k : string) (all : list ApiEbook.t)
      (m : list (string * ApiEbook.t)) :
  mapGet k (fold_left (dedupeStep lang) all m)
  = fold_left (fun o b => Some (match o with None => b | Some p => pickBetterCandidate p b end))
              (group lang k all) (mapGet k m).
Proof.
  revert m. induction all as [|b rest IH]; intros m; simpl; [reflexivity|].
  rewrite IH. unfold dedupeStep.
  destruct (syncKeeps b) eqn:Hk; simpl; [|reflexivity].
  destruct (String.eqb_spec (candidateId lang b) k) as [<-|Hne]; simpl.
  - destruct (mapGet (candidateId lang b) m) as [prev|] eqn:Hg;
      now rewrite mapGet_mapSet_same.
  - destruct (mapGet (candidateId lang b) m) as [prev|] eqn:Hg;
      rewrite mapGet_mapSet_other by congruence; reflexivity.
Qed.

(** The record that the sync loop leaves under an id is the fold of the
    merge rule over the candidates filed under that id, in the order met. *)
Lemma mapGet_dedupeAll (lang k : string) (all : list ApiEbook.t) :
  mapGet k (dedupeAll lang all) =
  match group lang k all with
  | [] => None
  | x :: l => Some (winner l x)
  end.
Proof.
  unfold dedupeAll. rewrite mapGet_fold_dedupeStep. simpl.
  destruct (group lang k all) as [|x l]; [reflexivity|]. simpl. apply fold_some_winner.
Qed.

Lemma group_perm (lang k : string) (all all' : list ApiEbook.t) :
  Permutation all all' -> Permutation (group lang k all) (group lang k all').
Proof.
  intros HP. unfold group. induction HP; simpl.
  - constructor.
  - destruct (syncKeeps x && String.eqb (candidateId lang x) k); [now constructor | assumption].
  - destruct (syncKeeps x && String.eqb (candidateId lang x) k),
             (syncKeeps y && String.eqb (candidateId lang y) k);
      try reflexivity. apply perm_swap.
  - now transitivity (List.filter (fun b => syncKeeps b && String.eqb (candidateId lang b) k) l').
Qed.

(** C2 as stated fails: when two candidates of one key tie on cover,
    popularity and source, the rule keeps its first argument, so the winner
    changes with the order of the arguments and with the order of the fold. *)
Lemma C2_tie_depends_on_order :
  candidateId "en" editionA = candidateId "en" editionB
  /\ pickBetterCandidate editionA editionB = editionA
  /\ pickBetterCandidate editionB editionA = editionB
  /\ pickBetterCandidate editionA editionB <> pickBetterCandidate editionB editionA
  /\ mapValues (dedupeAll "en" [editionA; editionB]) = [editionA]
  /\ mapValues (dedupeAll "en" [editionB; editionA]) = [editionB].
Proof.
  split; [vm_compute; reflexivity|]. split; [vm_compute; reflexivity|].
  split; [vm_compute; reflexivity|].
  split; [|split; vm_compute; reflexivity].
  intros H. vm_compute in H. discriminate H.
Qed.

(** C2, amended: the winner of [pick(a, b)] and the winner of [pick(b, a)]
    agree on what the rule ranks (cover presence, popularity, source rank),
    and are the same record unless [a] and [b] tie on all three; and for two
    orders of the same candidates, the records that the sync fold leaves
    under a key agree on the three, and are the same record when no two
    candidates of that key tie. *)
Theorem C2_merge_order (lang k : string) (all all' : list ApiEbook.t) :
  Permutation all all' ->
  (forall a b : ApiEbook.t,
      quality (pickBetterCandidate a b) = quality (pickBetterCandidate b a)
      /\ (quality a <> quality b -> pickBetterCandidate a b = pickBetterCandidate b a))
  /\ match mapGet k (dedupeAll lang all), mapGet k (dedupeAll lang all') with
     | Some w, Some w' =>
         quality w = quality w'
         /\ ((forall u v, In u (group lang k all) -> In v (group lang k all) ->
                          quality u = quality v -> u = v) -> w = w')
     | None, None => True
     | _, _ => False
     end.
Proof.
  intros HP. split.
  - intros a b. rewrite !pick_beats.
    destruct (beats b a) eqn:Eba, (beats a b) eqn:Eab.
    + rewrite (beats_asym _ _ Eba) in Eab. discriminate.
    + split; reflexivity.
    + split; reflexivity.
    + pose proof (beats_tie _ _ Eab Eba) as Hq. split; [exact Hq|].
      intros Hne. now contradiction Hne.
  - rewrite !mapGet_dedupeAll. pose proof (group_perm lang k _ _ HP) as HG.
    destruct (group lang k all) as [|x l], (group lang k all') as [|y l'].
    + exact I.
    + apply Permutation_nil in HG. discriminate.
    + apply Permutation_sym, Permutation_nil in HG. discriminate.
    + apply winner_perm, HG.
Qed.

Lemma C2_merge_order_witness :
  Permutation [editionA; editionB] [editionB; editionA]
  /\ match mapGet (candidateId "en" editionA) (dedupeAll "en" [editionA; editionB]),
           mapGet (candidateId "en" editionA) (dedupeAll "en" [editionB; editionA]) with
     | Some w, Some w' =>
         quality w = quality w'
         /\ ((forall u v,
                In u (group "en" (candidateId "en" editionA) [editionA; editionB]) ->
                In v (group "en" (candidateId "en" editionA) [editionA; editionB]) ->
                quality u = quality v -> u = v) -> w = w')
     | None, None => True
     | _, _ => False
     end.
Proof.
  split; [apply perm_swap|].
  exact (proj2 (C2_merge_order "en" (candidateId "en" editionA)
                  [editionA; editionB] [editionB; editionA] (perm_swap _ _ _))).
Defined.

(** ** C4: retries of the Gutendex page request *)

Section GutendexFacts.
Import Gutendex.
Variable upstream : nat -> Response.
Variable jitter : nat -> Z.
Variable maxRetries : nat.





End GutendexFacts.




(** ** C5: the ManyBooks circuit breaker *)

Section ManyBooksFacts.
Import ManyBooks.
Variable net : list string -> Z -> string -> NetReply * Z.




Variable afterGenres : string -> Z -> string -> Prog (list ApiEbook.t).



End ManyBooksFacts.



(** ** C6: the acceptance threshold of the enrichment lookup *)

Section OpenLibraryFacts.
Import OpenLibrary.
Variable wantTitle wantAuthor : string.
Variable authorKnown : bool.
Variable opts : Opts.

Lemma consider_inv (seen : list Doc) (best : option Best) (d : Doc) :
  bestInv wantTitle wantAuthor authorKnown opts seen best ->
  bestInv wantTitle wantAuthor authorKnown opts (seen ++ [d])
          (consider wantTitle wantAuthor authorKnown opts best d).
Proof.
  unfold consider. destruct (eligible opts d) eqn:El; simpl.
  - destruct best as [cur|]; simpl.
    + intros (Hin & Hel & Hsc & Hmax).
      destruct ((scoreOf wantTitle wantAuthor authorKnown d >? score cur)
                || ((scoreOf wantTitle wantAuthor authorKnown d =? score cur)
                    && (bonusOf d >? bonus cur))) eqn:Ecmp; simpl.
      * repeat split; [apply in_or_app; right; now left | exact El |].
        intros x Hx Hxe. apply in_app_or in Hx as [Hx|[<-|[]]]; [|lia].
        specialize (Hmax x Hx Hxe).
        apply orb_true_iff in Ecmp as [E|E].
        -- rewrite Z.gtb_ltb in E. apply Z.ltb_lt in E. lia.
        -- apply andb_true_iff in E as [E _]. apply Z.eqb_eq in E. lia.
      * repeat split; [apply in_or_app; now left | exact Hel | exact Hsc |].
        intros x Hx Hxe. apply in_app_or in Hx as [Hx|[<-|[]]]; [now apply Hmax|].
        apply orb_false_iff in Ecmp as [E _].
        rewrite Z.gtb_ltb in E. apply Z.ltb_ge in E. exact E.
    + intros Hnone. repeat split; [apply in_or_app; right; now left | exact El |].
      intros x Hx Hxe. apply in_app_or in Hx as [Hx|[<-|[]]]; [|lia].
      rewrite (Hnone x Hx) in Hxe. discriminate.
  - destruct best as [cur|]; simpl.
    + intros (Hin & Hel & Hsc & Hmax).
      repeat split; [apply in_or_app; now left | exact Hel | exact Hsc |].
      intros x Hx Hxe. apply in_app_or in Hx as [Hx|[<-|[]]]; [now apply Hmax|].
      rewrite El in Hxe. discriminate.
    + intros Hnone x Hx. apply in_app_or in Hx as [Hx|[<-|[]]]; [now apply Hnone | exact El].
Qed.

Lemma fold_consider_inv (docs seen : list Doc) (best : option Best) :
  bestInv wantTitle wantAuthor authorKnown opts seen best ->
  bestInv wantTitle wantAuthor authorKnown opts (seen ++ docs)
          (fold_left (consider wantTitle wantAuthor authorKnown opts) docs best).
Proof.
  revert seen best. induction docs as [|d docs IH]; intros seen best H; simpl.
  - now rewrite app_nil_r.
  - replace (seen ++ d :: docs) with ((seen ++ [d]) ++ docs) by now rewrite <- app_assoc.
    apply IH. now apply consider_inv.
Qed.
End OpenLibraryFacts.

Lemma bestOf_inv (docs : list OpenLibrary.Doc) (title : string) (author : option string)
      (opts : OpenLibrary.Opts) :
  bestInv (normalizeForLookup title) (OpenLibrary.wantAuthorOf author)
          (OpenLibrary.authorKnownOf author) opts docs
          (OpenLibrary.bestOf docs title author opts).
Proof.
  unfold OpenLibrary.bestOf.
  apply (fold_consider_inv _ _ _ _ docs [] None). intros d [].
Qed.

(** A title score of 8 or more is the score of an exact match. *)
Lemma titleScore_high (have want : string) :
  8 <= OpenLibrary.titleScore have want -> have = want.
Proof.
  unfold OpenLibrary.titleScore. destruct (String.eqb_spec have want) as [E|E]; [auto|].
  destruct (JS.includes have want || JS.includes want have); lia.
Qed.

Lemma threshold_values (authorKnown : bool) (n : nat) :
  OpenLibrary.threshold true n = 8
  /\ OpenLibrary.threshold false n = (if (n <=? 3)%nat then 10 else 8)
  /\ 8 <= OpenLibrary.threshold authorKnown n <= 10.
Proof.
  unfold OpenLibrary.threshold. destruct authorKnown, (n <=? 3)%nat; repeat split; lia.
Qed.

(** C6 as stated fails: for a title of more than three words the threshold
    with the author unknown is the threshold with the author known. *)
Lemma C6_threshold_same_for_long_titles :
  length (JS.tokens (normalizeForLookup "A Tale of Two Cities")) = 5%nat
  /\ OpenLibrary.authorKnownOf None = false
  /\ OpenLibrary.authorKnownOf (Some "Charles Dickens") = true
  /\ OpenLibrary.threshold false 5 = 8
  /\ OpenLibrary.threshold true 5 = 8
  /\ ~ (OpenLibrary.threshold true 5 < OpenLibrary.threshold false 5).
Proof. repeat split. vm_compute. discriminate. Qed.

(** C6, amended: a search result is returned only when it is eligible and its
    match score is at least the threshold, and no result is returned when
    every eligible result scores below it; the threshold is 8 when the wanted
    author is known and, when the author is unknown, 10 for a wanted title of
    three words or fewer and 8 for a longer one (so never lower than with a
    known author, and higher only for short titles); with the author unknown
    the score counts the title alone, and a result is returned only when its
    normalized title is the wanted one. *)
Theorem C6_acceptance_threshold
  (docs : list OpenLibrary.Doc) (title : string) (author : option string)
  (opts : OpenLibrary.Opts) :
  let wantTitle := normalizeForLookup title in
  let wantAuthor := OpenLibrary.wantAuthorOf author in
  let known := OpenLibrary.authorKnownOf author in
  let thr := OpenLibrary.threshold known (length (JS.tokens wantTitle)) in
  (forall d, OpenLibrary.pickBestOlDoc docs title author opts = Some d ->
             In d docs
             /\ OpenLibrary.eligible opts d = true
             /\ thr <= OpenLibrary.scoreOf wantTitle wantAuthor known d
             /\ (forall x, In x docs -> OpenLibrary.eligible opts x = true ->
                           OpenLibrary.scoreOf wantTitle wantAuthor known x
                           <= OpenLibrary.scoreOf wantTitle wantAuthor known d)
             /\ (known = false -> normalizeForLookup (OpenLibrary.docTitle d) = wantTitle))
  /\ ((forall x, In x docs -> OpenLibrary.eligible opts x = true ->
                 OpenLibrary.scoreOf wantTitle wantAuthor known x < thr) ->
      OpenLibrary.pickBestOlDoc docs title author opts = None)
  /\ (forall x, In x docs -> OpenLibrary.eligible opts x = true ->
                thr <= OpenLibrary.scoreOf wantTitle wantAuthor known x ->
                exists d, OpenLibrary.pickBestOlDoc docs title author opts = Some d)
  /\ (forall n : nat,
        OpenLibrary.threshold true n = 8
        /\ OpenLibrary.threshold false n = (if (n <=? 3)%nat then 10 else 8)
        /\ OpenLibrary.threshold true n <= OpenLibrary.threshold false n).
Proof.
  intros wantTitle wantAuthor known thr.
  pose proof (bestOf_inv docs title author opts) as Hinv.
  fold wantTitle wantAuthor known in Hinv.
  unfold OpenLibrary.pickBestOlDoc. fold wantTitle known thr.
  destruct (OpenLibrary.bestOf docs title author opts) as [b|]; simpl in Hinv.
  - destruct Hinv as (Hin & Hel & Hsc & Hmax).
    destruct (Z.ltb_spec (OpenLibrary.score b) thr) as [Hlt|Hge].
    + split; [intros d [=]|]. split; [reflexivity|]. split.
      * intros x Hx Hxe Hthr. specialize (Hmax x Hx Hxe). lia.
      * intros n. destruct (threshold_values true n) as (H1 & H2 & _).
        rewrite H1, H2. destruct (n <=? 3)%nat; repeat split; lia.
    + split.
      { intros d [= <-]. rewrite <- Hsc. repeat split; try assumption.
        intros Hk. apply titleScore_high.
        unfold OpenLibrary.scoreOf in Hsc. rewrite Hk in Hsc.
        pose proof (threshold_values known (length (JS.tokens wantTitle))) as (_ & _ & Hb).
        fold thr in Hb. lia. }
      split.
      { intros Hall. specialize (Hall _ Hin Hel). lia. }
      split.
      { intros x _ _ _. now exists (OpenLibrary.doc b). }
      intros n. destruct (threshold_values true n) as (H1 & H2 & _).
      rewrite H1, H2. destruct (n <=? 3)%nat; repeat split; lia.
  - split; [intros d [=]|]. split; [reflexivity|]. split.
    + intros x Hx Hxe _. rewrite (Hinv x Hx) in Hxe. discriminate.
    + intros n. destruct (threshold_values true n) as (H1 & H2 & _).
      rewrite H1, H2. destruct (n <=? 3)%nat; repeat split; lia.
Qed.

Lemma C6_acceptance_threshold_witness :
  OpenLibrary.pickBestOlDoc [docLonger; docExact] "A Tale of Two Cities" None
                            (OpenLibrary.mkOpts false false) = Some docExact
  /\ In docExact [docLonger; docExact]
  /\ normalizeForLookup (OpenLibrary.docTitle docExact) = normalizeForLookup "A Tale of Two Cities".
Proof.
  assert (Hpick : OpenLibrary.pickBestOlDoc [docLonger; docExact] "A Tale of Two Cities" None
                    (OpenLibrary.mkOpts false false) = Some docExact) by reflexivity.
  destruct (C6_acceptance_threshold [docLonger; docExact] "A Tale of Two Cities" None
              (OpenLibrary.mkOpts false false)) as [H _].
  destruct (H docExact Hpick) as (Hin & _ & _ & _ & Hexact).
  split; [exact Hpick|]. split; [exact Hin|]. apply Hexact. reflexivity.
Defined.

(** ** The query service: windows and page sizes *)

Lemma clampInt_bounds (raw : option string) (min max fallback : Z) :
  min <= max -> min <= fallback <= max -> min <= clampInt raw min max fallback <= max.
Proof.
  intros Hmm Hf. unfold clampInt. destruct raw as [s|]; [|exact Hf].
  destruct (parseInt10 s) as [n|]; [lia | exact Hf].
Qed.

Lemma range_length {A : Type} (from to : Z) (rows : list A) :
  length (Query.range from to rows)
  = Nat.min (Z.to_nat (to - from + 1)) (length rows - Z.to_nat from).
Proof. unfold Query.range. now rewrite length_firstn, length_skipn. Qed.


Lemma range_past_end {A : Type} (cursor limit : Z) (rows : list A) :
  0 <= cursor -> Z.of_nat (length rows) <= cursor ->
  Query.range cursor (cursor + limit - 1) rows = [].
Proof.
  intros Hc Hpast. apply length_zero_iff_nil. rewrite range_length. lia.
Qed.

Lemma enrichTitles_length (olTitle : string -> string -> string -> option string)
      (lang fallback : string) (budget : nat) (rows : list Row.t) :
  length (Query.enrichTitles olTitle lang fallback budget rows) = length rows.
Proof.
  revert budget. induction rows as [|r rest IH]; intros budget; simpl; [reflexivity|].
  destruct (Query.isGutenbergRow r); [destruct budget|]; simpl; now rewrite IH.
Qed.


Lemma cursorOf_nonneg (req : Query.Request) : 0 <= Query.cursorOf req.
Proof. unfold Query.cursorOf. pose proof (clampInt_bounds (Query.nullish (Query.q_cursor req) (Query.q_offset req)) 0 9999999 0). lia. Qed.

Lemma limitOf_bounds (req : Query.Request) (min max fallback : Z) :
  min <= max -> min <= fallback <= max -> min <= Query.limitOf req min max fallback <= max.
Proof. apply clampInt_bounds. Qed.

(** ** C7: the pagination contract *)


Section QueryFacts.
Import Query.
Variable ds : Datastore.
Variable olTitle : string -> string -> string -> option string.
Variable nowIso : string.
Variable req : Request.




End QueryFacts.



(** ** C10: an empty range is "not found" *)

(** C10: a single-category request without [allowEmpty], and a single-author
    request, whose cursor range holds no row get the response 404 (with the
    message "Category not found", "Author not found"), not a page with no
    item; this is so in particular when the cursor is at or past the end of
    the rows that match. *)
Theorem C10_empty_range_is_not_found
  (ds : Query.Datastore) (olTitle : string -> string -> string -> option string)
  (nowIso : string) (req : Query.Request) :
  (forall (c : option Query.CountRow) (all : list Row.t),
      JS.isEmpty (Query.categoryOf req) = false ->
      Query.allowEmptyOf req = false ->
      Query.categoryCount ds (Query.langOf req) (Query.categoryOf req) = Query.DbOk c ->
      Query.categoryItems ds (Query.langOf req) (Query.nameOf c (Query.categoryOf req))
        = Query.DbOk all ->
      (Query.range (Query.cursorOf req)
                   (Query.cursorOf req + Query.limitOf req 10 100 40 - 1) all = [] ->
       Query.getEbooksCategory ds olTitle nowIso req = Query.Status 404 "Category not found")
      /\ (Z.of_nat (length all) <= Query.cursorOf req ->
          Query.getEbooksCategory ds olTitle nowIso req = Query.Status 404 "Category not found"))
  /\ (forall (c : option Query.CountRow) (all : list Row.t),
      JS.isEmpty (Query.authorOf req) = false ->
      let wantNorm := normalizeForCatalogNorm (Query.normalizeAuthorKey (Query.authorOf req)) in
      Query.authorCount ds (Query.langOf req) wantNorm = Query.DbOk c ->
      Query.authorItems ds (Query.langOf req) wantNorm = Query.DbOk all ->
      (Query.range (Query.cursorOf req)
                   (Query.cursorOf req + Query.limitOf req 10 100 40 - 1) all = [] ->
       Query.getEbooksAuthor ds olTitle nowIso req = Query.Status 404 "Author not found")
      /\ (Z.of_nat (length all) <= Query.cursorOf req ->
          Query.getEbooksAuthor ds olTitle nowIso req = Query.Status 404 "Author not found")).
Proof.
  pose proof (cursorOf_nonneg req) as Hcur.
  split.
  - intros c all Hcat Hae Hc Hall.
    assert (Hempty : Query.range (Query.cursorOf req)
                       (Query.cursorOf req + Query.limitOf req 10 100 40 - 1) all = [] ->
                     Query.getEbooksCategory ds olTitle nowIso req
                     = Query.Status 404 "Category not found").
    { intros Hr. unfold Query.getEbooksCategory.
      rewrite Hcat, Hc. cbn zeta. rewrite Hall. cbn [Query.ranged]. rewrite Hr, Hae. reflexivity. }
    split; [exact Hempty|]. intros Hpast. apply Hempty. now apply range_past_end.
  - intros c all Hauth wantNorm Hc Hall.
    assert (Hempty : Query.range (Query.cursorOf req)
                       (Query.cursorOf req + Query.limitOf req 10 100 40 - 1) all = [] ->
                     Query.getEbooksAuthor ds olTitle nowIso req
                     = Query.Status 404 "Author not found").
    { intros Hr. unfold Query.getEbooksAuthor.
      rewrite Hauth. cbn zeta. fold wantNorm. rewrite Hc, Hall. cbn [Query.ranged].
      rewrite Hr. reflexivity. }
    split; [exact Hempty|]. intros Hpast. apply Hempty. now apply range_past_end.
Qed.

Lemma C10_empty_range_is_not_found_witness :
  Query.getEbooksCategory tenRowStore noCanonicalTitle "2024-01-02T00:00:00.000Z" (sampleRequest "10")
  = Query.Status 404 "Category not found"
  /\ Query.getEbooksAuthor tenRowStore noCanonicalTitle "2024-01-02T00:00:00.000Z" (sampleRequest "10")
     = Query.Status 404 "Author not found".
Proof.
  destruct (C10_empty_range_is_not_found tenRowStore noCanonicalTitle "2024-01-02T00:00:00.000Z"
              (sampleRequest "10")) as (Hcat & Hauth).
  split.
  - apply (Hcat (Some (Query.mkCountRow (Some "Fiction") (Some 10))) tenRows
                eq_refl eq_refl eq_refl eq_refl).
    vm_compute. discriminate.
  - apply (Hauth (Some (Query.mkCountRow (Some "Some Author") (Some 10))) tenRows
                 eq_refl eq_refl eq_refl).
    vm_compute. discriminate.
Defined.

(** ** C8: a failed computation and the single-flight caches *)

Section PoolCacheFacts.
Import PoolCache.

Lemma pool_launch (key : string) (now : Z) (st st1 : State) :
  getAggregatedPool key now st = (Launched, st1) ->
  (key ∉ poolInFlight st)
  /\ st1 = mkState (poolCache st) ({[key]} ∪ poolInFlight st)
  /\ (forall e, poolCache st !! key = Some e -> expiresAt e <= now).
Proof.
  unfold getAggregatedPool. intros H.
  destruct (poolCache st !! key) as [cached|] eqn:Ec.
  - destruct (Z.ltb_spec now (expiresAt cached)) as [L|L]; [discriminate|].
    case_bool_decide; [discriminate|]. injection H as <-.
    repeat split; [assumption|]. intros e [= <-]. exact L.
  - case_bool_decide; [discriminate|]. injection H as <-.
    repeat split; [assumption|]. intros e [=].
Qed.

Lemma pool_after_failure (key : string) (now0 now1 now2 : Z) (st st1 : State) :
  getAggregatedPool key now0 st = (Launched, st1) ->
  now0 <= now2 ->
  let '(r, st2) := settle key now1 Failed st1 in
  r = None
  /\ (key ∉ poolInFlight st2)
  /\ poolCache st2 = poolCache st
  /\ fst (getAggregatedPool key now2 st2) = Launched.
Proof.
  intros Hl Hmono. destruct (pool_launch _ _ _ _ Hl) as (Hnin & -> & Hexp). simpl.
  assert (Hfree : key ∉ ({[key]} ∪ poolInFlight st) ∖ ({[key]} : gset string)).
  { intros Hx. apply elem_of_difference in Hx as [_ Hx]. apply Hx. now apply elem_of_singleton. }
  split; [reflexivity|]. split; [exact Hfree|]. split; [reflexivity|].
  unfold getAggregatedPool. simpl.
  destruct (poolCache st !! key) as [cached|] eqn:Ec.
  - specialize (Hexp cached eq_refl).
    destruct (Z.ltb_spec now2 (expiresAt cached)) as [L|L]; [lia|].
    rewrite bool_decide_eq_false_2 by exact Hfree. reflexivity.
  - rewrite bool_decide_eq_false_2 by exact Hfree. reflexivity.
Qed.
End PoolCacheFacts.

Section OlCacheFacts.
Import OlCache.

Lemma ol_launch (lang title : string) (author : option string) (now now' : Z) (st st1 : State) :
  getBetterOlMatch lang title author now st = (Launched now', st1) ->
  now' = now
  /\ (keyOf lang title author ∉ olInFlight st)
  /\ st1 = mkState (olCache st) ({[keyOf lang title author]} ∪ olInFlight st).
Proof.
  unfold getBetterOlMatch. intros H.
  destruct (olCache st !! keyOf lang title author) as [cached|] eqn:Ec.
  - destruct (Z.ltb_spec now (expiresAt cached)) as [L|L]; [discriminate|].
    case_bool_decide; [discriminate|]. injection H as <- <-. repeat split; assumption.
  - case_bool_decide; [discriminate|]. injection H as <- <-. repeat split; assumption.
Qed.

Lemma ol_after_failure (lang title : string) (author : option string) (now0 : Z)
      (st st1 : State) :
  getBetterOlMatch lang title author now0 st = (Launched now0, st1) ->
  let key := keyOf lang title author in
  let '(m, st2) := settle key now0 Failed st1 in
  m = noMatch
  /\ (key ∉ olInFlight st2)
  /\ olCache st2 !! key = Some (mkEntry (now0 + 6 * 60 * 60 * 1000) noMatch)
  /\ (forall now2, now2 < now0 + 6 * 60 * 60 * 1000 ->
                   getBetterOlMatch lang title author now2 st2 = (Cached noMatch, st2))
  /\ (forall now2, now0 + 6 * 60 * 60 * 1000 <= now2 ->
                   fst (getBetterOlMatch lang title author now2 st2) = Launched now2).
Proof.
  intros Hl key. destruct (ol_launch _ _ _ _ _ _ _ Hl) as (_ & Hnin & ->). simpl.
  fold key. fold key in Hnin.
  assert (Hfree : key ∉ ({[key]} ∪ olInFlight st) ∖ ({[key]} : gset string)).
  { intros Hx. apply elem_of_difference in Hx as [_ Hx]. apply Hx. now apply elem_of_singleton. }
  split; [reflexivity|]. split; [exact Hfree|].
  split; [apply lookup_insert_eq|]. split.
  - intros now2 Hin. unfold getBetterOlMatch. simpl. fold key.
    rewrite lookup_insert_eq. simpl. unfold NEGATIVE_TTL_MS.
    destruct (Z.ltb_spec now2 (now0 + 6 * 60 * 60 * 1000)) as [L|L]; [reflexivity | lia].
  - intros now2 Hout. unfold getBetterOlMatch. simpl. fold key.
    rewrite lookup_insert_eq. simpl. unfold NEGATIVE_TTL_MS.
    destruct (Z.ltb_spec now2 (now0 + 6 * 60 * 60 * 1000)) as [L|L]; [lia|].
    rewrite bool_decide_eq_false_2 by exact Hfree. reflexivity.
Qed.
End OlCacheFacts.

(** C8 as stated fails for the enrichment cache: a lookup that fails leaves
    an empty result cached, and a call made one second later is answered from
    the cache, without a new lookup. *)
Lemma C8_enrichment_failure_is_cached :
  exists st1 st2,
    OlCache.getBetterOlMatch "en" "Dune" (Some "Frank Herbert") 1000 freshOl
    = (OlCache.Launched 1000, st1)
    /\ OlCache.settle (OlCache.keyOf "en" "Dune" (Some "Frank Herbert")) 1000 OlCache.Failed st1
       = (OlCache.noMatch, st2)
    /\ OlCache.olCache st2 !! OlCache.keyOf "en" "Dune" (Some "Frank Herbert")
       = Some (OlCache.mkEntry 21601000 OlCache.noMatch)
    /\ OlCache.getBetterOlMatch "en" "Dune" (Some "Frank Herbert") 2000 st2
       = (OlCache.Cached OlCache.noMatch, st2).
Proof.
  set (key := OlCache.keyOf "en" "Dune" (Some "Frank Herbert")).
  assert (Hl : OlCache.getBetterOlMatch "en" "Dune" (Some "Frank Herbert") 1000 freshOl
               = (OlCache.Launched 1000, OlCache.mkState ∅ ({[key]} ∪ ∅))).
  { unfold OlCache.getBetterOlMatch, freshOl. cbn [OlCache.olCache OlCache.olInFlight]. fold key.
    rewrite lookup_empty. rewrite bool_decide_eq_false_2 by apply not_elem_of_empty.
    reflexivity. }
  pose proof (ol_after_failure _ _ _ _ _ _ Hl) as H. cbv zeta in H. fold key in H.
  cbn [OlCache.settle] in H. destruct H as (_ & _ & Hc & Hhit & _).
  eexists _, _. split; [exact Hl|]. split; [reflexivity|].
  split; [exact Hc|]. apply Hhit. lia.
Qed.

(** C8, amended: in the pool cache, when the computation fails the in-flight
    entry is cleared and nothing is cached for the key, so that the next call
    with that key invokes the computation again; in the enrichment cache the
    in-flight entry is cleared as well, but an empty result is cached for the
    key for six hours: a call made within the six hours is answered with that
    empty result and invokes nothing, a call made after them invokes the
    lookup again. *)
Theorem C8_failure_and_single_flight
  (key : string) (now0 now1 now2 : Z) (pool pool1 : PoolCache.State)
  (lang title : string) (author : option string) (t0 : Z) (ol ol1 : OlCache.State) :
  PoolCache.getAggregatedPool key now0 pool = (PoolCache.Launched, pool1) ->
  now0 <= now2 ->
  OlCache.getBetterOlMatch lang title author t0 ol = (OlCache.Launched t0, ol1) ->
  (let '(r, pool2) := PoolCache.settle key now1 PoolCache.Failed pool1 in
   r = None
   /\ (key ∉ PoolCache.poolInFlight pool2)
   /\ PoolCache.poolCache pool2 = PoolCache.poolCache pool
   /\ fst (PoolCache.getAggregatedPool key now2 pool2) = PoolCache.Launched)
  /\ (let k := OlCache.keyOf lang title author in
      let '(m, ol2) := OlCache.settle k t0 OlCache.Failed ol1 in
      m = OlCache.noMatch
      /\ (k ∉ OlCache.olInFlight ol2)
      /\ OlCache.olCache ol2 !! k = Some (OlCache.mkEntry (t0 + 6 * 60 * 60 * 1000) OlCache.noMatch)
      /\ (forall t, t < t0 + 6 * 60 * 60 * 1000 ->
                    OlCache.getBetterOlMatch lang title author t ol2
                    = (OlCache.Cached OlCache.noMatch, ol2))
      /\ (forall t, t0 + 6 * 60 * 60 * 1000 <= t ->
                    fst (OlCache.getBetterOlMatch lang title author t ol2) = OlCache.Launched t)).
Proof.
  intros Hpool Hmono Hol. split.
  - exact (pool_after_failure key now0 now1 now2 pool pool1 Hpool Hmono).
  - exact (ol_after_failure lang title author t0 ol ol1 Hol).
Qed.

Lemma C8_failure_and_single_flight_witness :
  fst (PoolCache.getAggregatedPool "en:120" 9000
         (snd (PoolCache.settle "en:120" 5000 PoolCache.Failed
                 (snd (PoolCache.getAggregatedPool "en:120" 1000 freshPool)))))
  = PoolCache.Launched.
Proof.
  assert (Hp : PoolCache.getAggregatedPool "en:120" 1000 freshPool
               = (PoolCache.Launched, PoolCache.mkState ∅ ({["en:120"]} ∪ ∅))).
  { unfold PoolCache.getAggregatedPool, freshPool.
    cbn [PoolCache.poolCache PoolCache.poolInFlight].
    rewrite lookup_empty. rewrite bool_decide_eq_false_2 by apply not_elem_of_empty.
    reflexivity. }
  assert (Ho : OlCache.getBetterOlMatch "en" "Dune" None 1000 freshOl
               = (OlCache.Launched 1000,
                  OlCache.mkState ∅ ({[OlCache.keyOf "en" "Dune" None]} ∪ ∅))).
  { unfold OlCache.getBetterOlMatch, freshOl. cbn [OlCache.olCache OlCache.olInFlight].
    rewrite lookup_empty. rewrite bool_decide_eq_false_2 by apply not_elem_of_empty.
    reflexivity. }
  destruct (C8_failure_and_single_flight "en:120" 1000 5000 9000 freshPool _
              "en" "Dune" None 1000 freshOl _ Hp ltac:(lia) Ho) as [H _].
  rewrite Hp. cbn [snd]. cbn [PoolCache.settle] in H |- *.
  destruct H as (_ & _ & _ & H). exact H.
Defined.

(** ** C9: the import never downgrades a persisted row *)

Section ImportFacts.
Import CatalogImport.
Variable lang nowIso importSource : string.
Variable db : gmap string Existing.

Lemma fetchExistingByIds_lookup (ids : list string) (k : string) :
  In k ids -> fetchExistingByIds db ids !! k = db !! k.
Proof.
  intros Hin. unfold fetchExistingByIds.
  destruct (db !! k) as [e|] eqn:E.
  - apply map_lookup_filter_Some. split; [exact E|]. simpl. now apply list_elem_of_In.
  - apply map_lookup_filter_None. left. exact E.
Qed.






End ImportFacts.




(** * Properties of the further parts *)

(** ** Alphabets *)

Lemma allChars_impl (p q : ascii -> bool) (s : string) :
  (forall c, p c = true -> q c = true) -> allChars p s = true -> allChars q s = true.
Proof.
  intros Hpq. induction s as [|c r IH]; simpl; [auto|].
  intros H. apply andb_true_iff in H as [Hc Hr]. rewrite (Hpq c Hc). simpl. auto.
Qed.

Lemma allChars_trimStart (p : ascii -> bool) (s : string) :
  allChars p s = true -> allChars p (JS.trimStart s) = true.
Proof.
  induction s as [|c r IH]; simpl; [auto|].
  intros H. destruct (JS.isSpace c); [|exact H].
  apply andb_true_iff in H as [_ Hr]. auto.
Qed.

Lemma allChars_trimEnd (p : ascii -> bool) (s : string) :
  allChars p s = true -> allChars p (JS.trimEnd s) = true.
Proof.
  induction s as [|c r IH]; simpl; [auto|].
  intros H. apply andb_true_iff in H as [Hc Hr].
  destruct (JS.isSpace c && JS.isEmpty (JS.trimEnd r)); simpl; [reflexivity|].
  rewrite Hc. simpl. auto.
Qed.

Lemma allChars_trim (p : ascii -> bool) (s : string) :
  allChars p s = true -> allChars p (JS.trim s) = true.
Proof. intros H. unfold JS.trim. now apply allChars_trimEnd, allChars_trimStart. Qed.

Lemma allChars_collapseFrom (p : ascii -> bool) (b : bool) (s : string) :
  p " "%char = true -> allChars p s = true -> allChars p (JS.collapseFrom b s) = true.
Proof.
  intros Hsp. revert b. induction s as [|c r IH]; intros b; simpl; [auto|].
  intros H. apply andb_true_iff in H as [Hc Hr].
  destruct (JS.isSpace c).
  - destruct b; simpl; [|rewrite Hsp; simpl]; auto.
  - simpl. rewrite Hc. simpl. auto.
Qed.

Lemma allChars_includes (p : ascii -> bool) (s : string) (c : ascii) :
  allChars p s = true -> p c = false -> JS.includes s (String c EmptyString) = false.
Proof.
  intros Hs Hc. induction s as [|d r IH]; simpl; [reflexivity|].
  simpl in Hs. apply andb_true_iff in Hs as [Hd Hr].
  rewrite (IH Hr), orb_false_r.
  destruct (Ascii.eqb_spec c d) as [->|Hne]; [congruence|]. reflexivity.
Qed.


Lemma allChars_keepAlnumFrom (b : bool) (s : string) :
  allChars lookupChar (keepAlnumFrom b s) = true.
Proof.
  revert b. induction s as [|c r IH]; intros b; simpl; [reflexivity|].
  destruct (JS.isLower c || JS.isDigit c) eqn:E.
  - simpl. unfold lookupChar at 1. rewrite E. simpl. apply IH.
  - destruct b; simpl; apply IH.
Qed.

Lemma allChars_keepSearchFrom (b : bool) (s : string) :
  allChars searchChar (Query.keepSearchFrom b s) = true.
Proof.
  revert b. induction s as [|c r IH]; intros b; simpl; [reflexivity|].
  destruct (JS.isLetter c || JS.isDigit c || Ascii.eqb c " ") eqn:E.
  - simpl. unfold searchChar at 1. rewrite E. simpl. apply IH.
  - destruct b; simpl; apply IH.
Qed.

Lemma allChars_beforeFirst_colon (s : string) :
  allChars notColon (JS.beforeFirst ":" s) = true.
Proof.
  induction s as [|c r IH]; simpl; [reflexivity|].
  destruct (Ascii.eqb c ":") eqn:E; simpl; [reflexivity|].
  unfold notColon at 1. rewrite E. simpl. exact IH.
Qed.

(** ** X1: the lookup norm *)

(** X1: [normalizeForLookup] returns only lower-case letters, digits and
    spaces, with no white space at either end, and does not see the case of
    its argument. *)
Theorem X1_normalizeForLookup_shape (s : string) :
  allChars lookupChar (normalizeForLookup s) = true
  /\ JS.trim (normalizeForLookup s) = normalizeForLookup s
  /\ normalizeForLookup (JS.toLowerCase s) = normalizeForLookup s.
Proof.
  unfold normalizeForLookup, stripMarks, JS.collapseSpaces.
  repeat split.
  - destruct (JS.isEmpty (JS.toLowerCase (JS.trim s))); [reflexivity|].
    apply allChars_trim, allChars_collapseFrom; [reflexivity | apply allChars_keepAlnumFrom].
  - destruct (JS.isEmpty (JS.toLowerCase (JS.trim s))); [reflexivity | apply trim_idem].
  - now rewrite trim_toLowerCase, toLowerCase_idem.
Qed.

(** ** X2: the displayed title *)

Lemma normalizeMainTitle_no_colon (title : string) :
  JS.includes (normalizeMainTitle title) ":" = false.
Proof.
  unfold normalizeMainTitle, JS.collapseSpaces.
  destruct (JS.isEmpty (normalizeTitle title)); [reflexivity|].
  apply (allChars_includes notColon); [|reflexivity].
  apply allChars_trim, allChars_collapseFrom; [reflexivity | apply allChars_beforeFirst_colon].
Qed.

Lemma normalizeMainTitle_trimmed (title : string) :
  JS.trim (normalizeMainTitle title) = normalizeMainTitle title.
Proof.
  unfold normalizeMainTitle, JS.collapseSpaces.
  destruct (JS.isEmpty (normalizeTitle title)); [reflexivity | apply trim_idem].
Qed.

(** X2: the title that [normalizeMainTitle] returns holds no colon and has no
    white space at either end. *)
Theorem X2_normalizeMainTitle_shape (title : string) :
  JS.includes (normalizeMainTitle title) ":" = false
  /\ JS.trim (normalizeMainTitle title) = normalizeMainTitle title.
Proof.
  split; [apply normalizeMainTitle_no_colon | apply normalizeMainTitle_trimmed].
Qed.

(** ** X3: the search key *)

(** X3: the key that [normalizeSearchKey] builds for the [ilike] pattern
    holds letters, digits and spaces only, so none of the characters that
    mean something in a filter string (comma, parentheses, percent sign,
    dot, asterisk). *)
Theorem X3_normalizeSearchKey_safe (q : string) :
  allChars searchChar (Query.normalizeSearchKey q) = true
  /\ JS.includes (Query.normalizeSearchKey q) "," = false
  /\ JS.includes (Query.normalizeSearchKey q) "(" = false
  /\ JS.includes (Query.normalizeSearchKey q) ")" = false
  /\ JS.includes (Query.normalizeSearchKey q) "%" = false
  /\ JS.includes (Query.normalizeSearchKey q) "." = false
  /\ JS.includes (Query.normalizeSearchKey q) "*" = false.
Proof.
  assert (H : allChars searchChar (Query.normalizeSearchKey q) = true).
  { unfold Query.normalizeSearchKey, JS.collapseSpaces.
    apply allChars_trim, allChars_collapseFrom; [reflexivity | apply allChars_keepSearchFrom]. }
  split; [exact H|].
  repeat split; apply (allChars_includes searchChar); auto.
Qed.

(** ** X4: the catalog norm is idempotent *)




(** ** X5: the language of a request *)

Lemma lowerChar_separator (c : ascii) :
  (Ascii.eqb (JS.lowerChar c) "-" || Ascii.eqb (JS.lowerChar c) "_")
  = (Ascii.eqb c "-" || Ascii.eqb c "_").
Proof. destruct c as [[] [] [] [] [] [] [] []]; reflexivity. Qed.

Lemma primaryTag_toLowerCase (s : string) :
  JS.toLowerCase (Query.primaryTag (JS.toLowerCase s)) = Query.primaryTag (JS.toLowerCase s).
Proof.
  induction s as [|c r IH]; simpl; [reflexivity|].
  rewrite lowerChar_separator.
  destruct (Ascii.eqb c "-" || Ascii.eqb c "_"); simpl; [reflexivity|].
  now rewrite lowerChar_idem, IH.
Qed.

Lemma allChars_primaryTag (s : string) :
  allChars notTagSeparator (Query.primaryTag s) = true.
Proof.
  induction s as [|c r IH]; simpl; [reflexivity|].
  destruct (Ascii.eqb c "-" || Ascii.eqb c "_") eqn:E; simpl; [reflexivity|].
  unfold notTagSeparator at 1. rewrite E. exact IH.
Qed.

Lemma primaryTag_prefix (s : string) : JS.startsWith (Query.primaryTag s) s = true.
Proof.
  induction s as [|c r IH]; simpl; [reflexivity|].
  destruct (Ascii.eqb c "-" || Ascii.eqb c "_"); simpl; [reflexivity|].
  now rewrite Ascii.eqb_refl.
Qed.

Lemma normalizeLang_shape (input : option string) (l : string) :
  Query.normalizeLang input = Some l ->
  l <> EmptyString /\ JS.toLowerCase l = l /\ allChars notTagSeparator l = true
  /\ exists s, input = Some s /\ JS.startsWith l (JS.toLowerCase (JS.trim s)) = true.
Proof.
  unfold Query.normalizeLang. destruct input as [s|]; [|discriminate]. cbn zeta.
  destruct (JS.isEmpty (JS.toLowerCase (JS.trim s))); [discriminate|].
  destruct (JS.isEmpty (Query.primaryTag (JS.toLowerCase (JS.trim s)))) eqn:E; [discriminate|].
  intros H. injection H as <-. repeat split.
  - intros H. rewrite H in E. discriminate.
  - apply primaryTag_toLowerCase.
  - apply allChars_primaryTag.
  - exists s. split; [reflexivity | apply primaryTag_prefix].
Qed.

(** X5: the language that the handlers work with is never empty, is in lower
    case and holds no hyphen and no underscore, whatever the [lang]
    parameter and the user's setting are. *)
Theorem X5_request_language (req : Query.Request) :
  Query.langOf req <> EmptyString
  /\ JS.toLowerCase (Query.langOf req) = Query.langOf req
  /\ allChars notTagSeparator (Query.langOf req) = true.
Proof.
  unfold Query.langOf, Query.nullish.
  destruct (Query.normalizeLang (Query.q_lang req)) as [l|] eqn:E1.
  - destruct (normalizeLang_shape _ _ E1) as (H1 & H2 & H3 & _). auto.
  - destruct (Query.normalizeLang (Query.userLanguage req)) as [l|] eqn:E2.
    + destruct (normalizeLang_shape _ _ E2) as (H1 & H2 & H3 & _). auto.
    + repeat split; auto; discriminate.
Qed.

(** ** X6, X7: single flight and time to live of the two caches *)

Section PoolCacheSuccess.
Import PoolCache.

Lemma pool_joined (key : string) (now0 t : Z) (st st1 : State) :
  getAggregatedPool key now0 st = (Launched, st1) ->
  now0 <= t ->
  getAggregatedPool key t st1 = (Joined, st1).
Proof.
  intros Hl Ht. destruct (pool_launch _ _ _ _ Hl) as (_ & -> & Hexp).
  unfold getAggregatedPool. cbn [poolCache poolInFlight].
  assert (Hin : key ∈ ({[key]} ∪ poolInFlight st : gset string)).
  { apply elem_of_union. left. now apply elem_of_singleton. }
  destruct (poolCache st !! key) as [cached|] eqn:Ec.
  - specialize (Hexp cached eq_refl).
    destruct (Z.ltb_spec t (expiresAt cached)) as [L|L]; [lia|].
    now rewrite bool_decide_eq_true_2 by exact Hin.
  - now rewrite bool_decide_eq_true_2 by exact Hin.
Qed.

Lemma pool_after_success (key : string) (now0 now1 : Z) (st st1 : State) (d : AggregatedPool) :
  getAggregatedPool key now0 st = (Launched, st1) ->
  let '(r, st2) := settle key now1 (Fulfilled d) st1 in
  r = Some d
  /\ (key ∉ poolInFlight st2)
  /\ (forall t, t < now1 + 10 * 60 * 1000 -> getAggregatedPool key t st2 = (Cached d, st2))
  /\ (forall t, now1 + 10 * 60 * 1000 <= t -> fst (getAggregatedPool key t st2) = Launched).
Proof.
  intros Hl. destruct (pool_launch _ _ _ _ Hl) as (_ & -> & _). simpl.
  assert (Hfree : key ∉ ({[key]} ∪ poolInFlight st) ∖ ({[key]} : gset string)).
  { intros Hx. apply elem_of_difference in Hx as [_ Hx]. apply Hx. now apply elem_of_singleton. }
  split; [reflexivity|]. split; [exact Hfree|]. split.
  - intros t Ht. unfold getAggregatedPool. simpl. rewrite lookup_insert_eq. simpl.
    unfold CACHE_TTL_MS.
    destruct (Z.ltb_spec t (now1 + 10 * 60 * 1000)) as [L|L]; [reflexivity | lia].
  - intros t Ht. unfold getAggregatedPool. simpl. rewrite lookup_insert_eq. simpl.
    unfold CACHE_TTL_MS.
    destruct (Z.ltb_spec t (now1 + 10 * 60 * 1000)) as [L|L]; [lia|].
    rewrite bool_decide_eq_false_2 by exact Hfree. reflexivity.
Qed.
End PoolCacheSuccess.

(** X6: while the pool of a key is being computed, every further call of
    [getAggregatedPool] for that key joins the computation in flight and
    starts none; once the computation has succeeded at time [now1], the
    in-flight entry is gone, calls made less than ten minutes after [now1]
    are answered with the computed pool from the cache without any change of
    state, and a call made ten minutes after [now1] or later computes
    again. *)
Theorem X6_pool_single_flight_and_ttl
  (key : string) (now0 now1 t : Z) (st st1 : PoolCache.State) (d : PoolCache.AggregatedPool) :
  PoolCache.getAggregatedPool key now0 st = (PoolCache.Launched, st1) ->
  now0 <= t ->
  PoolCache.getAggregatedPool key t st1 = (PoolCache.Joined, st1)
  /\ (let '(r, st2) := PoolCache.settle key now1 (PoolCache.Fulfilled d) st1 in
      r = Some d
      /\ (key ∉ PoolCache.poolInFlight st2)
      /\ (forall t', t' < now1 + 10 * 60 * 1000 ->
                     PoolCache.getAggregatedPool key t' st2 = (PoolCache.Cached d, st2))
      /\ (forall t', now1 + 10 * 60 * 1000 <= t' ->
                     fst (PoolCache.getAggregatedPool key t' st2) = PoolCache.Launched)).
Proof.
  intros Hl Ht. split.
  - exact (pool_joined key now0 t st st1 Hl Ht).
  - exact (pool_after_success key now0 now1 st st1 d Hl).
Qed.

Lemma X6_pool_single_flight_and_ttl_witness :
  PoolCache.getAggregatedPool "en:120" 2000 (PoolCache.mkState ∅ ({["en:120"]} ∪ ∅))
  = (PoolCache.Joined, PoolCache.mkState ∅ ({["en:120"]} ∪ ∅)).
Proof.
  assert (Hp : PoolCache.getAggregatedPool "en:120" 1000 freshPool
               = (PoolCache.Launched, PoolCache.mkState ∅ ({["en:120"]} ∪ ∅))).
  { unfold PoolCache.getAggregatedPool, freshPool.
    cbn [PoolCache.poolCache PoolCache.poolInFlight].
    rewrite lookup_empty. rewrite bool_decide_eq_false_2 by apply not_elem_of_empty.
    reflexivity. }
  exact (proj1 (X6_pool_single_flight_and_ttl "en:120" 1000 5000 2000 freshPool _ samplePool
                  Hp ltac:(lia))).
Defined.

Section OlCacheSuccess.
Import OlCache.

Lemma ol_launch_expired (lang title : string) (author : option string) (now : Z) (st st1 : State) :
  getBetterOlMatch lang title author now st = (Launched now, st1) ->
  forall e, olCache st !! keyOf lang title author = Some e -> expiresAt e <= now.
Proof.
  unfold getBetterOlMatch. intros H e He. rewrite He in H.
  destruct (Z.ltb_spec now (expiresAt e)) as [L|L]; [discriminate | exact L].
Qed.

Lemma ol_joined (lang title : string) (author : option string) (now0 t : Z) (st st1 : State) :
  getBetterOlMatch lang title author now0 st = (Launched now0, st1) ->
  now0 <= t ->
  getBetterOlMatch lang title author t st1 = (Joined, st1).
Proof.
  intros Hl Ht. pose proof (ol_launch_expired _ _ _ _ _ _ Hl) as Hexp.
  destruct (ol_launch _ _ _ _ _ _ _ Hl) as (_ & _ & ->).
  unfold getBetterOlMatch. cbn [olCache olInFlight].
  set (key := keyOf lang title author) in *.
  assert (Hin : key ∈ ({[key]} ∪ olInFlight st : gset string)).
  { apply elem_of_union. left. now apply elem_of_singleton. }
  destruct (olCache st !! key) as [cached|] eqn:Ec.
  - specialize (Hexp cached eq_refl).
    destruct (Z.ltb_spec t (expiresAt cached)) as [L|L]; [lia|].
    now rewrite bool_decide_eq_true_2 by exact Hin.
  - now rewrite bool_decide_eq_true_2 by exact Hin.
Qed.

Lemma ol_after_success (lang title : string) (author : option string) (now0 : Z)
      (st st1 : State) (m : Match) :
  getBetterOlMatch lang title author now0 st = (Launched now0, st1) ->
  let key := keyOf lang title author in
  let stored := mkMatch (orNull (coverUrl m)) (orNull (OlCache.author m)) (orNull (OlCache.title m)) in
  let '(r, st2) := settle key now0 (Fulfilled m) st1 in
  r = m
  /\ (key ∉ olInFlight st2)
  /\ (forall t, t < now0 + 30 * 24 * 60 * 60 * 1000 ->
                getBetterOlMatch lang title author t st2 = (Cached stored, st2))
  /\ (forall t, now0 + 30 * 24 * 60 * 60 * 1000 <= t ->
                fst (getBetterOlMatch lang title author t st2) = Launched t).
Proof.
  intros Hl key stored. destruct (ol_launch _ _ _ _ _ _ _ Hl) as (_ & _ & ->). simpl.
  fold key.
  assert (Hfree : key ∉ ({[key]} ∪ olInFlight st) ∖ ({[key]} : gset string)).
  { intros Hx. apply elem_of_difference in Hx as [_ Hx]. apply Hx. now apply elem_of_singleton. }
  split; [reflexivity|]. split; [exact Hfree|]. split.
  - intros t Ht. unfold getBetterOlMatch. simpl. fold key.
    rewrite lookup_insert_eq. simpl. unfold COVER_CACHE_TTL_MS.
    destruct (Z.ltb_spec t (now0 + 30 * 24 * 60 * 60 * 1000)) as [L|L]; [reflexivity | lia].
  - intros t Ht. unfold getBetterOlMatch. simpl. fold key.
    rewrite lookup_insert_eq. simpl. unfold COVER_CACHE_TTL_MS.
    destruct (Z.ltb_spec t (now0 + 30 * 24 * 60 * 60 * 1000)) as [L|L]; [lia|].
    rewrite bool_decide_eq_false_2 by exact Hfree. reflexivity.
Qed.
End OlCacheSuccess.

(** X7: while an Open Library lookup for a key is pending, every further call
    of [getBetterOlMatch] with that key returns the pending promise and
    starts no lookup; once the lookup has succeeded, the launching call gets
    the match as found, the in-flight entry is gone, and for thirty days
    counted from the time the call was made (not from the time the lookup
    ended) calls with that key are answered from the cache, with every empty
    field of the match turned into [null]; after the thirty days the lookup
    is made again. *)
Theorem X7_enrichment_single_flight_and_ttl
  (lang title : string) (author : option string) (now0 t : Z)
  (st st1 : OlCache.State) (m : OlCache.Match) :
  OlCache.getBetterOlMatch lang title author now0 st = (OlCache.Launched now0, st1) ->
  now0 <= t ->
  OlCache.getBetterOlMatch lang title author t st1 = (OlCache.Joined, st1)
  /\ (let key := OlCache.keyOf lang title author in
      let stored := OlCache.mkMatch (OlCache.orNull (OlCache.coverUrl m))
                                    (OlCache.orNull (OlCache.author m))
                                    (OlCache.orNull (OlCache.title m)) in
      let '(r, st2) := OlCache.settle key now0 (OlCache.Fulfilled m) st1 in
      r = m
      /\ (key ∉ OlCache.olInFlight st2)
      /\ (forall t', t' < now0 + 30 * 24 * 60 * 60 * 1000 ->
                     OlCache.getBetterOlMatch lang title author t' st2
                     = (OlCache.Cached stored, st2))
      /\ (forall t', now0 + 30 * 24 * 60 * 60 * 1000 <= t' ->
                     fst (OlCache.getBetterOlMatch lang title author t' st2)
                     = OlCache.Launched t')).
Proof.
  intros Hl Ht. split.
  - exact (ol_joined lang title author now0 t st st1 Hl Ht).
  - exact (ol_after_success lang title author now0 st st1 m Hl).
Qed.

Lemma X7_enrichment_single_flight_and_ttl_witness :
  OlCache.getBetterOlMatch "en" "Dune" None 2000
    (OlCache.mkState ∅ ({[OlCache.keyOf "en" "Dune" None]} ∪ ∅))
  = (OlCache.Joined, OlCache.mkState ∅ ({[OlCache.keyOf "en" "Dune" None]} ∪ ∅)).
Proof.
  assert (Ho : OlCache.getBetterOlMatch "en" "Dune" None 1000 freshOl
               = (OlCache.Launched 1000,
                  OlCache.mkState ∅ ({[OlCache.keyOf "en" "Dune" None]} ∪ ∅))).
  { unfold OlCache.getBetterOlMatch, freshOl. cbn [OlCache.olCache OlCache.olInFlight].
    rewrite lookup_empty. rewrite bool_decide_eq_false_2 by apply not_elem_of_empty.
    reflexivity. }
  exact (proj1 (X7_enrichment_single_flight_and_ttl "en" "Dune" None 1000 2000 freshOl _
                  sampleMatch Ho ltac:(lia))).
Defined.

(** ** X8: the rows of a synchronization are well formed *)

Lemma toRow_wellFormed (lang nowIso : string) (b : ApiEbook.t) :
  syncKeeps b = true -> rowWellFormed (toRow lang nowIso b).
Proof.
  unfold syncKeeps, hasResolvedAuthor. cbn zeta. intros H.
  apply andb_prop in H as [H1 H2]. apply andb_prop in H2 as [_ H2].
  apply negb_true_iff in H1. apply orb_false_elim in H1 as [H1 Hd].
  apply orb_false_elim in H1 as [Ht Ha].
  apply negb_true_iff in H2.
  unfold rowWellFormed, toRow. cbn [Row.title Row.author Row.download_url Row.category
                                   Row.cover_url Row.source_popularity].
  repeat split.
  - now apply isEmpty_false.
  - apply trim_idem.
  - now apply isEmpty_false.
  - apply trim_idem.
  - intros E. rewrite E in H2. discriminate.
  - now apply isEmpty_false.
  - destruct (JS.isEmpty (JS.trim (JS.orElse (Some (ApiEbook.category b)) "Fiction"))) eqn:E;
      [discriminate | now apply isEmpty_false].
  - unfold hasCover, JS.truthy.
    destruct (ApiEbook.coverUrl b) as [[|c s]|]; simpl; discriminate.
  - intros p. destruct (ApiEbook._popularity b); intros [= <-]. lia.
Qed.

Lemma fold_dedupeStep_from (lang : string) (all : list ApiEbook.t)
      (m : list (string * ApiEbook.t)) (k : string) (b : ApiEbook.t) :
  In (k, b) (fold_left (dedupeStep lang) all m) -> In (k, b) m \/ In b all.
Proof.
  revert m. induction all as [|x rest IH]; intros m; simpl; [now left|].
  intros H. destruct (IH _ H) as [Hin|Hin]; [|right; now right].
  unfold dedupeStep in Hin. destruct (syncKeeps x); simpl in Hin; [|now left].
  destruct (mapGet (candidateId lang x) m) as [prev|] eqn:Hg.
  - apply In_mapSet in Hin as [[-> ->]|Hin]; [|now left].
    destruct (pickBetterCandidate_cases prev x) as [->| ->].
    + left. now apply mapGet_Some_In.
    + right. now left.
  - apply In_mapSet in Hin as [[-> ->]|Hin]; [right; now left | now left].
Qed.

(** X8: every row that a synchronization hands to the upsert is built by
    [toRow] from one of the candidates that pass the guard, carries the time
    of the run in both time stamps, and is well formed: title and author are
    trimmed and not empty, the author is not ["unknown"] in any case, the
    download link and the category are not empty, the cover link is absent
    rather than empty, and the popularity is not negative.  The guard of the
    second loop drops nothing: there is one row for each key of the merged
    set. *)
Theorem X8_sync_rows_well_formed (lang nowIso : string) (all : list ApiEbook.t) :
  Forall (fun r => rowWellFormed r
                   /\ Row.updated_at r = nowIso /\ Row.last_seen_at r = nowIso
                   /\ exists b, In b all /\ syncKeeps b = true /\ r = toRow lang nowIso b)
         (syncRows lang nowIso all)
  /\ length (syncRows lang nowIso all) = length (mapKeys (dedupeAll lang all)).
Proof.
  rewrite syncRows_eq. split.
  - apply Forall_forall. intros r Hr. apply list_elem_of_In in Hr.
    apply in_map_iff in Hr as [b [<- Hb]].
    unfold mapValues in Hb. apply in_map_iff in Hb as [[k x] [Hx Hin]]. simpl in Hx. subst x.
    destruct (dedupeAll_ok lang all) as [_ Hall]. destruct (Hall _ _ Hin) as [Hk _].
    split; [now apply toRow_wellFormed|]. split; [reflexivity|]. split; [reflexivity|].
    exists b. split; [|split; [exact Hk | reflexivity]].
    unfold dedupeAll in Hin. now destruct (fold_dedupeStep_from _ _ _ _ _ Hin) as [[]|].
  - unfold mapValues, mapKeys. now rewrite !length_map.
Qed.

(** ** X9: the batches of the upsert and of the import *)

Lemma chunksOf_nil {A : Type} (fuel n : nat) : chunksOf fuel n (@nil A) = [].
Proof. destruct fuel; reflexivity. Qed.

Lemma chunksOf_sizes {A : Type} (n fuel : nat) (l : list A) :
  (0 < n)%nat -> Forall (fun c => (1 <= length c <= n)%nat) (chunksOf fuel n l).
Proof.
  intros Hn. revert l. induction fuel as [|fuel IH]; intros l; simpl; [constructor|].
  destruct l as [|x r]; [constructor|]. constructor; [|apply IH].
  rewrite length_firstn. simpl. lia.
Qed.

Lemma chunksOf_count {A : Type} (n fuel : nat) (l : list A) :
  (0 < n)%nat -> (length l <= fuel)%nat ->
  (length l <= length (chunksOf fuel n l) * n < length l + n)%nat.
Proof.
  intros Hn. revert l. induction fuel as [|fuel IH]; intros l Hl.
  - destruct l; simpl in *; lia.
  - destruct l as [|x r]; [simpl; lia|].
    change (chunksOf (S fuel) n (x :: r))
      with (firstn n (x :: r) :: chunksOf fuel n (skipn n (x :: r))).
    assert (Hs : (length (skipn n (x :: r)) = length (x :: r) - n)%nat) by apply length_skipn.
    specialize (IH (skipn n (x :: r))).
    remember (skipn n (x :: r)) as rest. remember (chunksOf fuel n rest) as cs.
    cbn [length] in *.
    destruct (length cs) as [|k]; [lia|].
    assert (n <= S k * n)%nat by (simpl; lia). lia.
Qed.

Lemma chunksOf_lookup {A : Type} (n fuel : nat) (l : list A) (i : nat) (c : list A) :
  chunksOf fuel n l !! i = Some c -> c = firstn n (skipn (i * n) l).
Proof.
  revert l i. induction fuel as [|fuel IH]; intros l i; simpl; [discriminate|].
  destruct l as [|x r]; [discriminate|].
  destruct i as [|i].
  - simpl. now intros [= <-].
  - intros H. apply IH in H. rewrite H, skipn_skipn. f_equal. f_equal. lia.
Qed.

(** X9: [upsertCatalogItems] sends the rows in batches of 400 and the import
    reads the stored rows in batches of 200: the batches, put end to end,
    are the rows in their order; batch number [i] is
    [rows.slice(i * size, i * size + size)]; no batch is empty and none is
    longer than the size; and there are as many batches as the size demands
    and no more. *)
Theorem X9_batches (rows : list Row.t) :
  let sent := chunksOf (length rows) 400 rows in
  let read := chunksOf (length rows) 200 rows in
  (concat sent = rows
   /\ Forall (fun c => (1 <= length c <= 400)%nat) sent
   /\ (forall i c, sent !! i = Some c -> c = firstn 400 (skipn (i * 400) rows))
   /\ (length rows <= length sent * 400 < length rows + 400)%nat)
  /\ (concat read = rows
      /\ Forall (fun c => (1 <= length c <= 200)%nat) read
      /\ (forall i c, read !! i = Some c -> c = firstn 200 (skipn (i * 200) rows))
      /\ (length rows <= length read * 200 < length rows + 200)%nat).
Proof.
  cbv zeta. split.
  - split; [apply chunksOf_concat; lia|].
    split; [apply chunksOf_sizes; lia|].
    split; [intros i c; apply chunksOf_lookup | apply chunksOf_count; lia].
  - split; [apply chunksOf_concat; lia|].
    split; [apply chunksOf_sizes; lia|].
    split; [intros i c; apply chunksOf_lookup | apply chunksOf_count; lia].
Qed.

(** ** X10: interleaving the sources *)

Section InterleaveFacts.
Import Interleave.
Variable lang : string.
Variable pool : Z.

Lemma has_In (seen : list string) (k : string) : has seen k = true <-> In k seen.
Proof.
  unfold has. rewrite existsb_exists. split.
  - intros [x [Hin Hx]]. apply String.eqb_eq in Hx. now subst.
  - intros Hin. exists k. split; [exact Hin | apply String.eqb_refl].
Qed.

Lemma takeNext_spec (seen : list string) (l : list ApiEbook.t) :
  match takeNext lang seen l with
  | (Some b, rest) =>
      In b l /\ ApiEbook.language b = lang /\ ~ In (dedupeKey b) seen
      /\ (forall x, In x rest -> In x l)
      /\ (forall x, In x l -> ApiEbook.language x = lang ->
                    In (dedupeKey x) (seen ++ [dedupeKey b]) \/ In x rest)
  | (None, rest) =>
      rest = [] /\ (forall x, In x l -> ApiEbook.language x = lang -> In (dedupeKey x) seen)
  end.
Proof.
  induction l as [|b r IH]; simpl.
  - split; [reflexivity | intros x []].
  - destruct (String.eqb_spec (ApiEbook.language b) lang) as [El|El]; simpl.
    + destruct (has seen (dedupeKey b)) eqn:Eh.
      * apply has_In in Eh.
        destruct (takeNext lang seen r) as [[b'|] rest].
        -- destruct IH as (H1 & H2 & H3 & H4 & H5). repeat split; auto.
           intros x [<-|Hx] Hl; [left; apply in_or_app; now left | now apply H5].
        -- destruct IH as (H1 & H2). split; [exact H1|].
           intros x [<-|Hx] Hl; [exact Eh | now apply H2].
      * repeat split; auto.
        -- intros Hin. apply has_In in Hin. congruence.
        -- intros x [<-|Hx] Hl; [left; apply in_or_app; right; now left | now right].
    + destruct (takeNext lang seen r) as [[b'|] rest].
      * destruct IH as (H1 & H2 & H3 & H4 & H5). repeat split; auto.
        intros x [<-|Hx] Hl; [contradiction | now apply H5].
      * destruct IH as (H1 & H2). split; [exact H1|].
        intros x [<-|Hx] Hl; [contradiction | now apply H2].
Qed.

Lemma pass_spec (orig : list (list ApiEbook.t)) (ls done : list (list ApiEbook.t)) (st : State) :
  interleaved lang pool orig (done ++ ls) (out st) (seen st) ->
  let '(ls', st') := pass lang pool ls st in
  interleaved lang pool orig (done ++ ls') (out st') (seen st')
  /\ (progressed st' = false ->
      progressed st = false
      /\ (Z.of_nat (length (out st)) < pool -> Forall (fun l => l = []) ls'))
  /\ (progressed st' = true ->
      progressed st = true \/ (length (out st) < length (out st'))%nat)
  /\ (length (out st) <= length (out st'))%nat.
Proof.
  revert done st. induction ls as [|l others IH]; intros done st Hinv; simpl.
  - split; [exact Hinv|]. split; [|split; [now left | lia]].
    intros Hp. split; [exact Hp | constructor].
  - destruct (Z.ltb_spec (Z.of_nat (length (out st))) pool) as [Hlt|Hge].
    + pose proof (takeNext_spec (seen st) l) as Ht.
      destruct (takeNext lang (seen st) l) as [[b|] rest].
      * destruct Ht as (Hb & Hbl & Hbs & Hrest & Hcov).
        destruct Hinv as (Hs & Hnd & Hl & Ho & Hr & Hc & Hlen).
        assert (Hinv' : interleaved lang pool orig ((done ++ [rest]) ++ others)
                          (out st ++ [b]) (seen st ++ [dedupeKey b])).
        { unfold interleaved. repeat split.
          - now rewrite map_app, Hs.
          - apply NoDup_app. split; [exact Hnd|]. split; [|apply NoDup_singleton].
            intros x Hx Hx'. apply list_elem_of_singleton in Hx'. subst x.
            apply Hbs. now apply list_elem_of_In.
          - apply Forall_app. split; [exact Hl | now constructor].
          - intros x Hx. apply in_app_or in Hx as [Hx|[<-|[]]]; [now apply Ho|].
            apply Hr. rewrite concat_app. apply in_or_app. right. simpl. apply in_or_app. now left.
          - intros x Hx. apply Hr. rewrite !concat_app in Hx. rewrite concat_app. simpl in *.
            rewrite app_nil_r in Hx.
            apply in_app_or in Hx as [Hx|Hx].
            + apply in_app_or in Hx as [Hx|Hx]; [apply in_or_app; now left|].
              apply in_or_app. right. apply in_or_app. left. now apply Hrest.
            + apply in_or_app. right. apply in_or_app. now right.
          - intros x Hx Hxl. destruct (Hc x Hx Hxl) as [Hin|Hin].
            + left. apply in_or_app. now left.
            + rewrite concat_app in Hin. simpl in Hin.
              rewrite !concat_app. simpl. rewrite app_nil_r.
              apply in_app_or in Hin as [Hin|Hin]; [right; apply in_or_app; left; apply in_or_app; now left|].
              apply in_app_or in Hin as [Hin|Hin].
              * destruct (Hcov x Hin Hxl) as [Hk|Hk]; [now left|].
                right. apply in_or_app. left. apply in_or_app. now right.
              * right. apply in_or_app. now right.
          - rewrite length_app. simpl. lia. }
        specialize (IH (done ++ [rest]) (mkState (out st ++ [b]) (seen st ++ [dedupeKey b]) true) Hinv').
        destruct (pass lang pool others (mkState (out st ++ [b]) (seen st ++ [dedupeKey b]) true))
          as [others' st'].
        destruct IH as (Hi & Hp & Hq & Hm). simpl in Hp, Hq, Hm. rewrite length_app in Hm. simpl in Hm.
        rewrite <- app_assoc in Hi. simpl in Hi.
        split; [exact Hi|]. split; [|split; [|lia]].
        -- intros Hf. destruct (Hp Hf) as [Habs _]. discriminate.
        -- intros _. right. lia.
      * destruct Ht as (-> & Hcov).
        assert (Hinv' : interleaved lang pool orig ((done ++ [[]]) ++ others) (out st) (seen st)).
        { destruct Hinv as (Hs & Hnd & Hl & Ho & Hr & Hc & Hlen).
          unfold interleaved. repeat split; auto.
          - intros x Hx. apply Hr. rewrite !concat_app in Hx. rewrite concat_app. simpl in *.
            rewrite app_nil_r in Hx.
            apply in_app_or in Hx as [Hx|Hx]; apply in_or_app; [now left|].
            right. apply in_or_app. now right.
          - intros x Hx Hxl. destruct (Hc x Hx Hxl) as [Hin|Hin]; [now left|].
            rewrite concat_app in Hin. simpl in Hin.
            rewrite !concat_app. simpl. rewrite app_nil_r.
            apply in_app_or in Hin as [Hin|Hin]; [right; apply in_or_app; now left|].
            apply in_app_or in Hin as [Hin|Hin]; [left; now apply Hcov|].
            right. apply in_or_app. now right. }
        specialize (IH (done ++ [[]]) st Hinv').
        destruct (pass lang pool others st) as [others' st'].
        destruct IH as (Hi & Hp & Hq & Hm).
        rewrite <- app_assoc in Hi. simpl in Hi.
        split; [exact Hi|]. split; [|split; [exact Hq | exact Hm]].
        intros Hf. destruct (Hp Hf) as [Hp1 Hp2]. split; [exact Hp1|].
        intros _. constructor; [reflexivity | now apply Hp2].
    + split; [exact Hinv|]. split; [|split; [now left | lia]].
      intros Hp. split; [exact Hp | lia].
Qed.

Lemma rounds_spec (orig : list (list ApiEbook.t)) (fuel : nat) (lists : list (list ApiEbook.t))
      (out0 : list ApiEbook.t) (seen0 : list string) :
  interleaved lang pool orig lists out0 seen0 ->
  pool <= Z.of_nat fuel + Z.of_nat (length out0) ->
  exists rest seen1,
    interleaved lang pool orig rest (rounds fuel lang pool lists out0 seen0) seen1
    /\ (Z.of_nat (length (rounds fuel lang pool lists out0 seen0)) < pool ->
        Forall (fun l => l = []) rest).
Proof.
  revert lists out0 seen0. induction fuel as [|fuel IH]; intros lists out0 seen0 Hinv Hfuel; simpl.
  - exists lists, seen0. split; [exact Hinv | lia].
  - destruct (Z.ltb_spec (Z.of_nat (length out0)) pool) as [Hlt|Hge].
    + pose proof (pass_spec orig lists [] (mkState out0 seen0 false) Hinv) as Hp.
      destruct (pass lang pool lists (mkState out0 seen0 false)) as [lists' st].
      simpl in Hp. destruct Hp as (Hi & Hf & Ht & Hm).
      destruct (progressed st) eqn:Ep; simpl.
      * apply IH; [exact Hi|]. destruct (Ht eq_refl) as [Habs|Hgrow]; [discriminate | lia].
      * exists lists', (seen st). split; [exact Hi|]. intros _. now apply Hf.
    + exists lists, seen0. split; [exact Hinv | lia].
Qed.

Lemma concat_all_nil {A : Type} (ls : list (list A)) :
  Forall (fun l => l = []) ls -> concat ls = [].
Proof. induction 1 as [|l r -> _ IH]; simpl; auto. Qed.
End InterleaveFacts.

(** X10: [mergeInterleaved] returns at most [pool] books, all of them in the
    language asked for and taken from the lists given, no two with the same
    [dedupeKey]; and it stops short of [pool] only when the lists are
    exhausted: then every book of that language in the lists has its key
    among those of the books returned. *)
Theorem X10_mergeInterleaved (lang : string) (lists : list (list ApiEbook.t)) (pool : Z) :
  let merged := Interleave.mergeInterleaved lang lists pool in
  Z.of_nat (length merged) <= Z.max 0 pool
  /\ NoDup (map dedupeKey merged)
  /\ Forall (fun b => ApiEbook.language b = lang /\ In b (concat lists)) merged
  /\ (Z.of_nat (length merged) < pool ->
      forall b, In b (concat lists) -> ApiEbook.language b = lang ->
                In (dedupeKey b) (map dedupeKey merged)).
Proof.
  cbv zeta. unfold Interleave.mergeInterleaved.
  assert (H0 : interleaved lang pool lists lists [] []).
  { unfold interleaved. repeat split; auto; try constructor.
    - intros b [].
    - simpl. lia. }
  destruct (rounds_spec lang pool lists (Z.to_nat pool) lists [] [] H0) as (rest & seen1 & Hinv & Hend).
  { simpl. lia. }
  destruct Hinv as (Hs & Hnd & Hl & Ho & Hr & Hc & Hlen).
  split; [exact Hlen|]. split; [now rewrite <- Hs|]. split.
  - apply Forall_forall. intros b Hb. split.
    + rewrite Forall_forall in Hl. now apply Hl.
    + apply Ho. now apply list_elem_of_In.
  - intros Hshort b Hb Hbl. rewrite <- Hs.
    destruct (Hc b Hb Hbl) as [Hin|Hin]; [exact Hin|].
    rewrite (concat_all_nil _ (Hend Hshort)) in Hin. destruct Hin.
Qed.

(** ** X11, X12: the shelves of the aggregated response *)

Section ResponseFacts.
Import Response.

Lemma booksOfCategory_snoc (cat : string) (seen : list ApiEbook.t) (b : ApiEbook.t) :
  booksOfCategory cat (seen ++ [b])
  = booksOfCategory cat seen ++ (if String.eqb (categoryOfBook b) cat then [b] else []).
Proof. unfold booksOfCategory. now rewrite List.filter_app. Qed.

Lemma groupStep_grouped (seen : list ApiEbook.t) (m : list (string * list ApiEbook.t))
      (b : ApiEbook.t) :
  grouped seen m ->
  (forall x, In x seen -> inherited (categoryOfBook x) = false) ->
  if inherited (categoryOfBook b) then groupStep (Some m) b = None
  else exists m', groupStep (Some m) b = Some m' /\ grouped (seen ++ [b]) m'.
Proof.
  intros [Hnd Hget] Hseen. unfold groupStep. cbn zeta.
  pose proof (Hget (categoryOfBook b)) as Hc.
  destruct (inherited (categoryOfBook b)) eqn:Ei.
  - destruct (booksOfCategory (categoryOfBook b) seen) as [|x l] eqn:Ef.
    + now rewrite Hc.
    + exfalso. assert (Hx : In x (booksOfCategory (categoryOfBook b) seen)) by (rewrite Ef; now left).
      unfold booksOfCategory in Hx. apply List.filter_In in Hx as [Hx Hcat].
      apply String.eqb_eq in Hcat. specialize (Hseen x Hx). congruence.
  - assert (Hnew : forall l0 cat,
               match booksOfCategory (categoryOfBook b) seen with [] => None | l => Some l end
               = l0 ->
               mapGet cat (mapSet (categoryOfBook b)
                                  (booksOfCategory (categoryOfBook b) seen ++ [b]) m)
               = match booksOfCategory cat (seen ++ [b]) with [] => None | l => Some l end).
    { intros l0 cat _. rewrite booksOfCategory_snoc.
      destruct (String.eqb_spec (categoryOfBook b) cat) as [<-|Hne].
      - rewrite mapGet_mapSet_same.
        destruct (booksOfCategory (categoryOfBook b) seen); reflexivity.
      - rewrite mapGet_mapSet_other by congruence. rewrite app_nil_r. apply Hget. }
    destruct (mapGet (categoryOfBook b) m) as [l|] eqn:Eg.
    + exists (mapSet (categoryOfBook b) (l ++ [b]) m). split; [reflexivity|]. split.
      * now rewrite (mapKeys_mapSet_old _ _ _ _ Eg).
      * intros cat. destruct (booksOfCategory (categoryOfBook b) seen) as [|x r] eqn:Ef;
          [discriminate|]. injection Hc as ->. now apply (Hnew (Some (x :: r))).
    + exists (mapSet (categoryOfBook b) [b] m). split; [reflexivity|]. split.
      * rewrite (mapKeys_mapSet_new _ _ _ Eg). apply NoDup_app. split; [exact Hnd|].
        split; [|apply NoDup_singleton].
        intros k Hk Hk'. apply list_elem_of_singleton in Hk'. subst k.
        apply list_elem_of_In in Hk. now apply mapGet_None in Eg.
      * intros cat. destruct (booksOfCategory (categoryOfBook b) seen) as [|x r] eqn:Ef;
          [|discriminate]. now apply (Hnew None).
Qed.

Lemma fold_groupStep_None (books : list ApiEbook.t) : fold_left groupStep books None = None.
Proof. induction books; simpl; auto. Qed.

Lemma fold_groupStep_grouped (books seen : list ApiEbook.t) (m : list (string * list ApiEbook.t)) :
  grouped seen m ->
  (forall x, In x seen -> inherited (categoryOfBook x) = false) ->
  match fold_left groupStep books (Some m) with
  | None => exists b, In b books /\ inherited (categoryOfBook b) = true
  | Some m' => grouped (seen ++ books) m'
               /\ forall b, In b books -> inherited (categoryOfBook b) = false
  end.
Proof.
  revert seen m. induction books as [|b rest IH]; intros seen m Hg Hseen.
  - simpl. rewrite app_nil_r. split; [exact Hg | intros b []].
  - cbn [fold_left]. pose proof (groupStep_grouped seen m b Hg Hseen) as Hstep.
    destruct (inherited (categoryOfBook b)) eqn:Ei.
    + rewrite Hstep, fold_groupStep_None. exists b. split; [now left | exact Ei].
    + destruct Hstep as (m' & -> & Hg').
      assert (Hseen' : forall x, In x (seen ++ [b]) -> inherited (categoryOfBook x) = false).
      { intros x Hx. apply in_app_or in Hx as [Hx|[<-|[]]]; auto. }
      specialize (IH (seen ++ [b]) m' Hg' Hseen').
      destruct (fold_left groupStep rest (Some m')) as [m''|].
      * destruct IH as [IH1 IH2]. rewrite <- app_assoc in IH1. split; [exact IH1|].
        intros x [<-|Hx]; auto.
      * destruct IH as (x & Hx & Hix). exists x. split; [now right | exact Hix].
Qed.

Lemma groupByCategory_spec (books : list ApiEbook.t) :
  match groupByCategory books with
  | None => exists b, In b books /\ inherited (categoryOfBook b) = true
  | Some m => grouped books m /\ forall b, In b books -> inherited (categoryOfBook b) = false
  end.
Proof.
  apply (fold_groupStep_grouped books [] []).
  - split; [constructor | reflexivity].
  - intros x [].
Qed.
End ResponseFacts.

(** X11: [groupByCategory] files every book under its category (the trimmed
    category, ["Fiction"] when that is empty): the list found under a name
    is the list of the books of that category in the order given, and a name
    is present only when it has books.  The function fails, calling [push]
    on a member inherited from [Object.prototype], exactly when the category
    of some book is the name of such a member. *)
Theorem X11_groupByCategory (books : list ApiEbook.t) :
  (Response.groupByCategory books = None <->
   exists b, In b books /\ Response.inherited (Response.categoryOfBook b) = true)
  /\ (forall by_, Response.groupByCategory books = Some by_ ->
        NoDup (mapKeys by_)
        /\ forall cat, mapGet cat by_ = match booksOfCategory cat books with
                                         | [] => None
                                         | l => Some l
                                         end).
Proof.
  pose proof (groupByCategory_spec books) as H.
  destruct (Response.groupByCategory books) as [m|].
  - destruct H as [Hg Hno]. split.
    + split; [discriminate|]. intros (b & Hb & Hi). rewrite (Hno b Hb) in Hi. discriminate.
    + intros by_ [= <-]. exact Hg.
  - split; [split; auto | discriminate].
Qed.

Section ResponseItems.
Import Response.

Lemma firstn_In {A : Type} (n : nat) (l : list A) (x : A) : In x (firstn n l) -> In x l.
Proof. intros H. rewrite <- (firstn_skipn n l). apply in_or_app. now left. Qed.

Lemma sliceTo_In {A : Type} (n : Z) (l : list A) (x : A) : In x (sliceTo n l) -> In x l.
Proof. unfold sliceTo. destruct (0 <=? n); apply firstn_In. Qed.

Lemma sliceTo_length {A : Type} (n : Z) (l : list A) :
  0 <= n -> Z.of_nat (length (sliceTo n l)) <= n.
Proof.
  intros Hn. unfold sliceTo. destruct (Z.leb_spec 0 n); [|lia].
  rewrite length_firstn. lia.
Qed.

Lemma stripInternalFields_presentable (b : ApiEbook.t) :
  hasResolvedAuthor b = true -> presentable (stripInternalFields b).
Proof.
  intros H. unfold presentable, stripInternalFields. cbn zeta.
  split; [reflexivity|]. split; [reflexivity|]. split.
  - unfold hasResolvedAuthor in *. cbn [ApiEbook.author]. cbn zeta in H. rewrite H. exact H.
  - cbn [ApiEbook.title]. apply normalizeMainTitle_no_colon.
Qed.

Lemma stripped_presentable (n : Z) (l : list ApiEbook.t) :
  (forall b, In b l -> hasResolvedAuthor b = true) ->
  Forall presentable (map stripInternalFields (sliceTo n l)).
Proof.
  intros H. apply Forall_forall. intros x Hx. apply list_elem_of_In in Hx.
  apply in_map_iff in Hx as [b [<- Hb]].
  apply stripInternalFields_presentable, H. eapply sliceTo_In, Hb.
Qed.
End ResponseItems.

(** X12: every book of the field [trending] and of every shelf of
    [byCategory] in the response of [buildResponse] is without [_source] and
    [_popularity], has an author that is neither blank nor ["unknown"], and
    a title without colon; the books of the shelf of a category are of that
    category; and with a limit that is not negative, [trending] holds at
    most [trendingLimit] books and a shelf at most [perCategory]. *)
Theorem X12_response_presentable
  (merged : list ApiEbook.t) (trendingLimit perCategory : Z) (c : string) :
  Forall presentable (Response.trending merged trendingLimit)
  /\ (0 <= trendingLimit ->
      Z.of_nat (length (Response.trending merged trendingLimit)) <= trendingLimit)
  /\ (forall items, Response.shelf merged perCategory c = Some items ->
        Forall (fun b => presentable b /\ Response.categoryOfBook b = c) items
        /\ (0 <= perCategory -> Z.of_nat (length items) <= perCategory)).
Proof.
  assert (Hf : forall b, In b (Response.filtered merged) -> hasResolvedAuthor b = true).
  { intros b Hb. unfold Response.filtered in Hb. now apply List.filter_In in Hb as [_ Hb]. }
  split; [now apply stripped_presentable|]. split.
  - intros Hn. unfold Response.trending. rewrite length_map. now apply sliceTo_length.
  - intros items. unfold Response.shelf.
    pose proof (groupByCategory_spec (Response.filtered merged)) as Hg.
    destruct (Response.groupByCategory (Response.filtered merged)) as [by_|]; [|discriminate].
    destruct Hg as [[_ Hget] _]. cbn zeta. intros [= <-]. specialize (Hget c).
    assert (Hin : forall b, In b (match mapGet c by_ with Some l => l | None => [] end) ->
                            hasResolvedAuthor b = true /\ Response.categoryOfBook b = c).
    { intros b Hb. rewrite Hget in Hb.
      assert (Hb' : In b (booksOfCategory c (Response.filtered merged))).
      { destruct (booksOfCategory c (Response.filtered merged)); [destruct Hb | exact Hb]. }
      unfold booksOfCategory in Hb'. apply List.filter_In in Hb' as [Hb1 Hb2].
      split; [now apply Hf | now apply String.eqb_eq]. }
    split.
    + apply Forall_forall. intros x Hx. apply list_elem_of_In in Hx.
      apply in_map_iff in Hx as [b [<- Hb]]. apply sliceTo_In in Hb.
      destruct (Hin b Hb) as [H1 H2].
      split; [now apply stripInternalFields_presentable | exact H2].
    + intros Hn. rewrite length_map. now apply sliceTo_length.
Qed.

(** ** X13: the Gutendex source *)

Lemma guessCategory_known (title : string) (subjects : list string) :
  In (guessCategory title subjects) CATEGORY_ORDER.
Proof.
  unfold guessCategory. cbv zeta.
  repeat match goal with
         | |- context [if hasAny ?h ?k then _ else _] => destruct (hasAny h k)
         end;
    unfold CATEGORY_ORDER; repeat (first [left; reflexivity | right]).
Qed.

Section GutendexFetchFacts.
Import GutendexFetch.

Lemma bookOf_spec (lang : string) (r : Book) (b : ApiEbook.t) :
  bookOf lang r = Some b ->
  ApiEbook.language b = lang
  /\ ApiEbook._source b = Some gutendex
  /\ ApiEbook._popularity b = download_count r
  /\ ApiEbook.id b = idOf r
  /\ JS.truthy (ApiEbook.downloadUrl b) = true
  /\ ApiEbook.downloadUrl b = epub r
  /\ ApiEbook.coverUrl b <> Some EmptyString
  /\ ApiEbook.author b <> EmptyString
  /\ In (ApiEbook.category b) CATEGORY_ORDER
  /\ titleLooksAcademic (ApiEbook.title b) = false.
Proof.
  unfold bookOf. destruct (title r) as [rawTitle|]; [|discriminate].
  destruct (JS.truthy (media_type r) && _); [discriminate|]. cbv zeta.
  destruct (titleLooksAcademic (normalizeTitle rawTitle)) eqn:Et; [discriminate|].
  destruct (subjectsLookAcademic _); [discriminate|]. cbn [orb].
  destruct (JS.truthy (orNull (epub r))) eqn:Ed; [|discriminate]. cbn [negb].
  assert (He : orNull (epub r) = epub r).
  { unfold orNull in *. destruct (JS.truthy (epub r)); [reflexivity | discriminate]. }
  rewrite He in *.
  intros [= <-].
  cbn [ApiEbook.language ApiEbook._source ApiEbook._popularity ApiEbook.id ApiEbook.downloadUrl
       ApiEbook.coverUrl ApiEbook.author ApiEbook.category ApiEbook.title].
  repeat split; auto.
  - unfold orNull, JS.truthy. destruct (jpeg r) as [[|c s]|]; simpl; discriminate.
  - unfold normalizeAuthorName. cbv zeta.
    destruct (JS.isEmpty (JS.trim _)) eqn:E; [discriminate | now apply isEmpty_false].
  - apply guessCategory_known.
Qed.

Section PagesFacts.
Variable upstream : Z -> nat -> Gutendex.Response.
Variable jitter : Z -> nat -> Z.
Variable results : Z -> list Book.
Variable lang : string.
Variable limit maxPages pageDelayMs : Z.
Variable maxRetries : nat.

Lemma takeResults_gathered (p : Z) (rs : list Book) (out0 : list ApiEbook.t) (seen0 : list string) :
  1 <= p <= maxPages ->
  (forall r, In r rs -> In r (results p)) ->
  gathered lang limit maxPages results out0 seen0 ->
  gathered lang limit maxPages results
           (fst (takeResults lang limit rs out0 seen0)) (snd (takeResults lang limit rs out0 seen0)).
Proof.
  intros Hp. revert out0 seen0. induction rs as [|r rest IH]; intros out0 seen0 Hrs Hg; simpl.
  - exact Hg.
  - destruct (Z.leb_spec limit (Z.of_nat (length out0))) as [Hfull|Hroom]; [exact Hg|].
    assert (Hrest : forall x, In x rest -> In x (results p)) by (intros x Hx; apply Hrs; now right).
    destruct (bookOf lang r) as [b|] eqn:Eb; [|now apply IH].
    destruct (Interleave.has seen0 (dedupeKey b)) eqn:Eh; [now apply IH|].
    apply IH; [exact Hrest|].
    destruct Hg as (Hs & Hnd & Hlen & Hfrom). unfold gathered. repeat split.
    + now rewrite map_app, Hs.
    + apply NoDup_app. split; [exact Hnd|]. split; [|apply NoDup_singleton].
      intros k Hk Hk'. apply list_elem_of_singleton in Hk'. subst k.
      apply list_elem_of_In, has_In in Hk. congruence.
    + rewrite length_app. simpl. lia.
    + intros x Hx. apply in_app_or in Hx as [Hx|[<-|[]]]; [now apply Hfrom|].
      exists p, r. split; [exact Hp|]. split; [apply Hrs; now left | exact Eb].
Qed.

Lemma attemptsFrom_requests (up : nat -> Gutendex.Response) (jit : nat -> Z)
      (left attempt : nat) (last : option Gutendex.Response) :
  (requestsIn (Gutendex.trace (Gutendex.attemptsFrom up jit maxRetries left attempt last))
   <= left)%nat.
Proof.
  unfold requestsIn.
  revert attempt last. induction left as [|left IH]; intros attempt last;
    cbn [Gutendex.attemptsFrom]; [simpl; lia|].
  destruct (Gutendex.status (up attempt) =? 404); [simpl; lia|].
  destruct (Gutendex.status (up attempt) =? 429).
  - destruct (maxRetries <=? attempt)%nat; [simpl; lia|].
    specialize (IH (S attempt) (Some (up attempt))).
    unfold Gutendex.sleepMs. cbn [Gutendex.trace app List.filter length]. lia.
  - destruct (negb (Gutendex.ok (up attempt))); simpl; lia.
Qed.

Lemma requestsIn_app (a b : list Gutendex.Event) :
  requestsIn (a ++ b) = (requestsIn a + requestsIn b)%nat.
Proof. unfold requestsIn. now rewrite List.filter_app, length_app. Qed.

Lemma pagesFrom_spec (left : nat) (st : Run) :
  gathered lang limit maxPages results (out st) (seen st) ->
  1 <= page st ->
  maxPages < page st + Z.of_nat left ->
  broke st = false ->
  Forall (fun p => 1 <= p <= maxPages) (fetched st) ->
  Z.of_nat (length (fetched st)) = page st - 1 ->
  page st - 1 <= Z.max 0 maxPages ->
  (requestsIn (trace st) <= length (fetched st) * S maxRetries)%nat ->
  let st' := pagesFrom upstream jitter results lang limit maxPages pageDelayMs maxRetries left st in
  gathered lang limit maxPages results (out st') (seen st')
  /\ (broke st' = true \/ limit <= Z.of_nat (length (out st')) \/ maxPages < page st')
  /\ Forall (fun p => 1 <= p <= maxPages) (fetched st')
  /\ Z.of_nat (length (fetched st')) <= Z.max 0 maxPages
  /\ (requestsIn (trace st') <= length (fetched st') * S maxRetries)%nat.
Proof.
  revert st. induction left as [|left IH]; intros st Hg Hpage Hfuel Hbroke Hf Hlen Hcap Hreq; cbn zeta.
  - simpl. split; [exact Hg|]. split; [right; right; lia|]. split; [exact Hf|]. split; [lia | exact Hreq].
  - cbn [pagesFrom].
    destruct (Z.ltb_spec (Z.of_nat (length (out st))) limit) as [Hroom|Hfull]; cbn [andb].
    2:{ split; [exact Hg|]. split; [right; left; lia|]. split; [exact Hf|]. split; [lia | exact Hreq]. }
    destruct (Z.leb_spec (page st) maxPages) as [Hin|Hout].
    2:{ split; [exact Hg|]. split; [right; right; lia|]. split; [exact Hf|]. split; [lia | exact Hreq]. }
    set (a := Gutendex.attempts (upstream (page st)) (jitter (page st)) maxRetries).
    assert (Ha : (requestsIn (Gutendex.trace a) <= S maxRetries)%nat)
      by apply attemptsFrom_requests.
    assert (Hf' : Forall (fun p => 1 <= p <= maxPages) (fetched st ++ [page st])).
    { apply Forall_app. split; [exact Hf|]. constructor; [lia | constructor]. }
    assert (Hlen' : Z.of_nat (length (fetched st ++ [page st])) = page st).
    { rewrite length_app. simpl. lia. }
    assert (Hreq' : forall extra, requestsIn extra = 0%nat ->
              (requestsIn (trace st ++ Gutendex.trace a ++ extra)
               <= length (fetched st ++ [page st]) * S maxRetries)%nat).
    { intros extra He. rewrite !requestsIn_app, He, length_app. simpl length. lia. }
    destruct (Gutendex.pageUsable a); cbn [negb].
    + pose proof (takeResults_gathered (page st) (results (page st)) (out st) (seen st)
                    (conj Hpage Hin) (fun r H => H) Hg) as Hg'.
      destruct (takeResults lang limit (results (page st)) (out st) (seen st)) as [out' seen'].
      apply IH; cbn [out seen page broke fetched trace]; auto; try lia.
      apply Hreq'. destruct (0 <? pageDelayMs); reflexivity.
    + cbn [out seen page broke fetched trace].
      split; [exact Hg|]. split; [now left|]. split; [exact Hf'|]. split; [lia|].
      specialize (Hreq' [] eq_refl). now rewrite app_nil_r in Hreq'.
Qed.
End PagesFacts.
End GutendexFetchFacts.

(** X13: whatever the upstream answers, [fetchGutendex] returns at most
    [limit] books, no two with the same [dedupeKey]; each of them is built
    from a result of one of the pages 1 to [maxPages], is in the language
    asked for, comes from the source [gutendex] under an id that starts with
    ["gutenberg:"], has an EPUB link, a known author field, a category of
    [CATEGORY_ORDER] and a title that does not look academic.  The loop is
    left after a [break], with [limit] books, or past the last page; it
    requests no page outside 1 to [maxPages], and sends at most
    [maxRetries + 1] requests for each page requested. *)
Theorem X13_fetchGutendex
  (upstream : Z -> nat -> Gutendex.Response) (jitter : Z -> nat -> Z)
  (results : Z -> list GutendexFetch.Book) (lang : string)
  (limit maxPages pageDelayMs : Z) (maxRetries : nat) :
  let run := GutendexFetch.fetchGutendex upstream jitter results lang limit maxPages
                                         pageDelayMs maxRetries in
  Z.of_nat (length (GutendexFetch.out run)) <= Z.max 0 limit
  /\ NoDup (map dedupeKey (GutendexFetch.out run))
  /\ Forall (fun b =>
               (exists p r, 1 <= p <= maxPages /\ In r (results p)
                            /\ GutendexFetch.bookOf lang r = Some b)
               /\ ApiEbook.language b = lang
               /\ ApiEbook._source b = Some gutendex
               /\ JS.startsWith "gutenberg:" (ApiEbook.id b) = true
               /\ JS.truthy (ApiEbook.downloadUrl b) = true
               /\ ApiEbook.author b <> EmptyString
               /\ In (ApiEbook.category b) CATEGORY_ORDER
               /\ titleLooksAcademic (ApiEbook.title b) = false)
            (GutendexFetch.out run)
  /\ (GutendexFetch.broke run = true
      \/ limit <= Z.of_nat (length (GutendexFetch.out run))
      \/ maxPages < GutendexFetch.page run)
  /\ Forall (fun p => 1 <= p <= maxPages) (GutendexFetch.fetched run)
  /\ Z.of_nat (length (GutendexFetch.fetched run)) <= Z.max 0 maxPages
  /\ (requestsIn (GutendexFetch.trace run)
      <= length (GutendexFetch.fetched run) * S maxRetries)%nat.
Proof.
  cbv zeta. unfold GutendexFetch.fetchGutendex.
  destruct (pagesFrom_spec upstream jitter results lang limit maxPages pageDelayMs maxRetries
              (Z.to_nat maxPages) (GutendexFetch.mkRun [] [] 1 [] [] false))
    as (Hg & Hend & Hf & Hlen & Hreq); cbn; try lia; auto.
  { unfold gathered. repeat split; try constructor. simpl. lia. intros b []. }
  destruct Hg as (Hs & Hnd & Hle & Hfrom).
  split; [exact Hle|]. split; [now rewrite <- Hs|]. split; [|auto].
  apply Forall_forall. intros b Hb. apply list_elem_of_In in Hb.
  destruct (Hfrom b Hb) as (p & r & Hp & Hr & Hbook).
  destruct (bookOf_spec lang r b Hbook) as (H1 & H2 & H3 & H4 & H5 & H6 & H7 & H8 & H9 & H10).
  split; [exists p, r; auto|]. repeat split; auto.
  rewrite H4. reflexivity.
Qed.

(** ** X15: what opens the ManyBooks breaker, and what does not *)

(** X15: [fetchManyBooksXml] with the breaker open throws an error of status
    403 at once and sends nothing.  With the breaker closed it sends one
    request; a network failure is rethrown and a reply that is no block
    signal is returned (its body) when it is a success and thrown with its
    status otherwise, the breaker staying as it was in these cases; only a
    block signal (status 403 or 429, or an HTML page) opens the breaker, for
    one hour from the arrival of the reply. *)
Theorem X15_manybooks_breaker_cases
  (net : list string -> Z -> string -> ManyBooks.NetReply * Z) (url : string)
  (w : ManyBooks.World) :
  let res := fst (ManyBooks.run net (ManyBooks.fetchManyBooksXml url) w) in
  let w1 := snd (ManyBooks.run net (ManyBooks.fetchManyBooksXml url) w) in
  (ManyBooks.clock w < ManyBooks.manyBooksBlockedUntil w ->
   res = ManyBooks.Thrown (ManyBooks.mkError (Some 403)) /\ w1 = w)
  /\ (ManyBooks.manyBooksBlockedUntil w <= ManyBooks.clock w ->
      ManyBooks.sent w1 = ManyBooks.sent w ++ [url]
      /\ ManyBooks.clock w1 = snd (net (ManyBooks.sent w) (ManyBooks.clock w) url)
      /\ match fst (net (ManyBooks.sent w) (ManyBooks.clock w) url) with
         | ManyBooks.Rejected =>
             res = ManyBooks.Thrown (ManyBooks.mkError None)
             /\ ManyBooks.manyBooksBlockedUntil w1 = ManyBooks.manyBooksBlockedUntil w
         | ManyBooks.Replied resp =>
             if ManyBooks.isBlockSignal resp then
               ManyBooks.manyBooksBlockedUntil w1 = ManyBooks.clock w1 + 60 * 60 * 1000
               /\ (res = ManyBooks.Thrown (ManyBooks.mkError (Some 403))
                   \/ res = ManyBooks.Thrown (ManyBooks.mkError (Some 429)))
             else
               ManyBooks.manyBooksBlockedUntil w1 = ManyBooks.manyBooksBlockedUntil w
               /\ res = (if ManyBooks.ok resp then ManyBooks.Returned (ManyBooks.body resp)
                         else ManyBooks.Thrown (ManyBooks.mkError (Some (ManyBooks.status resp))))
         end).
Proof.
  cbv zeta. unfold ManyBooks.fetchManyBooksXml. cbn [ManyBooks.run]. split.
  - intros Hopen. destruct (Z.ltb_spec (ManyBooks.clock w) (ManyBooks.manyBooksBlockedUntil w));
      [|lia]. cbn [ManyBooks.run fst snd]. split; reflexivity.
  - intros Hclosed.
    destruct (Z.ltb_spec (ManyBooks.clock w) (ManyBooks.manyBooksBlockedUntil w)); [lia|].
    cbn [ManyBooks.run].
    destruct (net (ManyBooks.sent w) (ManyBooks.clock w) url) as [reply arrival].
    cbn [fst snd]. destruct reply as [resp|].
    + unfold ManyBooks.isBlockSignal.
      destruct (ManyBooks.looksHtml resp) eqn:Eh; cbn [orb].
      * rewrite orb_true_r. cbn. auto.
      * rewrite orb_false_r.
        destruct (Z.eqb_spec (ManyBooks.status resp) 403) as [E3|E3]; cbn [orb].
        -- assert (Hok : ManyBooks.ok resp = false) by (unfold ManyBooks.ok; rewrite E3; reflexivity).
           rewrite Hok. cbn. rewrite E3. auto.
        -- destruct (Z.eqb_spec (ManyBooks.status resp) 429) as [E4|E4].
           ++ assert (Hok : ManyBooks.ok resp = false) by (unfold ManyBooks.ok; rewrite E4; reflexivity).
              rewrite Hok. cbn. rewrite E4. auto.
           ++ destruct (ManyBooks.ok resp); cbn; auto.
    + cbn. auto.
Qed.

(** ** X16: equally scored search results *)

Section TieFacts.
Import OpenLibrary.
Variable wantTitle wantAuthor : string.
Variable authorKnown : bool.
Variable opts : Opts.

Lemma consider_tie (seen : list Doc) (best : option Best) (d : Doc) :
  tieInv wantTitle wantAuthor authorKnown opts seen best ->
  (best = None -> forall x, In x seen -> eligible opts x = false) ->
  tieInv wantTitle wantAuthor authorKnown opts (seen ++ [d])
         (consider wantTitle wantAuthor authorKnown opts best d)
  /\ (consider wantTitle wantAuthor authorKnown opts best d = None ->
      forall x, In x (seen ++ [d]) -> eligible opts x = false).
Proof.
  unfold consider. intros Hinv Hnone. destruct (eligible opts d) eqn:El; cbn [negb].
  - destruct best as [cur|]; cbn [tieInv] in *.
    + destruct Hinv as (Hsc & Hbo & Hall).
      destruct ((scoreOf wantTitle wantAuthor authorKnown d >? score cur)
                || ((scoreOf wantTitle wantAuthor authorKnown d =? score cur)
                    && (bonusOf d >? bonus cur))) eqn:Ecmp.
      * split; [|discriminate]. cbn [tieInv score bonus doc].
        split; [reflexivity|]. split; [reflexivity|].
        intros x Hx Hxe. apply in_app_or in Hx as [Hx|[<-|[]]]; [|right; lia].
        destruct (Hall x Hx Hxe) as [Hlt|[Heq Hle]];
          apply orb_true_iff in Ecmp as [E|E];
          try (rewrite Z.gtb_ltb in E; apply Z.ltb_lt in E);
          try (apply andb_true_iff in E as [E1 E2]; apply Z.eqb_eq in E1;
               rewrite Z.gtb_ltb in E2; apply Z.ltb_lt in E2); lia.
      * split; [|discriminate]. cbn [tieInv].
        split; [exact Hsc|]. split; [exact Hbo|].
        intros x Hx Hxe. apply in_app_or in Hx as [Hx|[<-|[]]]; [now apply Hall|].
        apply orb_false_iff in Ecmp as [E1 E2].
        rewrite Z.gtb_ltb in E1. apply Z.ltb_ge in E1.
        apply andb_false_iff in E2 as [E2|E2].
        -- apply Z.eqb_neq in E2. left. lia.
        -- rewrite Z.gtb_ltb in E2. apply Z.ltb_ge in E2. lia.
    + split; [|discriminate]. cbn [tieInv score bonus doc].
      split; [reflexivity|]. split; [reflexivity|].
      intros x Hx Hxe. apply in_app_or in Hx as [Hx|[<-|[]]]; [|right; lia].
      rewrite (Hnone eq_refl x Hx) in Hxe. discriminate.
  - destruct best as [cur|]; cbn [tieInv] in *.
    + split; [|discriminate]. destruct Hinv as (Hsc & Hbo & Hall).
      split; [exact Hsc|]. split; [exact Hbo|].
      intros x Hx Hxe. apply in_app_or in Hx as [Hx|[<-|[]]]; [now apply Hall|].
      rewrite El in Hxe. discriminate.
    + split; [exact I|]. intros _ x Hx.
      apply in_app_or in Hx as [Hx|[<-|[]]]; [now apply Hnone | exact El].
Qed.

Lemma fold_consider_tie (docs seen : list Doc) (best : option Best) :
  tieInv wantTitle wantAuthor authorKnown opts seen best ->
  (best = None -> forall x, In x seen -> eligible opts x = false) ->
  tieInv wantTitle wantAuthor authorKnown opts (seen ++ docs)
         (fold_left (consider wantTitle wantAuthor authorKnown opts) docs best).
Proof.
  revert seen best. induction docs as [|d docs IH]; intros seen best H Hn; simpl.
  - now rewrite app_nil_r.
  - replace (seen ++ d :: docs) with ((seen ++ [d]) ++ docs) by now rewrite <- app_assoc.
    destruct (consider_tie seen best d H Hn) as [H1 H2]. now apply IH.
Qed.
End TieFacts.

(** X16: among the eligible search results that score the same as the one
    [pickBestOlDoc] returns, none has a higher bonus (one point for a cover,
    one for an author): of two results that match equally well, the one with
    more of cover and author is taken. *)
Theorem X16_pickBestOlDoc_prefers_bonus
  (docs : list OpenLibrary.Doc) (title : string) (author : option string)
  (opts : OpenLibrary.Opts) (d : OpenLibrary.Doc) :
  OpenLibrary.pickBestOlDoc docs title author opts = Some d ->
  forall x, In x docs -> OpenLibrary.eligible opts x = true ->
            OpenLibrary.scoreOf (normalizeForLookup title) (OpenLibrary.wantAuthorOf author)
                                (OpenLibrary.authorKnownOf author) x
            = OpenLibrary.scoreOf (normalizeForLookup title) (OpenLibrary.wantAuthorOf author)
                                  (OpenLibrary.authorKnownOf author) d ->
            OpenLibrary.bonusOf x <= OpenLibrary.bonusOf d.
Proof.
  unfold OpenLibrary.pickBestOlDoc. cbv zeta.
  pose proof (fold_consider_tie (normalizeForLookup title) (OpenLibrary.wantAuthorOf author)
                (OpenLibrary.authorKnownOf author) opts docs [] None I
                (fun _ x (H : In x []) => match H with end)) as Hinv.
  fold (OpenLibrary.bestOf docs title author opts) in Hinv.
  destruct (OpenLibrary.bestOf docs title author opts) as [b|]; [|discriminate].
  destruct (_ <? _); [discriminate|]. intros [= <-] x Hx Hxe Heq.
  cbn [tieInv app] in Hinv. destruct Hinv as (Hsc & Hbo & Hall).
  destruct (Hall x Hx Hxe) as [Hlt|[_ Hle]]; lia.
Qed.

Lemma X16_pickBestOlDoc_prefers_bonus_witness :
  OpenLibrary.pickBestOlDoc [docBare; docExact] "A Tale of Two Cities" None
                            (OpenLibrary.mkOpts false false) = Some docExact
  /\ OpenLibrary.bonusOf docBare <= OpenLibrary.bonusOf docExact.
Proof.
  assert (Hpick : OpenLibrary.pickBestOlDoc [docBare; docExact] "A Tale of Two Cities" None
                    (OpenLibrary.mkOpts false false) = Some docExact)
    by (vm_compute; reflexivity).
  split; [exact Hpick|].
  exact (X16_pickBestOlDoc_prefers_bonus [docBare; docExact] "A Tale of Two Cities" None
           (OpenLibrary.mkOpts false false) docExact Hpick docBare
           (or_introl eq_refl) eq_refl eq_refl).
Defined.

(** ** X17: the items of a page and the rows behind them *)

Section PageItems.
Import Query.
Variable ds : Datastore.
Variable olTitle : string -> string -> string -> option string.
Variable nowIso : string.
Variable req : Request.

Lemma enrichTitles_shows (lang fallback : string) (budget : nat) (rows : list Row.t) :
  Forall2 (shows olTitle lang) rows (enrichTitles olTitle lang fallback budget rows).
Proof.
  revert budget. induction rows as [|r rest IH]; intros budget; simpl; [constructor|].
  assert (Hplain : shows olTitle lang r (toApiFromRow lang fallback r)).
  { unfold shows, toApiFromRow. simpl. repeat split; auto. }
  destruct (isGutenbergRow r) eqn:Eg; [destruct budget as [|budget]|];
    try (constructor; [exact Hplain | apply IH]).
  constructor; [|apply IH].
  cbn [toApiFromRow ApiEbook.title ApiEbook.author].
  destruct (olTitle lang (normalizeMainTitle (Row.title r)) (Row.author r)) as [t|] eqn:Et;
    [|exact Hplain].
  destruct (JS.isEmpty t) eqn:Ee; [exact Hplain|].
  unfold shows. simpl. repeat split; auto. right.
  split; [exact Eg|]. split; [exact Et | now apply isEmpty_false].
Qed.

Lemma enriched_nonempty (lang fallback : string) (budget : nat) (r : Row.t) (rest : list Row.t) :
  enrichTitles olTitle lang fallback budget (r :: rest) <> [].
Proof.
  intros H. apply (f_equal (@length _)) in H. rewrite enrichTitles_length in H. discriminate.
Qed.

Lemma category_page_items (p : Page ApiEbook.t) :
  getEbooksCategory ds olTitle nowIso req = Json p ->
  pageSound nowIso req p
  /\ exists all,
       categoryItems ds (langOf req) (label p) = DbOk all
       /\ Forall2 (shows olTitle (langOf req))
                  (range (cursorOf req) (cursorOf req + limitOf req 10 100 40 - 1) all)
                  (items p).
Proof.
  unfold getEbooksCategory.
  destruct (JS.isEmpty (categoryOf req)); [discriminate|]. cbn zeta.
  destruct (categoryCount ds (langOf req) (categoryOf req)) as [c|]; [|discriminate].
  destruct (categoryItems ds (langOf req) (nameOf c (categoryOf req))) as [all|] eqn:Ea;
    [|discriminate].
  cbn [ranged].
  destruct (range (cursorOf req) (cursorOf req + limitOf req 10 100 40 - 1) all) as [|r rest] eqn:Er.
  - destruct (allowEmptyOf req); [|discriminate]. intros [= <-]. split.
    + unfold pageSound. simpl. repeat split; discriminate.
    + exists all. split; [exact Ea | rewrite Er; constructor].
  - cbv beta iota.
    pose proof (enriched_nonempty (langOf req) (categoryOf req) MAX_ENRICH r rest) as Hne.
    pose proof (enrichTitles_shows (langOf req) (categoryOf req) MAX_ENRICH (r :: rest)) as Hshow.
    remember (enrichTitles olTitle (langOf req) (categoryOf req) MAX_ENRICH (r :: rest)) as slice.
    intros [= <-]. split.
    + unfold pageSound. cbn [Query.lang cursor generatedAt nextCursor items].
      split; [reflexivity|]. split; [reflexivity|]. split; [reflexivity|].
      intros c0 Hc. split; [exact Hne|].
      match type of Hc with context [if ?b then _ else _] => destruct b end; congruence.
    + exists all. split; [exact Ea | rewrite Er; exact Hshow].
Qed.

Lemma author_page_items (p : Page ApiEbook.t) :
  getEbooksAuthor ds olTitle nowIso req = Json p ->
  pageSound nowIso req p
  /\ exists all,
       authorItems ds (langOf req) (normalizeForCatalogNorm (normalizeAuthorKey (authorOf req)))
       = DbOk all
       /\ Forall2 (shows olTitle (langOf req))
                  (range (cursorOf req) (cursorOf req + limitOf req 10 100 40 - 1) all)
                  (items p).
Proof.
  unfold getEbooksAuthor.
  destruct (JS.isEmpty (authorOf req)); [discriminate|]. cbn zeta.
  destruct (authorCount ds (langOf req) _) as [c|]; [|discriminate].
  destruct (authorItems ds (langOf req) _) as [all|] eqn:Ea; [|discriminate].
  cbn [ranged].
  destruct (range (cursorOf req) (cursorOf req + limitOf req 10 100 40 - 1) all) as [|r rest] eqn:Er;
    [discriminate|].
  cbv beta iota.
  pose proof (enriched_nonempty (langOf req) "Fiction" MAX_ENRICH r rest) as Hne.
  pose proof (enrichTitles_shows (langOf req) "Fiction" MAX_ENRICH (r :: rest)) as Hshow.
  remember (enrichTitles olTitle (langOf req) "Fiction" MAX_ENRICH (r :: rest)) as slice.
  intros [= <-]. split.
  - unfold pageSound. cbn [Query.lang cursor generatedAt nextCursor items].
    split; [reflexivity|]. split; [reflexivity|]. split; [reflexivity|].
    intros c0 Hc. split; [exact Hne|].
    match type of Hc with context [if ?b then _ else _] => destruct b end; congruence.
  - exists all. split; [reflexivity | rewrite Er; exact Hshow].
Qed.

Lemma search_page_items (p : Page ApiEbook.t) :
  getEbooksSearch ds olTitle nowIso req = Json p ->
  pageSound nowIso req p
  /\ exists matching,
       (JS.isEmpty (normalizeSearchKey (queryOf req)) = true /\ matching = []
        \/ searchItems ds (langOf req) (patternOf (normalizeSearchKey (queryOf req)))
           = DbOk matching)
       /\ Forall2 (shows olTitle (langOf req))
                  (range (cursorOf req) (cursorOf req + limitOf req 10 100 40 - 1) matching)
                  (items p).
Proof.
  unfold getEbooksSearch.
  destruct (JS.isEmpty (queryOf req) || _); [discriminate|]. cbn zeta.
  destruct (JS.isEmpty (normalizeSearchKey (queryOf req))) eqn:Ew.
  - intros [= <-]. split.
    + unfold pageSound. simpl. repeat split; discriminate.
    + exists []. split; [now left|]. unfold range. rewrite skipn_nil, firstn_nil. constructor.
  - destruct (searchItems ds (langOf req) _) as [matching|m] eqn:Em.
    + set (rows := range (cursorOf req) (cursorOf req + limitOf req 10 100 40 - 1) matching).
      pose proof (enrichTitles_shows (langOf req) "Fiction" MAX_ENRICH rows) as Hshow.
      pose proof (enrichTitles_length olTitle (langOf req) "Fiction" MAX_ENRICH rows) as Hlen.
      remember (enrichTitles olTitle (langOf req) "Fiction" MAX_ENRICH rows) as slice.
      intros [= <-]. split.
      * unfold pageSound. cbn [Query.lang cursor generatedAt nextCursor items].
        split; [reflexivity|]. split; [reflexivity|]. split; [reflexivity|].
        intros c Hc.
        pose proof (limitOf_bounds req 10 100 40 ltac:(lia) ltac:(lia)) as Hl.
        pose proof (cursorOf_nonneg req) as Hcur.
        pose proof (range_length (cursorOf req) (cursorOf req + limitOf req 10 100 40 - 1)
                      matching) as Hr.
        fold rows in Hr. rewrite <- Hlen in Hr.
        assert (Hn : slice <> []).
        { intros Hnil. rewrite Hnil in Hc, Hr. cbn [length] in Hc, Hr.
          destruct (Z.gtb_spec (Z.max 0 (Z.of_nat (length matching))) 0) as [G|G];
            cbn [andb] in Hc.
          - destruct (Z.ltb_spec (cursorOf req + Z.of_nat 0)
                                 (Z.max 0 (Z.of_nat (length matching)))) as [L|L]; [lia|].
            destruct (Z.geb_spec (Z.of_nat 0) (limitOf req 10 100 40)); [lia | discriminate].
          - destruct (Z.geb_spec (Z.of_nat 0) (limitOf req 10 100 40)); [lia | discriminate]. }
        split; [exact Hn|].
        destruct (_ && _); [congruence|]. destruct (_ >=? _); congruence.
      * exists matching. split; [now right | exact Hshow].
    + destruct (_ || _); discriminate.
Qed.
End PageItems.

(** X17: whenever a listing of one category, of one author or a search
    answers with a page, the page repeats the language and the cursor of the
    request and the time of the answer; a [nextCursor], when there is one,
    is the cursor plus the number of items, and the page then has items; and
    the items show, one for one and in order, the rows that the datastore
    gives for the window [cursor .. cursor + limit - 1] of the query: same
    id, author, cover and download link, no [_source] and no [_popularity],
    and as title the main title of the row or, for a Gutenberg row, the
    canonical title found for it. *)
Theorem X17_page_items
  (ds : Query.Datastore) (olTitle : string -> string -> string -> option string)
  (nowIso : string) (req : Query.Request) :
  let window := fun all : list Row.t =>
    Query.range (Query.cursorOf req) (Query.cursorOf req + Query.limitOf req 10 100 40 - 1) all in
  (forall p, Query.getEbooksCategory ds olTitle nowIso req = Query.Json p ->
     pageSound nowIso req p
     /\ exists all,
          Query.categoryItems ds (Query.langOf req) (Query.label p) = Query.DbOk all
          /\ Forall2 (shows olTitle (Query.langOf req)) (window all) (Query.items p))
  /\ (forall p, Query.getEbooksAuthor ds olTitle nowIso req = Query.Json p ->
        pageSound nowIso req p
        /\ exists all,
             Query.authorItems ds (Query.langOf req)
               (normalizeForCatalogNorm (Query.normalizeAuthorKey (Query.authorOf req)))
             = Query.DbOk all
             /\ Forall2 (shows olTitle (Query.langOf req)) (window all) (Query.items p))
  /\ (forall p, Query.getEbooksSearch ds olTitle nowIso req = Query.Json p ->
        pageSound nowIso req p
        /\ exists matching,
             (JS.isEmpty (Query.normalizeSearchKey (Query.queryOf req)) = true /\ matching = []
              \/ Query.searchItems ds (Query.langOf req)
                   (Query.patternOf (Query.normalizeSearchKey (Query.queryOf req)))
                 = Query.DbOk matching)
             /\ Forall2 (shows olTitle (Query.langOf req)) (window matching) (Query.items p)).
Proof.
  cbv zeta. split; [|split].
  - apply category_page_items.
  - apply author_page_items.
  - apply search_page_items.
Qed.

(** ** X18: the validation of imported items *)

Lemma length_trimStart (s : string) : (String.length (JS.trimStart s) <= String.length s)%nat.
Proof. induction s as [|c r IH]; simpl; [lia|]. destruct (JS.isSpace c); simpl; lia. Qed.

Lemma length_trimEnd (s : string) : (String.length (JS.trimEnd s) <= String.length s)%nat.
Proof.
  induction s as [|c r IH]; simpl; [lia|].
  destruct (JS.isSpace c && JS.isEmpty (JS.trimEnd r)); simpl; lia.
Qed.

Lemma length_trim (s : string) : (String.length (JS.trim s) <= String.length s)%nat.
Proof.
  unfold JS.trim. pose proof (length_trimEnd (JS.trimStart s)). pose proof (length_trimStart s). lia.
Qed.

Lemma length_substring_0 (m : nat) (s : string) : (String.length (String.substring 0 m s) <= m)%nat.
Proof.
  revert s. induction m as [|m IH]; intros s.
  - destruct s; simpl; lia.
  - destruct s as [|c r]; simpl; [lia|]. specialize (IH r). lia.
Qed.

Section ImportValidationFacts.
Import ImportValidation.
Variable parseUrl : string -> option Url.
Variable lang nowIso importSource : string.

Lemma normalizeCatalogCategory_shape (raw : option string) :
  normalizeCatalogCategory raw <> EmptyString
  /\ (String.length (normalizeCatalogCategory raw) <= 40)%nat
  /\ JS.trim (normalizeCatalogCategory raw) = normalizeCatalogCategory raw.
Proof.
  unfold normalizeCatalogCategory. cbv zeta.
  set (s := match raw with Some x => JS.trim x | None => EmptyString end).
  destruct (JS.isEmpty (JS.trim (String.substring 0 40 (JS.collapseSpaces s)))) eqn:E.
  - split; [discriminate|]. split; [simpl; lia | vm_compute; reflexivity].
  - split; [now apply isEmpty_false|]. split; [|apply trim_idem].
    pose proof (length_trim (String.substring 0 40 (JS.collapseSpaces s))).
    pose proof (length_substring_0 40 (JS.collapseSpaces s)). lia.
Qed.

Lemma validate_importable (raw : RawItem) (row : Row.t) :
  validate parseUrl lang nowIso importSource raw = Accepted row ->
  importable parseUrl lang importSource row.
Proof.
  unfold validate. cbv zeta.
  destruct (JS.isEmpty (textOf (title raw))) eqn:Et; [discriminate|]. cbn [orb].
  destruct (Nat.ltb_spec (String.length (textOf (title raw))) 2) as [Hl|Hl]; [discriminate|].
  destruct (JS.isEmpty (textOf (author raw))) eqn:Ea; [discriminate|]. cbn [orb].
  destruct (String.eqb_spec (JS.toLowerCase (textOf (author raw))) "unknown") as [Hu|Hu];
    [discriminate|].
  destruct (JS.isEmpty (textOf (downloadUrl raw))) eqn:Ed; [discriminate|].
  destruct (parseUrl (textOf (downloadUrl raw))) as [dl|] eqn:Ep; [|discriminate].
  destruct (isHttp dl) eqn:Eh; [|discriminate]. cbn [negb].
  destruct (isAllowedManyBooksHost (hostname dl)) eqn:Eo; [|discriminate]. cbn [negb].
  intros [= <-]. unfold importable.
  cbn [Row.id Row.lang_code Row.source Row.title Row.author Row.download_url Row.cover_url
       Row.category Row.source_id Row.source_popularity Row.title_norm Row.author_norm].
  destruct (normalizeCatalogCategory_shape (category raw)) as (Hc1 & Hc2 & _).
  split; [reflexivity|]. split; [reflexivity|]. split; [reflexivity|]. split; [exact Hl|].
  split; [unfold textOf; destruct (title raw); [apply trim_idem | reflexivity]|].
  split; [now apply isEmpty_false|]. split; [exact Hu|].
  split; [exists dl; auto|].
  split.
  { intros c. destruct (JS.isEmpty (textOf (coverUrl raw))) eqn:Ec; [discriminate|].
    destruct (parseUrl (textOf (coverUrl raw))) as [cu|] eqn:Ecu; [|discriminate].
    destruct (isHttp cu) eqn:Ehc; [|discriminate]. intros [= <-].
    split; [now apply isEmpty_false | exists cu; auto]. }
  split; [exact Hc1|]. split; [exact Hc2|].
  split.
  { destruct (JS.isEmpty (textOf (sourceId raw))) eqn:Es; [discriminate|].
    intros [= E]. rewrite E in Es. discriminate. }
  split; [|split; reflexivity].
  intros p. destruct (sourcePopularity raw); intros [= <-]. lia.
Qed.

Lemma fill_importable (prev row : Row.t) :
  importable parseUrl lang importSource prev ->
  importable parseUrl lang importSource row ->
  importable parseUrl lang importSource (fill prev row) /\ Row.id (fill prev row) = Row.id prev.
Proof.
  intros (P1 & P2 & P3 & P4 & P5 & P6 & P7 & P8 & P9 & P10 & P11 & P12 & P13 & P14 & P15)
         (R1 & R2 & R3 & R4 & R5 & R6 & R7 & R8 & R9 & R10 & R11 & R12 & R13 & R14 & R15).
  split; [|reflexivity]. unfold importable, fill.
  cbn [Row.id Row.lang_code Row.source Row.title Row.author Row.download_url Row.cover_url
       Row.category Row.source_id Row.source_popularity Row.title_norm Row.author_norm].
  split; [exact P1|]. split; [exact P2|]. split; [exact P3|]. split; [exact P4|].
  split; [exact P5|]. split; [exact P6|]. split; [exact P7|]. split; [exact P8|].
  split.
  { intros c. destruct (negb (JS.truthy (Row.cover_url prev)) && JS.truthy (Row.cover_url row));
      [apply R9 | apply P9]. }
  split; [exact P10|]. split; [exact P11|].
  split.
  { destruct (negb (JS.truthy (Row.source_id prev)) && JS.truthy (Row.source_id row)); auto. }
  split; [|split; assumption].
  intros p. destruct (negb (truthyNumber (Row.source_popularity prev))
                       && truthyNumber (Row.source_popularity row)); auto.
Qed.

Lemma length_mapKeys {V : Type} (m : list (string * V)) : length (mapKeys m) = length m.
Proof. unfold mapKeys. apply length_map. Qed.

Lemma step_validated (seen : list RawItem) (st : State) (raw : RawItem) :
  validated parseUrl lang nowIso importSource seen st ->
  validated parseUrl lang nowIso importSource (seen ++ [raw])
            (step parseUrl lang nowIso importSource st raw).
Proof.
  intros (Hnd & Hall & Hkeys & Hlen & Hrej). unfold validated, step.
  rewrite !List.filter_app, !length_app. cbn [List.filter]. unfold accepted at 2 4.
  destruct (validate parseUrl lang nowIso importSource raw) as [reason|row] eqn:Ev.
  - cbn [deduped rejected negb length]. rewrite length_app. simpl length.
    split; [exact Hnd|]. split; [exact Hall|]. split; [|split; lia].
    intros raw0 row0 Hin Hv. apply in_app_or in Hin as [Hin|[<-|[]]]; [now apply (Hkeys raw0)|].
    congruence.
  - pose proof (validate_importable raw row Ev) as Hrow.
    cbn [negb length]. rewrite !Nat.add_0_r.
    destruct (mapGet (Row.id row) (deduped st)) as [prev|] eqn:Eg; cbn [deduped rejected].
    + pose proof (mapKeys_mapSet_old (Row.id row) (fill prev row) prev (deduped st) Eg) as Hk.
      rewrite Hk.
      split; [exact Hnd|]. split; [|split; [|split]].
      * intros k r Hin. apply In_mapSet in Hin as [[-> ->]|Hin]; [|now apply Hall].
        destruct (Hall _ _ (mapGet_Some_In _ _ _ Eg)) as [Hid Hprev].
        destruct (fill_importable prev row Hprev Hrow) as [Hf Hfid].
        split; [congruence | exact Hf].
      * intros raw0 row0 Hin Hv.
        apply in_app_or in Hin as [Hin|[<-|[]]]; [now apply (Hkeys raw0)|].
        rewrite Ev in Hv. injection Hv as <-.
        apply mapGet_Some_In in Eg. unfold mapKeys. apply in_map_iff.
        now exists (Row.id row, prev).
      * rewrite <- (length_mapKeys (mapSet _ _ _)), Hk, length_mapKeys. lia.
      * exact Hrej.
    + pose proof (mapKeys_mapSet_new (Row.id row) row (deduped st) Eg) as Hk.
      rewrite Hk.
      split; [|split; [|split; [|split]]].
      * apply NoDup_app. split; [exact Hnd|]. split; [|apply NoDup_singleton].
        intros k Hk1 Hk2. apply list_elem_of_singleton in Hk2. subst k.
        apply list_elem_of_In in Hk1. now apply mapGet_None in Eg.
      * intros k r Hin. apply In_mapSet in Hin as [[-> ->]|Hin]; [auto | now apply Hall].
      * intros raw0 row0 Hin Hv. apply in_or_app.
        apply in_app_or in Hin as [Hin|[<-|[]]]; [left; now apply (Hkeys raw0)|].
        rewrite Ev in Hv. injection Hv as <-. right. now left.
      * rewrite <- (length_mapKeys (mapSet _ _ _)), Hk, length_app, length_mapKeys. simpl. lia.
      * exact Hrej.
Qed.

Lemma fold_step_validated (slice seen : list RawItem) (st : State) :
  validated parseUrl lang nowIso importSource seen st ->
  validated parseUrl lang nowIso importSource (seen ++ slice)
            (fold_left (step parseUrl lang nowIso importSource) slice st).
Proof.
  revert seen st. induction slice as [|raw rest IH]; intros seen st H; simpl.
  - now rewrite app_nil_r.
  - replace (seen ++ raw :: rest) with ((seen ++ [raw]) ++ rest) by now rewrite <- app_assoc.
    apply IH. now apply step_validated.
Qed.
End ImportValidationFacts.

(** X18: in the validation loop of the import, whatever the items received,
    the rows kept carry pairwise different ids; each of them has the id,
    the language and the norms computed from its own trimmed title and
    author, a title of at least two characters, an author that is neither
    empty nor ["unknown"], a download link that parses as an [http(s)] URL
    on [manybooks.net] or a subdomain of it, a cover link that is absent or
    parses as an [http(s)] URL, a category of 1 to 40 characters, and no
    negative popularity; the id of every accepted item is among them; and
    one reason is recorded for each item rejected, so that rows kept and
    rejections together are never more than the items received. *)
Theorem X18_import_validation
  (parseUrl : string -> option ImportValidation.Url) (lang nowIso importSource : string)
  (slice : list ImportValidation.RawItem) :
  let st := ImportValidation.validateAll parseUrl lang nowIso importSource slice in
  let incoming := ImportValidation.incoming parseUrl lang nowIso importSource slice in
  NoDup (map Row.id incoming)
  /\ Forall (importable parseUrl lang importSource) incoming
  /\ (forall raw row, In raw slice ->
        ImportValidation.validate parseUrl lang nowIso importSource raw
        = ImportValidation.Accepted row ->
        In (Row.id row) (map Row.id incoming))
  /\ length (ImportValidation.rejected st)
     = length (List.filter (fun x => negb (accepted parseUrl lang nowIso importSource x)) slice)
  /\ (length incoming + length (ImportValidation.rejected st) <= length slice)%nat.
Proof.
  cbv zeta. unfold ImportValidation.incoming, ImportValidation.validateAll.
  destruct (fold_step_validated parseUrl lang nowIso importSource slice []
              (ImportValidation.mkState [] []))
    as (Hnd & Hall & Hkeys & Hlen & Hrej).
  { unfold validated. cbn [ImportValidation.deduped ImportValidation.rejected mapKeys map
                            List.filter length].
    split; [constructor|]. split; [intros ? ? []|]. split; [intros ? ? []|].
    split; [lia | reflexivity]. }
  cbn [app] in *.
  set (st := fold_left (ImportValidation.step parseUrl lang nowIso importSource) slice
                       (ImportValidation.mkState [] [])) in *.
  assert (Hids : map Row.id (mapValues (ImportValidation.deduped st))
                 = mapKeys (ImportValidation.deduped st)).
  { unfold mapValues, mapKeys. rewrite map_map. apply map_ext_in.
    intros [k r] Hin. simpl. now destruct (Hall k r Hin). }
  rewrite Hids. split; [exact Hnd|]. split; [|split; [exact Hkeys|split; [exact Hrej|]]].
  - apply Forall_forall. intros r Hr. apply list_elem_of_In in Hr.
    unfold mapValues in Hr. apply in_map_iff in Hr as [[k x] [<- Hin]].
    now destruct (Hall k x Hin).
  - unfold mapValues. rewrite length_map, Hrej.
    pose proof (List.filter_length (accepted parseUrl lang nowIso importSource) slice). lia.
Qed.

(** ** X19: the plan of the import *)

Section ImportPlanFacts.
Import CatalogImport.
Variable lang nowIso importSource : string.
Variable db : gmap string Existing.

Lemma importStep_planned (existingById : gmap string Existing) (seen : list Row.t)
      (plan : Plan) (row : Row.t) :
  existingById !! Row.id row = db !! Row.id row ->
  planned lang nowIso importSource db seen plan ->
  planned lang nowIso importSource db (seen ++ [row])
          (importStep lang nowIso importSource existingById plan row).
Proof.
  intros Hlk (Hu & Hi & Hm). unfold planned, importStep.
  rewrite flat_map_app, !List.filter_app, !length_app. cbn [flat_map List.filter].
  unfold writeOf at 2, isNew at 2, isImproved at 2. rewrite Hlk, app_nil_r.
  destruct (db !! Row.id row) as [e|].
  - destruct (mergeExisting lang nowIso importSource e row) as [m|];
      cbn [toUpsert inserted updated length].
    + rewrite Hu, Hi, Hm. repeat split; lia.
    + rewrite Hu, Hi, Hm, app_nil_r. repeat split; lia.
  - cbn [toUpsert inserted updated length]. rewrite Hu, Hi, Hm. repeat split; lia.
Qed.

Lemma fold_importStep_planned (existingById : gmap string Existing) (batch seen : list Row.t)
      (plan : Plan) :
  (forall row, In row batch -> existingById !! Row.id row = db !! Row.id row) ->
  planned lang nowIso importSource db seen plan ->
  planned lang nowIso importSource db (seen ++ batch)
          (fold_left (importStep lang nowIso importSource existingById) batch plan).
Proof.
  revert seen plan. induction batch as [|row rest IH]; intros seen plan Hb Hp; simpl.
  - now rewrite app_nil_r.
  - replace (seen ++ row :: rest) with ((seen ++ [row]) ++ rest) by now rewrite <- app_assoc.
    apply IH; [intros x Hx; apply Hb; now right|].
    apply importStep_planned; [apply Hb; now left | exact Hp].
Qed.

Lemma fold_importBatch_planned (batches : list (list Row.t)) (seen : list Row.t) (plan : Plan) :
  planned lang nowIso importSource db seen plan ->
  planned lang nowIso importSource db (seen ++ concat batches)
          (fold_left (importBatch lang nowIso importSource db) batches plan).
Proof.
  revert seen plan. induction batches as [|b rest IH]; intros seen plan Hp; simpl.
  - now rewrite app_nil_r.
  - rewrite app_assoc. apply IH. unfold importBatch.
    apply fold_importStep_planned; [|exact Hp].
    intros row Hrow. apply fetchExistingByIds_lookup. now apply in_map.
Qed.
End ImportPlanFacts.

(** X19: the batches of the import do not show in its result: the rows to
    write are, in the order of the incoming rows, what [writeOf] gives for
    each row against the stored table (the row itself under a new id, the
    merged row where the stored row can be improved, nothing otherwise);
    [inserted] counts the rows with a new id, [updated] the rows merged, and
    the two add up to the number of rows written, which is at most the
    number of incoming rows. *)
Theorem X19_import_plan
  (lang nowIso importSource : string) (db : gmap string CatalogImport.Existing)
  (incoming : list Row.t) :
  let plan := CatalogImport.importPlan lang nowIso importSource db incoming in
  CatalogImport.toUpsert plan = flat_map (writeOf lang nowIso importSource db) incoming
  /\ CatalogImport.inserted plan = length (List.filter (isNew db) incoming)
  /\ CatalogImport.updated plan
     = length (List.filter (isImproved lang nowIso importSource db) incoming)
  /\ length (CatalogImport.toUpsert plan)
     = (CatalogImport.inserted plan + CatalogImport.updated plan)%nat
  /\ (length (CatalogImport.toUpsert plan) <= length incoming)%nat.
Proof.
  cbv zeta. unfold CatalogImport.importPlan.
  pose proof (fold_importBatch_planned lang nowIso importSource db
                (chunksOf (length incoming) 200 incoming) [] (CatalogImport.mkPlan [] 0 0)) as H.
  rewrite chunksOf_concat in H by lia. cbn [app] in H.
  destruct H as (Hu & Hi & Hm); [repeat split|].
  set (plan := fold_left _ _ _) in *.
  split; [exact Hu|]. split; [exact Hi|]. split; [exact Hm|].
  assert (Hcount : length (flat_map (writeOf lang nowIso importSource db) incoming)
                   = (length (List.filter (isNew db) incoming)
                      + length (List.filter (isImproved lang nowIso importSource db) incoming))%nat
                   /\ (length (flat_map (writeOf lang nowIso importSource db) incoming)
                       <= length incoming)%nat).
  { clear. induction incoming as [|r rest [IH1 IH2]]; [split; reflexivity|].
    cbn [flat_map List.filter]. rewrite length_app.
    unfold writeOf at 1 3, isNew at 1, isImproved at 1.
    destruct (db !! Row.id r) as [e|].
    - destruct (CatalogImport.mergeExisting lang nowIso importSource e r); simpl; lia.
    - simpl. lia. }
  rewrite Hu, Hi, Hm. exact Hcount.
Qed.

(** ** X20: the throttle of the full rebuild *)

Section CountsRebuildFacts.
Import CountsRebuild.

Lemma rebuildStep_throttled (m rebuilds : list (string * Z)) (lang : string) (now : Z) :
  throttled m rebuilds ->
  throttled (snd (rebuildStep m lang now))
            (if fst (rebuildStep m lang now) then rebuilds ++ [(lang, now)] else rebuilds).
Proof.
  intros [Hlast Hapart]. unfold rebuildStep, COUNTS_REBUILD_THROTTLE_MS.
  destruct (Z.geb_spec (now - lastOf m lang) (60 * 1000)) as [Hge|Hlt]; cbn [fst snd];
    [|now split].
  assert (Hold : forall t, In (lang, t) rebuilds -> 60 * 1000 <= now - t).
  { intros t Ht. destruct (Hlast lang t Ht) as (t' & Hg & Hle).
    unfold lastOf in Hge. rewrite Hg in Hge. lia. }
  split.
  - intros l t Hin. apply in_app_or in Hin as [Hin|[[= <- <-]|[]]].
    + destruct (String.eqb_spec l lang) as [->|Hne].
      * exists now. rewrite mapGet_mapSet_same. split; [reflexivity|].
        specialize (Hold t Hin). lia.
      * rewrite mapGet_mapSet_other by exact Hne. now apply Hlast.
    + exists now. rewrite mapGet_mapSet_same. split; [reflexivity | lia].
  - intros i j l t1 t2 Hij Hi Hj.
    destruct (Nat.lt_ge_cases j (length rebuilds)) as [Hj'|Hj'].
    + rewrite lookup_app_l in Hi by lia. rewrite lookup_app_l in Hj by lia.
      now apply (Hapart i j l).
    + rewrite lookup_app_r in Hj by lia.
      destruct (j - length rebuilds)%nat as [|k] eqn:Ek; [|destruct k; discriminate].
      injection Hj as <- <-.
      rewrite lookup_app_l in Hi by lia.
      apply Hold. apply list_elem_of_In. eapply list_elem_of_lookup_2. exact Hi.
Qed.

Lemma run_throttled (imports m rebuilds : list (string * Z)) :
  throttled m rebuilds ->
  throttled (fst (run imports m rebuilds)) (snd (run imports m rebuilds)).
Proof.
  revert m rebuilds. induction imports as [|[lang now] rest IH]; intros m rebuilds H; simpl.
  - exact H.
  - pose proof (rebuildStep_throttled m rebuilds lang now H) as Hs.
    destruct (rebuildStep m lang now) as [called m']. now apply IH.
Qed.
End CountsRebuildFacts.

(** X20: over any series of imports, and whatever the map
    [countsRebuildLastAt] held before, two full rebuilds of the counts that
    the imports call for the same language are at least sixty seconds apart
    by the clock readings of their imports. *)
Theorem X20_rebuild_throttle
  (imports m0 : list (string * Z)) (i j : nat) (lang : string) (t1 t2 : Z) :
  (i < j)%nat ->
  snd (CountsRebuild.run imports m0 []) !! i = Some (lang, t1) ->
  snd (CountsRebuild.run imports m0 []) !! j = Some (lang, t2) ->
  60 * 1000 <= t2 - t1.
Proof.
  assert (H0 : throttled m0 []).
  { split; [intros l t [] | intros ? ? ? ? ? _ Hi; discriminate Hi]. }
  destruct (run_throttled imports m0 [] H0) as [_ Hapart].
  intros Hij Hi Hj. exact (Hapart i j lang t1 t2 Hij Hi Hj).
Qed.

Lemma X20_rebuild_throttle_witness :
  snd (CountsRebuild.run [("en", 100000); ("pl", 110000); ("en", 120000); ("en", 170000)] [] [])
  = [("en", 100000); ("pl", 110000); ("en", 170000)]
  /\ 60 * 1000 <= 170000 - 100000.
Proof.
  split; [vm_compute; reflexivity|].
  exact (X20_rebuild_throttle
           [("en", 100000); ("pl", 110000); ("en", 120000); ("en", 170000)] [] 0 2 "en"
           100000 170000 ltac:(lia) eq_refl eq_refl).
Defined.

(** ** X21: what an Open Library lookup returns *)

Lemma pickBestOlDoc_some (docs : list OpenLibrary.Doc) (title : string) (author : option string)
      (opts : OpenLibrary.Opts) (d : OpenLibrary.Doc) :
  OpenLibrary.pickBestOlDoc docs title author opts = Some d ->
  In d docs /\ OpenLibrary.eligible opts d = true.
Proof.
  unfold OpenLibrary.pickBestOlDoc. cbv zeta.
  pose proof (bestOf_inv docs title author opts) as Hinv.
  destruct (OpenLibrary.bestOf docs title author opts) as [b|]; [|discriminate].
  destruct (_ <? _); [discriminate|]. intros [= <-].
  destruct Hinv as (Hin & Hel & _). auto.
Qed.

Lemma normalizeOlAuthor_shape (value : option string) (a : string) :
  OpenLibraryMatch.normalizeOlAuthor value = Some a ->
  a <> EmptyString /\ JS.trim a = a /\ JS.toLowerCase a <> "unknown".
Proof.
  unfold OpenLibraryMatch.normalizeOlAuthor. destruct value as [s|]; [|discriminate]. cbv zeta.
  destruct (JS.isEmpty (JS.trim s)) eqn:E; [discriminate|].
  destruct (String.eqb_spec (JS.toLowerCase (JS.trim s)) "unknown") as [Hu|Hu]; [discriminate|].
  intros [= <-]. split; [now apply isEmpty_false|]. split; [apply trim_idem | exact Hu].
Qed.

Section OpenLibraryMatchFacts.
Import OpenLibraryMatch.
Variable docs : list OpenLibrary.Doc.
Variable title : string.
Variable author : option string.

Lemma match_author (a : string) :
  OlCache.author (fetchOpenLibraryMatch (Some docs) title author) = Some a ->
  a <> EmptyString /\ JS.trim a = a /\ JS.toLowerCase a <> "unknown"
  /\ exists d names, In d docs /\ OpenLibrary.author_name d = Some names
                     /\ normalizeOlAuthor (hd_error names) = Some a.
Proof.
  unfold fetchOpenLibraryMatch. cbv zeta. cbn [OlCache.author].
  pose proof (pickBestOlDoc_some docs title author (OpenLibrary.mkOpts false true)) as Hp.
  destruct (OpenLibrary.pickBestOlDoc docs title author (OpenLibrary.mkOpts false true))
    as [d|]; [|discriminate].
  destruct (Hp d eq_refl) as [Hin _].
  destruct (OpenLibrary.author_name d) as [names|] eqn:En; [|discriminate].
  intros Ha. destruct (normalizeOlAuthor_shape _ _ Ha) as (H1 & H2 & H3).
  repeat split; auto. exists d, names. auto.
Qed.

Lemma match_title (t : string) :
  OlCache.title (fetchOpenLibraryMatch (Some docs) title author) = Some t ->
  JS.includes t ":" = false /\ JS.trim t = t
  /\ exists d raw, In d docs /\ OpenLibrary.hasAuthor d = true
                   /\ OpenLibrary.title d = Some raw /\ t = normalizeMainTitle raw.
Proof.
  unfold fetchOpenLibraryMatch. cbv zeta. cbn [OlCache.title].
  pose proof (pickBestOlDoc_some docs title author (OpenLibrary.mkOpts false true)) as Hp.
  destruct (OpenLibrary.pickBestOlDoc docs title author (OpenLibrary.mkOpts false true))
    as [d|]; [|discriminate].
  destruct (Hp d eq_refl) as [Hin Hel].
  destruct (OpenLibrary.title d) as [raw|] eqn:Et; [|discriminate].
  destruct (JS.isEmpty raw); [discriminate|]. intros [= <-].
  split; [apply normalizeMainTitle_no_colon|]. split; [apply normalizeMainTitle_trimmed|].
  exists d, raw. repeat split; auto.
  unfold OpenLibrary.eligible in Hel. cbn [OpenLibrary.requireAuthor] in Hel.
  apply andb_prop in Hel as [_ Hel]. now destruct (OpenLibrary.hasAuthor d).
Qed.

Lemma match_cover (u : string) :
  OlCache.coverUrl (fetchOpenLibraryMatch (Some docs) title author) = Some u ->
  u <> EmptyString
  /\ exists d n, In d docs /\ OpenLibrary.cover_i d = Some n /\ n <> 0
                 /\ u = buildOpenLibraryCoverUrl n.
Proof.
  unfold fetchOpenLibraryMatch. cbv zeta. cbn [OlCache.coverUrl].
  pose proof (pickBestOlDoc_some docs title author (OpenLibrary.mkOpts true false)) as Hp.
  destruct (OpenLibrary.pickBestOlDoc docs title author (OpenLibrary.mkOpts true false))
    as [d|]; [|discriminate].
  destruct (Hp d eq_refl) as [Hin _].
  destruct (OpenLibrary.cover_i d) as [n|] eqn:En; [|discriminate].
  destruct (Z.eqb_spec n 0) as [Hz|Hz]; [discriminate|]. intros [= <-].
  split; [discriminate|]. exists d, n. auto.
Qed.
End OpenLibraryMatchFacts.

(** X21: in the result of [fetchOpenLibraryMatch], an author, when there is
    one, is trimmed, not empty and not ["unknown"] in any case, and is the
    first author of a search result that has authors; a title, when there is
    one, is the main title (no colon, no white space at the ends) of a
    search result that has authors; a cover link, when there is one, is the
    large cover of the non-zero cover id of one of the search results; and a
    reply that is not a success, or without search results, gives the empty
    match.  Cover and author are stored in the cache as they are
    returned. *)
Theorem X21_fetchOpenLibraryMatch
  (reply : option (list OpenLibrary.Doc)) (title : string) (author : option string) :
  let m := OpenLibraryMatch.fetchOpenLibraryMatch reply title author in
  (forall a, OlCache.author m = Some a ->
      a <> EmptyString /\ JS.trim a = a /\ JS.toLowerCase a <> "unknown"
      /\ exists docs d names, reply = Some docs /\ In d docs
                              /\ OpenLibrary.author_name d = Some names
                              /\ OpenLibraryMatch.normalizeOlAuthor (hd_error names) = Some a)
  /\ (forall t, OlCache.title m = Some t ->
        JS.includes t ":" = false /\ JS.trim t = t
        /\ exists docs d raw, reply = Some docs /\ In d docs
                              /\ OpenLibrary.hasAuthor d = true
                              /\ OpenLibrary.title d = Some raw
                              /\ t = normalizeMainTitle raw)
  /\ (forall u, OlCache.coverUrl m = Some u ->
        exists docs d n, reply = Some docs /\ In d docs
                         /\ OpenLibrary.cover_i d = Some n /\ n <> 0
                         /\ u = OpenLibraryMatch.buildOpenLibraryCoverUrl n)
  /\ (reply = None \/ reply = Some [] -> m = OlCache.noMatch)
  /\ OlCache.orNull (OlCache.coverUrl m) = OlCache.coverUrl m
  /\ OlCache.orNull (OlCache.author m) = OlCache.author m.
Proof.
  cbv zeta. destruct reply as [docs|].
  2:{ cbn. repeat split; try discriminate; auto. }
  split; [|split; [|split; [|split; [|split]]]].
  - intros a Ha. destruct (match_author docs title author a Ha) as (H1 & H2 & H3 & d & names & H4).
    repeat split; auto. exists docs, d, names. tauto.
  - intros t Ht. destruct (match_title docs title author t Ht) as (H1 & H2 & d & raw & H3).
    repeat split; auto. exists docs, d, raw. tauto.
  - intros u Hu. destruct (match_cover docs title author u Hu) as (_ & d & n & H).
    exists docs, d, n. tauto.
  - intros [H|H]; [discriminate|]. injection H as ->. reflexivity.
  - pose proof (match_cover docs title author) as Hc.
    destruct (OlCache.coverUrl _) as [u|]; [|reflexivity].
    destruct (Hc u eq_refl) as [Hne _]. unfold OlCache.orNull, JS.truthy.
    destruct u; [contradiction | reflexivity].
  - pose proof (match_author docs title author) as Hc.
    destruct (OlCache.author _) as [a|]; [|reflexivity].
    destruct (Hc a eq_refl) as [Hne _]. unfold OlCache.orNull, JS.truthy.
    destruct a; [contradiction | reflexivity].
Qed.

(** ** X22: numerals read back, and the cursor of the next page *)







(** ** X14, X23: classification by keywords *)

Lemma toLowerCase_app (a b : string) :
  JS.toLowerCase (a ++ b) = (JS.toLowerCase a ++ JS.toLowerCase b)%string.
Proof. induction a as [|c r IH]; simpl; [reflexivity | now rewrite IH]. Qed.

Lemma append_assoc_string (a b c : string) : ((a ++ b) ++ c = a ++ (b ++ c))%string.
Proof.
  induction a as [|x r IH]; [reflexivity|].
  change (String x ((r ++ b) ++ c) = String x (r ++ (b ++ c)))%string. now rewrite IH.
Qed.

Lemma startsWith_app (k post : string) : JS.startsWith k (k ++ post) = true.
Proof. induction k as [|c r IH]; simpl; [reflexivity | now rewrite Ascii.eqb_refl]. Qed.

Lemma includes_prefix (s p : string) : JS.startsWith p s = true -> JS.includes s p = true.
Proof. intros H. destruct s; simpl; rewrite H; reflexivity. Qed.

Lemma includes_app (pre k post : string) : JS.includes (pre ++ k ++ post) k = true.
Proof.
  induction pre as [|c r IH].
  - change (JS.includes (k ++ post) k = true). apply includes_prefix, startsWith_app.
  - change (JS.includes (String c (r ++ k ++ post)) k = true).
    cbn [JS.includes]. rewrite IH. apply orb_true_r.
Qed.

Lemma hasAny_true (hay k : string) (keywords : list string) :
  In k keywords -> JS.includes hay k = true -> hasAny hay keywords = true.
Proof. intros Hin Hk. unfold hasAny. apply existsb_exists. exists k. auto. Qed.

(** X14: [titleLooksAcademic] flags every title in which one of its keywords
    occurs, in whatever case and at whatever place, inside a longer word as
    well; and it does not see the case of the title. *)
Theorem X14_titleLooksAcademic (pre word post : string) :
  In (JS.toLowerCase word) academicTitleWords ->
  titleLooksAcademic (pre ++ word ++ post) = true
  /\ titleLooksAcademic (JS.toLowerCase (pre ++ word ++ post)) = true.
Proof.
  intros Hin.
  assert (H : titleLooksAcademic (pre ++ word ++ post) = true).
  { unfold titleLooksAcademic. apply (hasAny_true _ (JS.toLowerCase word)); [exact Hin|].
    rewrite !toLowerCase_app. apply includes_app. }
  split; [exact H|]. unfold titleLooksAcademic in *. now rewrite toLowerCase_idem.
Qed.

Lemma X14_titleLooksAcademic_witness :
  titleLooksAcademic "A Discourse on Method" = true.
Proof.
  exact (proj1 (X14_titleLooksAcademic "A Dis" "course" " on Method"
                  ltac:(vm_compute; tauto))).
Defined.

(** X23: [guessCategory] always answers with one of the categories of
    [CATEGORY_ORDER], does not see the case of the title and of the
    subjects, and answers ["Children's"] whenever the title holds
    ["juvenile"], whatever else title and subjects hold. *)
Theorem X23_guessCategory (title : string) (subjects : list string) :
  In (guessCategory title subjects) CATEGORY_ORDER
  /\ guessCategory (JS.toLowerCase title) (map JS.toLowerCase subjects)
     = guessCategory title subjects
  /\ (forall pre post,
        guessCategory (pre ++ "juvenile" ++ post) subjects = "Children's").
Proof.
  split; [apply guessCategory_known|]. split.
  - unfold guessCategory. rewrite toLowerCase_idem, map_map.
    rewrite (map_ext (fun x => JS.toLowerCase (JS.toLowerCase x)) JS.toLowerCase)
      by (intros; apply toLowerCase_idem).
    reflexivity.
  - intros pre post. unfold guessCategory. cbv zeta.
    rewrite (hasAny_true _ "juvenile"); [reflexivity | simpl; tauto |].
    rewrite !toLowerCase_app, !append_assoc_string.
    change (JS.toLowerCase "juvenile") with "juvenile".
    apply includes_app.
Qed.

(** ** X24: the default bounds of the Gutendex source *)

Lemma maxPagesOf_bounds (opt : option Z) (limit : Z) :
  1 <= GutendexFetch.maxPagesOf opt limit
  /\ GutendexFetch.maxPagesOf None limit <= 40
  /\ (forall n, opt = Some n -> GutendexFetch.maxPagesOf opt limit <= Z.max 1 n).
Proof.
  unfold GutendexFetch.maxPagesOf. cbv zeta. split; [destruct opt; lia|].
  split; [lia|]. intros n ->. lia.
Qed.

(** X24: the number of pages that [fetchGutendex] may request is at least 1
    and at most 40, or at most [opts.maxPages] when that is given (1 when it
    is below 1); so with the default options a run requests at most 40
    pages and sends at most 160 requests, whatever the upstream answers and
    however many books are asked for. *)
Theorem X24_fetchGutendex_default_bounds
  (upstream : Z -> nat -> Gutendex.Response) (jitter : Z -> nat -> Z)
  (results : Z -> list GutendexFetch.Book) (lang : string) (limit : Z) (opt : option Z) :
  let run := GutendexFetch.fetchGutendex upstream jitter results lang limit
               (GutendexFetch.maxPagesOf None limit) (GutendexFetch.pageDelayOf None)
               (Gutendex.maxRetriesOf None) in
  (1 <= GutendexFetch.maxPagesOf opt limit
   /\ GutendexFetch.maxPagesOf None limit <= 40
   /\ (forall n, opt = Some n -> GutendexFetch.maxPagesOf opt limit <= Z.max 1 n))
  /\ (length (GutendexFetch.fetched run) <= 40)%nat
  /\ (requestsIn (GutendexFetch.trace run) <= 160)%nat.
Proof.
  cbv zeta. split; [apply maxPagesOf_bounds|].
  unfold GutendexFetch.fetchGutendex.
  destruct (pagesFrom_spec upstream jitter results lang limit
              (GutendexFetch.maxPagesOf None limit) (GutendexFetch.pageDelayOf None)
              (Gutendex.maxRetriesOf None)
              (Z.to_nat (GutendexFetch.maxPagesOf None limit))
              (GutendexFetch.mkRun [] [] 1 [] [] false))
    as (_ & _ & _ & Hlen & Hreq); cbn; try lia; auto.
  { unfold gathered. repeat split; try constructor. simpl. lia. intros b []. }
  destruct (maxPagesOf_bounds None limit) as (_ & Hcap & _).
  set (run := GutendexFetch.pagesFrom _ _ _ _ _ _ _ _ _ _) in *.
  change (Gutendex.maxRetriesOf None) with 3%nat in Hreq.
  split; lia.
Qed.

(** ** X25: the categories listing *)

(** X25: every item of the categories listing carries a name that is
    trimmed and not empty and a count that is not negative, and is made from
    one of the rows of the window, in their order; rows without a name or a
    count are left out. *)
Theorem X25_category_listing_items
  (ds : Query.Datastore) (nowIso : string) (req : Query.Request) (p : Query.Page Query.CategoryItem) :
  Query.getEbooksCategories ds nowIso req = Query.Json p ->
  Forall (fun i => Query.ci_category i <> EmptyString
                   /\ JS.trim (Query.ci_category i) = Query.ci_category i
                   /\ 0 <= Query.ci_count i) (Query.items p)
  /\ exists all,
       Query.categoryCounts ds (Query.langOf req) = Query.DbOk all
       /\ Query.items p
          = flat_map Query.categoryItemOf
              (Query.range (Query.cursorOf req)
                           (Query.cursorOf req + Query.limitOf req 10 200 60 - 1) all)
       /\ (forall c, Query.nextCursor p = Some c ->
             c = Query.cursorOf req
                 + Z.of_nat (length (Query.range (Query.cursorOf req)
                           (Query.cursorOf req + Query.limitOf req 10 200 60 - 1) all))).
Proof.
  unfold Query.getEbooksCategories. cbv zeta.
  destruct (Query.categoryCounts ds (Query.langOf req)) as [all|] eqn:Ea; [|discriminate].
  cbn [Query.ranged]. intros [= <-]. cbn [Query.items Query.nextCursor]. split.
  - apply Forall_forall. intros i Hi. apply list_elem_of_In in Hi.
    apply in_flat_map in Hi as (r & _ & Hi). unfold Query.categoryItemOf in Hi.
    destruct (Query.name r) as [c|]; [|destruct Hi].
    destruct (Query.count r) as [n|]; [|destruct Hi].
    destruct (JS.isEmpty (JS.trim c)) eqn:E; [destruct Hi|].
    destruct Hi as [<-|[]]. cbn. split; [now apply isEmpty_false|].
    split; [apply trim_idem | lia].
  - exists all. split; [reflexivity|]. split; [reflexivity|].
    intros c. destruct (_ >=? _); [|discriminate]. now intros [= <-].
Qed.

Lemma X25_category_listing_items_witness :
  exists p,
    Query.getEbooksCategories tenRowStore "2024-01-02T00:00:00.000Z" (sampleRequest "0")
    = Query.Json p
    /\ Forall (fun i => Query.ci_category i <> EmptyString
                        /\ JS.trim (Query.ci_category i) = Query.ci_category i
                        /\ 0 <= Query.ci_count i) (Query.items p).
Proof.
  eexists. split; [reflexivity|].
  exact (proj1 (X25_category_listing_items tenRowStore "2024-01-02T00:00:00.000Z"
                  (sampleRequest "0") _ eq_refl)).
Defined.

(** ** X26: Gutendex books in the catalog *)

(** X26: a result of Gutendex without a named first author becomes a book
    with the author ["Unknown"], which the synchronization never stores;
    and the row that the synchronization makes of a book of [fetchGutendex]
    is one that the query service treats as a Gutenberg row, whose title is
    looked up at Open Library. *)
Theorem X26_gutendex_books_in_catalog
  (lang nowIso : string) (r : GutendexFetch.Book) (b : ApiEbook.t) :
  GutendexFetch.bookOf lang r = Some b ->
  (JS.isEmpty (JS.trim (JS.orElse (hd_error (GutendexFetch.authors r)) EmptyString)) = true ->
   ApiEbook.author b = "Unknown" /\ syncKeeps b = false)
  /\ Query.isGutenbergRow (toRow lang nowIso b) = true.
Proof.
  intros Hb.
  destruct (bookOf_spec lang r b Hb) as (_ & Hsrc & _).
  split.
  - intros Hblank. revert Hb. unfold GutendexFetch.bookOf.
    destruct (GutendexFetch.title r) as [rawTitle|]; [|discriminate].
    destruct (JS.truthy (GutendexFetch.media_type r) && _); [discriminate|]. cbv zeta.
    destruct (titleLooksAcademic _ || subjectsLookAcademic _); [discriminate|].
    destruct (negb (JS.truthy _)); [discriminate|]. intros [= <-].
    assert (Ha : normalizeAuthorName
                   (JS.orElse (hd_error (GutendexFetch.authors r)) "Unknown") = "Unknown").
    { unfold JS.orElse in *. destruct (hd_error (GutendexFetch.authors r)) as [a|]; [|reflexivity].
      destruct (JS.isEmpty a) eqn:Ea; [reflexivity|].
      unfold normalizeAuthorName. cbv zeta. now rewrite Hblank. }
    cbn [ApiEbook.author]. split; [exact Ha|].
    match goal with |- syncKeeps ?x = false => set (book := x) end.
    assert (Hr : hasResolvedAuthor book = false).
    { unfold hasResolvedAuthor, book. cbn [ApiEbook.author]. rewrite Ha. reflexivity. }
    unfold syncKeeps. cbv zeta. rewrite Hr. apply andb_false_r.
  - unfold Query.isGutenbergRow, toRow. cbn [Row.source Row.source_id]. rewrite Hsrc.
    reflexivity.
Qed.

Lemma X26_gutendex_books_in_catalog_witness :
  Query.isGutenbergRow
    (toRow "en" "2024-05-01T10:00:00.000Z"
       (ApiEbook.mk "gutenberg:84" "Frankenstein" "Shelley, Mary Wollstonecraft" "en" "Horror"
          None (Some "https://www.gutenberg.org/ebooks/84.epub.images") (Some gutendex)
          (Some 90000))) = true.
Proof.
  exact (proj2 (X26_gutendex_books_in_catalog "en" "2024-05-01T10:00:00.000Z"
           sampleGutendexBook _ eq_refl)).
Defined.
